(** * Incite: method identity, change tracking and staleness

    A shallow embedding of the extraction pipeline
    ([extractor/parser.py], class [JavaExtractor]) and of the record store
    ([datastore/rawdatastore/postgresManager.py], class [PostgresDatastore]),
    followed by the properties the specification states about them.

    Conventions.
    - A Python [str] is a [string]; a character stands for one code point.
      The characters the code inspects (braces, dots, the LIKE wildcards)
      are ASCII.
    - A Python [int] is a [Z]; a length or a counter that starts at a
      non-negative value and only grows is a [nat].
    - A raised exception is the left summand of a sum type; [try/except]
      is a [match] on it.
    - The table [java_methods] is a finite map from the primary key [id]
      to the row. *)

From Stdlib Require Import ZArith QArith List Ascii String Bool Lia.
From Stdlib Require Import DecimalString DecimalNat DecimalZ.
From stdpp Require Import base option list gmap strings fin_maps sorting.

Local Open Scope string_scope.
Local Open Scope Z_scope.
Local Open Scope list_scope.

Set Warnings "-register-all".

(** ** Python string primitives used by the sources *)

Module PyStr.

(** The one-character string holding a line feed. *)
Definition NL : string := String (ascii_of_nat 10) "".

(** [s.count(c)] for a one-character [c]. *)
Fixpoint count (c : ascii) (s : string) : Z :=
  match s with
  | EmptyString => 0
  | String a s' => (if Ascii.eqb a c then 1 else 0) + count c s'
  end.

(** [c in s] for a one-character [c]. *)
Fixpoint contains (c : ascii) (s : string) : bool :=
  match s with
  | EmptyString => false
  | String a s' => Ascii.eqb a c || contains c s'
  end.

(** [sep.join(ls)]. *)
Fixpoint join (sep : string) (ls : list string) : string :=
  match ls with
  | [] => ""
  | x :: xs =>
      match xs with
      | [] => x
      | _ :: _ => x +:+ sep +:+ join sep xs
      end
  end.

(** [s.startswith(p)]. *)
Definition startswith (s p : string) : bool := String.prefix p s.

(** [sub in s]: some suffix of [s] starts with [sub]. *)
Fixpoint has_substring (sub s : string) : bool :=
  String.prefix sub s ||
  match s with
  | EmptyString => false
  | String _ s' => has_substring sub s'
  end.

(** [s.endswith(p)]: some suffix of [s] is [p]. *)
Fixpoint endswith (s p : string) : bool :=
  String.eqb s p ||
  match s with
  | EmptyString => false
  | String _ s' => endswith s' p
  end.

(** [s.split(c)] for a one-character separator: never empty, one more
    field than there are separators. *)
Fixpoint split (c : ascii) (s : string) : list string :=
  match s with
  | EmptyString => [""]
  | String a s' =>
      if Ascii.eqb a c then "" :: split c s'
      else match split c s' with
           | [] => [String a ""]
           | w :: ws => String a w :: ws
           end
  end.

(** [str(n)] for an [int]. *)
Definition str_int (z : Z) : string := NilZero.string_of_int (Z.to_int z).

(** [str(n)] for a counter. *)
Definition str_nat (n : nat) : string := NilZero.string_of_uint (Nat.to_uint n).

(** [l[start:]], with Python's treatment of a negative start. *)
Definition slice_from {A} (l : list A) (start : Z) : list A :=
  if 0 <=? start then drop (Z.to_nat start) l
  else drop (length l - Z.to_nat (- start))%nat l.

(** [l[:n]] for a non-negative literal [n]. *)
Definition slice_to {A} (l : list A) (n : nat) : list A := take n l.

End PyStr.

(** ** Exceptions *)

(** The exceptions the modelled code can meet. All of them derive from
    Python's [Exception]. *)
Inductive py_exception : Type :=
| JavaSyntaxError        (* javalang.parser.JavaSyntaxError *)
| LexerError             (* any other failure of javalang.parse.parse *)
| UnicodeDecodeError     (* f.read() on bytes that are not UTF-8 *)
| OSError                (* open() on an unreadable file *)
| AttributeError         (* an attribute read on None *)
| CardinalityViolation   (* ON CONFLICT DO UPDATE hits one row twice *)
| InvalidRowCount.       (* LIMIT must not be negative *)

(** A computation that returns a value or raises. *)
Definition result (A : Type) : Type := py_exception + A.

Definition raise {A} (e : py_exception) : result A := inl e.

#[global] Instance result_ret : MRet result := fun A a => inr a.
#[global] Instance result_bind : MBind result := fun A B k c =>
  match c with
  | inl e => inl e
  | inr a => k a
  end.
#[global] Instance result_fmap : FMap result := fun A B f c =>
  match c with
  | inl e => inl e
  | inr a => inr (f a)
  end.

(** ** The syntax tree handed over by javalang *)

Module Ast.

(** A source position; javalang numbers lines from 1. *)
Record Position := { line : Z; column : Z }.

(** What [_get_nested_class_path] tells apart on the path from the root
    to a method: class declarations, class creators ([new T() { ... }],
    whose [body] is [None] or the list of member names), and everything
    else (interfaces, enums, statements, the lists between nodes). *)
Inductive node : Type :=
| ClassDeclaration (name : string)
| ClassCreator (body : option (list string)) (position : option Position)
| OtherNode.

(** A type node; [type_name] is its [name] attribute when it has one. *)
Record TypeNode := { type_name : option string }.

Record FormalParameter := { ptype : TypeNode; varargs : bool }.

Record MethodDeclaration := {
  name : string;
  parameters : list FormalParameter;
  position : option Position;
  modifiers : list string;       (* a set, in its iteration order *)
  return_type : option TypeNode;
  documentation : option string
}.

Record PackageDeclaration := { package_name : string }.
Record Import := { path : string }.

(** A compilation unit. [methods] is what
    [tree.filter(javalang.tree.MethodDeclaration)] yields: every method
    declaration with the path leading to it, in document order. *)
Record CompilationUnit := {
  package : option PackageDeclaration;
  imports : list Import;
  methods : list (list node * MethodDeclaration)
}.

End Ast.

(** ** The collaborators outside the repository *)

(** [hashlib.md5(s.encode()).hexdigest()]. *)
Class Digest := { md5_hexdigest : string -> string }.

(** The file system, [os.path] and the javalang parser. *)
Class Host := {
  os_path_exists : string -> bool;
  os_walk : string -> list (string * list string);  (* (root, files) *)
  os_path_join : string -> string -> string;
  os_path_relpath : string -> string -> string;
  os_sep : ascii;
  read_text : string -> result string;   (* open(p, 'r', encoding='utf-8').read() *)
  str_splitlines : string -> list string;
  javalang_parse : string -> result Ast.CompilationUnit
}.

(** ** The extractor ([extractor/parser.py]) *)

Module JavaExtractor.

(** The dictionary built for every method. *)
Record method_record := {
  id : string;
  content_hash : string;
  source : string;
  component : string;
  package : string;
  class_name : string;
  method_name : string;
  line_count : nat;
  visibility : string;
  return_type : string;
  method_code : string;
  javadoc_raw : string;
  internal_deps : string;
  external_libs : string
}.

(** [file_context] of [parse_file]. *)
Record file_context := {
  rel_path : string;
  package_name : string;
  imports : list string;
  ctx_component : string
}.

(** *** Helper methods *)

(** Truth value of [node.body]: [None] and the empty list are false. *)
Definition body_truthy (body : option (list string)) : bool :=
  match body with
  | Some (_ :: _) => true
  | _ => false
  end.

(** The list [parts] at the end of the loop of [_get_nested_class_path]. *)
Fixpoint class_path_parts (path : list Ast.node) : list string :=
  match path with
  | [] => []
  | Ast.ClassDeclaration name :: path' => name :: class_path_parts path'
  | Ast.ClassCreator body position :: path' =>
      if body_truthy body then
        let line :=
          match position with
          | Some pos => PyStr.str_int (Ast.line pos)
          | None => "unk"
          end in
        ("AnonL" +:+ line) :: class_path_parts path'
      else class_path_parts path'
  | Ast.OtherNode :: path' => class_path_parts path'
  end.

Definition get_nested_class_path (path : list Ast.node) : string :=
  match class_path_parts path with
  | [] => "Unknown"
  | parts => PyStr.join "$" parts
  end.

Definition param_type_name (p : Ast.FormalParameter) : string :=
  let t_name :=
    match Ast.type_name (Ast.ptype p) with
    | Some n => n
    | None => "unknown"
    end in
  if Ast.varargs p then t_name +:+ "..." else t_name.

Definition get_params_signature (node : Ast.MethodDeclaration) : string :=
  PyStr.join "," (map param_type_name (Ast.parameters node)).

Definition get_return_type (node : Ast.MethodDeclaration) : string :=
  match Ast.return_type node with
  | None => "void"
  | Some t =>
      match Ast.type_name t with
      | Some n => n
      | None => "unknown"
      end
  end.

Definition get_visibility (node : Ast.MethodDeclaration) : string :=
  let modifiers := ["public"; "private"; "protected"] in
  match filter (fun m => m ∈ modifiers) (Ast.modifiers node) with
  | m :: _ => m
  | [] => "package-private"
  end.

Definition dependency_prefix (package_name : string) : string :=
  let parts := PyStr.split "." package_name in
  if (1 <? length parts)%nat then PyStr.join "." (PyStr.slice_to parts 2)
  else hd "" parts.

Definition analyze_dependencies (package_name : string) (all_imports : list string)
  : list string * list string :=
  let prefix := dependency_prefix package_name in
  let internal := filter (fun i => PyStr.startswith i prefix = true) all_imports in
  let external := filter (fun i => PyStr.startswith i prefix ≠ true) all_imports in
  (internal, external).

(** The [for] loop of [_get_method_body]: [rest] is what is left of
    [lines[start_line:]], the other arguments are the loop's variables.
    The result is [body] when the loop ends, by [break] or by
    exhaustion. *)
Fixpoint body_loop (rest body : list string) (brace_count : Z) (started : bool)
  : list string :=
  match rest with
  | [] => body
  | line :: rest' =>
      let body := body ++ [line] in
      let brace_count :=
        brace_count + (PyStr.count "{" line - PyStr.count "}" line) in
      let started := if PyStr.contains "{" line then true else started in
      if started && (brace_count <=? 0) then body
      else body_loop rest' body brace_count started
  end.

Definition get_method_body (lines : list string) (start_line : Z) : string * nat :=
  let body := body_loop (PyStr.slice_from lines start_line) [] 0 false in
  (PyStr.join PyStr.NL body, length body).

(** *** Identity resolution *)

(** The [while] loop that resolves a collision, bounded by [fuel]
    iterations: [None] when the bound is reached. *)
Fixpoint resolve_loop (fuel : nat) (base_sig : string) (file_id_registry : gset string)
    (final_sig : string) (counter : nat) : option string :=
  match fuel with
  | O => None
  | S fuel' =>
      if bool_decide (final_sig ∈ file_id_registry) then
        resolve_loop fuel' base_sig file_id_registry
          (base_sig +:+ "#sub_" +:+ PyStr.str_nat counter) (S counter)
      else Some final_sig
  end.

(** The loop run from [final_sig = base_sig], [counter = 1]. One more
    iteration than the registry has members always suffices
    ([resolve_loop_terminates] below), so the fall-back is never taken. *)
Definition resolve_signature (base_sig : string) (file_id_registry : gset string)
  : string :=
  default base_sig
    (resolve_loop (S (size file_id_registry)) base_sig file_id_registry base_sig 1).

Definition base_signature (ctx : file_context) (path : list Ast.node)
    (node : Ast.MethodDeclaration) : string :=
  rel_path ctx +:+ "#" +:+ get_nested_class_path path +:+ "#" +:+ Ast.name node
    +:+ "(" +:+ get_params_signature node +:+ ")".

Section WithDigest.
Context `{Digest}.

(** One iteration of the loop of [_extract_methods_from_tree]: the
    record for [(path, node)] and the registry after it. Reading
    [node.position.line] raises when the position is [None]. *)
Definition extract_method (lines : list string) (ctx : file_context)
    (file_id_registry : gset string) (path : list Ast.node)
    (node : Ast.MethodDeclaration) : result (method_record * gset string) :=
  let class_path := get_nested_class_path path in
  let params_sig := get_params_signature node in
  let base_sig := base_signature ctx path node in
  let final_sig := resolve_signature base_sig file_id_registry in
  let file_id_registry := {[ final_sig ]} ∪ file_id_registry in
  let method_id := md5_hexdigest final_sig in
  pos ← match Ast.position node with
        | Some pos => mret pos
        | None => raise AttributeError
        end;
  let '(method_code, line_count) := get_method_body lines (Ast.line pos - 1) in
  let content_hash := md5_hexdigest method_code in
  let '(internal, external) :=
    analyze_dependencies (package_name ctx) (imports ctx) in
  mret ({| id := method_id;
           content_hash := content_hash;
           source := rel_path ctx;
           component := ctx_component ctx;
           package := package_name ctx;
           class_name := class_path;
           method_name := Ast.name node;
           line_count := line_count;
           visibility := get_visibility node;
           return_type := get_return_type node;
           method_code := method_code;
           javadoc_raw := default "" (Ast.documentation node);
           internal_deps := PyStr.join ", " (PyStr.slice_to internal 10);
           external_libs := PyStr.join ", " (PyStr.slice_to external 10) |},
        file_id_registry).

(** The loop over [tree.filter(MethodDeclaration)], threading the
    registry and the list of records built so far. *)
Fixpoint extract_loop (todo : list (list Ast.node * Ast.MethodDeclaration))
    (lines : list string) (ctx : file_context)
    (file_id_registry : gset string) (extracted_methods : list method_record)
  : result (list method_record) :=
  match todo with
  | [] => mret extracted_methods
  | (path, node) :: todo' =>
      '(m, file_id_registry) ← extract_method lines ctx file_id_registry path node;
      extract_loop todo' lines ctx file_id_registry (extracted_methods ++ [m])
  end.

Definition extract_methods_from_tree (tree : Ast.CompilationUnit)
    (lines : list string) (ctx : file_context) : result (list method_record) :=
  extract_loop (Ast.methods tree) lines ctx ∅ [].

Context `{Host}.

(** The dictionary [file_context] of [parse_file]. *)
Definition build_file_context (tree : Ast.CompilationUnit) (rel_path : string)
  : file_context :=
  {| rel_path := rel_path;
     package_name :=
       match Ast.package tree with
       | Some p => Ast.package_name p
       | None => "default"
       end;
     imports := map Ast.path (Ast.imports tree);
     ctx_component := hd "" (PyStr.split os_sep rel_path) |}.

(** [parse_file]: the inner [try] catches what the parser raises, the
    outer one everything else; both return the empty list. *)
Definition parse_file (file_path repo_root : string) : list method_record :=
  match read_text file_path with
  | inl _ => []
  | inr code =>
      match javalang_parse code with
      | inl JavaSyntaxError => []
      | inl _ => []
      | inr tree =>
          let rel_path := os_path_relpath file_path repo_root in
          let lines := str_splitlines code in
          let file_context := build_file_context tree rel_path in
          match extract_methods_from_tree tree lines file_context with
          | inl _ => []
          | inr extracted => extracted
          end
      end
  end.

(** The test on a file name in [extract_from_directory]. *)
Definition is_java_source (file : string) : bool :=
  PyStr.endswith file ".java" && negb (PyStr.has_substring "module-info.java" file).

(** The inner loop of [extract_from_directory], over the files of one
    directory. *)
Fixpoint scan_files (root directory : string) (files : list string)
    (all_methods : list method_record) : list method_record :=
  match files with
  | [] => all_methods
  | file :: files' =>
      if is_java_source file then
        let file_path := os_path_join root file in
        let methods := parse_file file_path directory in
        scan_files root directory files' (all_methods ++ methods)
      else scan_files root directory files' all_methods
  end.

(** The outer loop, over what [os.walk] yields. *)
Fixpoint scan_walk (directory : string) (walk : list (string * list string))
    (all_methods : list method_record) : list method_record :=
  match walk with
  | [] => all_methods
  | (root, files) :: walk' =>
      scan_walk directory walk' (scan_files root directory files all_methods)
  end.

Definition extract_from_directory (directory : string) : list method_record :=
  if negb (os_path_exists directory) then []
  else scan_walk directory (os_walk directory) [].

End WithDigest.

End JavaExtractor.

(** ** The record store ([datastore/rawdatastore/postgresManager.py]) *)

Module PostgresDatastore.

Import JavaExtractor.

(** A [jsonb] value. An object is the list of its members as written;
    the last member with a given key is the one that counts. *)
Inductive json : Type :=
| JNull
| JBool (b : bool)
| JNumber (q : Q)
| JString (s : string)
| JArray (items : list json)
| JObject (members : list (string * json)).

(** The value an object gives a key. *)
Fixpoint json_member (key : string) (members : list (string * json)) : option json :=
  match members with
  | [] => None
  | (k, v) :: members' =>
      match json_member key members' with
      | Some v' => Some v'
      | None => if String.eqb k key then Some v else None
      end
  end.

(** [j @> '{"key": b}'] for a boolean [b]: [j] is an object that gives
    [key] the value [b]. *)
Definition jsonb_contains_flag (j : json) (key : string) (b : bool) : bool :=
  match j with
  | JObject members =>
      match json_member key members with
      | Some (JBool b') => Bool.eqb b' b
      | _ => false
      end
  | _ => false
  end.

(** A row of [java_methods]. The table's DDL is not part of the
    sources: the columns are those the queries name; the columns that
    only the enrichment writes are nullable. *)
Record row := {
  id : string;
  source_path : string;
  component : string;
  package_name : string;
  class_name : string;
  method_name : string;
  visibility : string;
  return_type : string;
  method_code : string;
  javadoc_raw : string;
  internal_deps : string;
  external_libs : string;
  content_hash : string;
  line_count : nat;
  status : string;
  vector_status : string;
  last_seen_at : Z;
  ai_summary : option string;
  ai_details : option string;
  is_doc_accurate : option bool;
  metadata_json : option json;
  summary_tokens : Z;
  vector_tokens : Z;
  total_cost : Q;
  processed_at : option Z
}.

(** What the DDL gives the columns an [INSERT] of [upsert_methods] does
    not list. *)
Record column_defaults := {
  default_ai_summary : option string;
  default_ai_details : option string;
  default_is_doc_accurate : option bool;
  default_metadata_json : option json;
  default_summary_tokens : Z;
  default_vector_tokens : Z;
  default_total_cost : Q;
  default_processed_at : option Z
}.

(** The connection: the committed table and the number of statements
    sent through [cur.execute] so far. *)
Record connection := {
  java_methods : gmap string row;
  statements : nat
}.

(** *** [upsert_methods] *)

(** The tuple built for one method, with the literals ['new'],
    ['pending'] and [current_now]. *)
Record values_tuple := {
  v_method : method_record;
  v_status : string;
  v_vector_status : string;
  v_last_seen_at : Z
}.

Definition upsert_data (current_now : Z) (methods : list method_record)
  : list values_tuple :=
  map (fun m => {| v_method := m; v_status := "new";
                   v_vector_status := "pending";
                   v_last_seen_at := current_now |}) methods.

(** The row an [INSERT] without conflict creates. *)
Definition inserted_row (d : column_defaults) (v : values_tuple) : row :=
  let m := v_method v in
  {| id := JavaExtractor.id m;
     source_path := JavaExtractor.source m;
     component := JavaExtractor.component m;
     package_name := JavaExtractor.package m;
     class_name := JavaExtractor.class_name m;
     method_name := JavaExtractor.method_name m;
     visibility := JavaExtractor.visibility m;
     return_type := JavaExtractor.return_type m;
     method_code := JavaExtractor.method_code m;
     javadoc_raw := JavaExtractor.javadoc_raw m;
     internal_deps := JavaExtractor.internal_deps m;
     external_libs := JavaExtractor.external_libs m;
     content_hash := JavaExtractor.content_hash m;
     line_count := JavaExtractor.line_count m;
     status := v_status v;
     vector_status := v_vector_status v;
     last_seen_at := v_last_seen_at v;
     ai_summary := default_ai_summary d;
     ai_details := default_ai_details d;
     is_doc_accurate := default_is_doc_accurate d;
     metadata_json := default_metadata_json d;
     summary_tokens := default_summary_tokens d;
     vector_tokens := default_vector_tokens d;
     total_cost := default_total_cost d;
     processed_at := default_processed_at d |}.

(** [ON CONFLICT (id) DO UPDATE SET ...]: [old] is the row in the table
    ([java_methods.c]), [excluded] the row proposed for insertion
    ([EXCLUDED.c]). Columns the [SET] list does not name keep the value
    of [old]. *)
Definition conflict_update (old excluded : row) : row :=
  {| id := id old;
     source_path := source_path old;
     component := component old;
     package_name := package_name old;
     class_name := class_name old;
     method_name := method_name old;
     visibility := visibility old;
     return_type := return_type old;
     method_code := method_code excluded;
     javadoc_raw := javadoc_raw excluded;
     internal_deps := internal_deps excluded;
     external_libs := external_libs excluded;
     content_hash := content_hash excluded;
     line_count := line_count excluded;
     status :=
       if negb (String.eqb (content_hash old) (content_hash excluded))
       then "updated" else status old;
     vector_status :=
       if negb (String.eqb (content_hash old) (content_hash excluded))
       then "pending" else vector_status old;
     last_seen_at := last_seen_at excluded;
     ai_summary := ai_summary old;
     ai_details := ai_details old;
     is_doc_accurate := is_doc_accurate old;
     metadata_json := metadata_json old;
     summary_tokens := summary_tokens old;
     vector_tokens := vector_tokens old;
     total_cost := total_cost old;
     processed_at := processed_at old |}.

(** The effect of one proposed row on the table. *)
Definition upsert_row (d : column_defaults) (table : gmap string row)
    (v : values_tuple) : gmap string row :=
  let excluded := inserted_row d v in
  match table !! id excluded with
  | None => <[ id excluded := excluded ]> table
  | Some old => <[ id excluded := conflict_update old excluded ]> table
  end.

(** One [INSERT ... ON CONFLICT DO UPDATE] statement over a page of
    tuples. PostgreSQL refuses a statement that proposes the same [id]
    twice. *)
Definition upsert_statement (d : column_defaults) (page : list values_tuple)
    (table : gmap string row) : result (gmap string row) :=
  if bool_decide (NoDup (map (fun v => JavaExtractor.id (v_method v)) page))
  then mret (foldl (upsert_row d) table page)
  else raise CardinalityViolation.

(** [psycopg2.extras.execute_values]: the argument list is cut into
    pages of [page_size] tuples (100 unless said otherwise), one
    statement per page. [fuel] bounds the number of pages; the length of
    the list is enough. *)
Fixpoint paginate {A} (fuel : nat) (page_size : nat) (args : list A) : list (list A) :=
  match fuel, args with
  | _, [] => []
  | O, _ => []
  | S fuel', _ => take page_size args :: paginate fuel' page_size (drop page_size args)
  end.

Definition page_size : nat := 100.

Definition pages {A} (args : list A) : list (list A) :=
  paginate (length args) page_size args.

(** The statements of one [execute_values] call, inside the open
    transaction: [run] is the effect of one statement. *)
Fixpoint execute_pages {A} (run : list A -> gmap string row -> result (gmap string row))
    (ps : list (list A)) (table : gmap string row) (sent : nat)
  : result (gmap string row * nat) :=
  match ps with
  | [] => mret (table, sent)
  | p :: ps' =>
      table' ← run p table;
      execute_pages run ps' table' (S sent)
  end.

(** [upsert_methods]: the statements run in one transaction, committed
    at the end; an exception leaves the method before the commit. *)
Definition upsert_methods (d : column_defaults) (current_now : Z)
    (methods : list method_record) (conn : connection) : result connection :=
  let data := upsert_data current_now methods in
  '(table, sent) ← execute_pages (upsert_statement d) (pages data)
                      (java_methods conn) (statements conn);
  mret {| java_methods := table; statements := sent |}.

(** *** [update_vector_sync_status] and [bulk_update_vector_sync] *)

(** The [SET] list shared by the two vector-sync updates:
    [vector_status = 'synced', vector_tokens = tokens,
     total_cost = total_cost + cost]. *)
Definition set_vector_synced (tokens : Z) (cost : Q) (r : row) : row :=
  {| id := id r;
     source_path := source_path r;
     component := component r;
     package_name := package_name r;
     class_name := class_name r;
     method_name := method_name r;
     visibility := visibility r;
     return_type := return_type r;
     method_code := method_code r;
     javadoc_raw := javadoc_raw r;
     internal_deps := internal_deps r;
     external_libs := external_libs r;
     content_hash := content_hash r;
     line_count := line_count r;
     status := status r;
     vector_status := "synced";
     last_seen_at := last_seen_at r;
     ai_summary := ai_summary r;
     ai_details := ai_details r;
     is_doc_accurate := is_doc_accurate r;
     metadata_json := metadata_json r;
     summary_tokens := summary_tokens r;
     vector_tokens := tokens;
     total_cost := (total_cost r + cost)%Q;
     processed_at := processed_at r |}.

(** [UPDATE ... WHERE id = method_id]: one statement, then the commit. *)
Definition update_vector_sync_status (method_id : string) (tokens : Z) (cost : Q)
    (conn : connection) : connection :=
  {| java_methods :=
       match java_methods conn !! method_id with
       | Some r => <[ method_id := set_vector_synced tokens cost r ]> (java_methods conn)
       | None => java_methods conn
       end;
     statements := S (statements conn) |}.

(** The first tuple of a page whose [id] is the given key. When several
    tuples of one statement name the same row, PostgreSQL updates the row
    once, from one of them; the model takes the first. *)
Fixpoint find_usage (key : string) (page : list (string * Z * Q)) : option (Z * Q) :=
  match page with
  | [] => None
  | (k, tokens, cost) :: page' =>
      if String.eqb k key then Some (tokens, cost) else find_usage key page'
  end.

(** [UPDATE java_methods AS m SET ... FROM (VALUES ...) AS v WHERE m.id = v.id]
    over one page: every row joined with a tuple is updated once. *)
Definition bulk_statement (page : list (string * Z * Q)) (table : gmap string row)
  : result (gmap string row) :=
  mret (map_imap (fun key r =>
          match find_usage key page with
          | Some (tokens, cost) => Some (set_vector_synced tokens cost r)
          | None => Some r
          end) table).

(** [bulk_update_vector_sync]: nothing is sent for an empty list; an
    exception rolls the transaction back. *)
Definition bulk_update_vector_sync (update_data : list (string * Z * Q))
    (conn : connection) : connection :=
  match update_data with
  | [] => conn
  | _ :: _ =>
      match execute_pages bulk_statement (pages update_data)
              (java_methods conn) (statements conn) with
      | inr (table, sent) => {| java_methods := table; statements := sent |}
      | inl _ => conn
      end
  end.

(** *** [get_methods_to_vectorize] *)

(** The [WHERE] clause. A [NULL] payload makes the third conjunct
    [NULL], which does not select the row. *)
Definition to_vectorize (r : row) : bool :=
  String.eqb (vector_status r) "pending"
  && String.eqb (status r) "ai_processed"
  && match metadata_json r with
     | Some j => negb (jsonb_contains_flag j "is_getter_setter" true)
     | None => false
     end.

(** The columns of the [SELECT] list. *)
Definition vectorize_columns (r : row)
  : string * string * string * string * option string * option json * string :=
  (id r, method_name r, class_name r, return_type r, ai_summary r,
   metadata_json r, source_path r).

(** The rows of the table in the order a sequential scan meets them. *)
Definition table_rows (table : gmap string row) : list row :=
  map snd (map_to_list table).

Definition get_methods_to_vectorize (limit : Z) (conn : connection)
  : result (list (string * string * string * string * option string
                  * option json * string) * connection) :=
  if limit <? 0 then raise InvalidRowCount
  else
    mret (map vectorize_columns
            (take (Z.to_nat limit) (filter (fun r => to_vectorize r = true)
                                      (table_rows (java_methods conn)))),
          {| java_methods := java_methods conn;
             statements := S (statements conn) |}).

(** *** [get_stale_methods] *)

(** [s LIKE p] with PostgreSQL's default escape character: [%] matches
    any run of characters, [_] any one character, a backslash makes the
    next character stand for itself. A pattern that ends in a lone
    backslash is an error in PostgreSQL; it matches nothing here, and no
    pattern of [get_stale_methods] is of that shape since all end in
    [%]. *)
Fixpoint like (p : string) : string -> bool :=
  match p with
  | EmptyString => fun s => match s with EmptyString => true | _ => false end
  | String c p' =>
      if Ascii.eqb c "%" then
        fix any (s : string) : bool :=
          like p' s ||
          match s with
          | EmptyString => false
          | String _ s' => any s'
          end
      else if Ascii.eqb c "_" then
        fun s => match s with
                 | EmptyString => false
                 | String _ s' => like p' s'
                 end
      else if Ascii.eqb c "\" then
        match p' with
        | EmptyString => fun _ => false
        | String e p'' =>
            fun s => match s with
                     | EmptyString => false
                     | String a s' => Ascii.eqb a e && like p'' s'
                     end
        end
      else
        fun s => match s with
                 | EmptyString => false
                 | String a s' => Ascii.eqb a c && like p' s'
                 end
  end.

(** The [WHERE] clause of [get_stale_methods]. *)
Definition is_stale (repo_path_prefix : string) (scan_start_time : Z) (r : row) : bool :=
  like (repo_path_prefix +:+ "%") (source_path r)
  && (last_seen_at r <? scan_start_time).

Definition get_stale_methods (repo_path_prefix : string) (scan_start_time : Z)
    (conn : connection) : list string * connection :=
  (map id (filter (fun r => is_stale repo_path_prefix scan_start_time r = true)
             (table_rows (java_methods conn))),
   {| java_methods := java_methods conn; statements := S (statements conn) |}).

(** *** [update_ai_enrichment] *)

(** The [SET] list of [update_ai_enrichment]; [metadata] is the value
    [json.dumps(metadata_dict)] denotes, [processed] is
    [datetime.now()]. *)
Definition set_ai_enrichment (summary details : string) (is_accurate : bool)
    (metadata : json) (tokens : Z) (cost : Q) (processed : Z) (r : row) : row :=
  {| id := id r;
     source_path := source_path r;
     component := component r;
     package_name := package_name r;
     class_name := class_name r;
     method_name := method_name r;
     visibility := visibility r;
     return_type := return_type r;
     method_code := method_code r;
     javadoc_raw := javadoc_raw r;
     internal_deps := internal_deps r;
     external_libs := external_libs r;
     content_hash := content_hash r;
     line_count := line_count r;
     status := "ai_processed";
     vector_status := vector_status r;
     last_seen_at := last_seen_at r;
     ai_summary := Some summary;
     ai_details := Some details;
     is_doc_accurate := Some is_accurate;
     metadata_json := Some metadata;
     summary_tokens := tokens;
     vector_tokens := vector_tokens r;
     total_cost := (total_cost r + cost)%Q;
     processed_at := Some processed |}.

Definition update_ai_enrichment (method_id summary details : string)
    (is_accurate : bool) (metadata : json) (tokens : Z) (cost : Q)
    (processed : Z) (conn : connection) : connection :=
  {| java_methods :=
       match java_methods conn !! method_id with
       | Some r =>
           <[ method_id := set_ai_enrichment summary details is_accurate
                             metadata tokens cost processed r ]>
             (java_methods conn)
       | None => java_methods conn
       end;
     statements := S (statements conn) |}.

(** *** [update_vector_sync_status_batch] *)

(** [SET vector_status = status]. *)
Definition set_vector_status (new_status : string) (r : row) : row :=
  {| id := id r;
     source_path := source_path r;
     component := component r;
     package_name := package_name r;
     class_name := class_name r;
     method_name := method_name r;
     visibility := visibility r;
     return_type := return_type r;
     method_code := method_code r;
     javadoc_raw := javadoc_raw r;
     internal_deps := internal_deps r;
     external_libs := external_libs r;
     content_hash := content_hash r;
     line_count := line_count r;
     status := status r;
     vector_status := new_status;
     last_seen_at := last_seen_at r;
     ai_summary := ai_summary r;
     ai_details := ai_details r;
     is_doc_accurate := is_doc_accurate r;
     metadata_json := metadata_json r;
     summary_tokens := summary_tokens r;
     vector_tokens := vector_tokens r;
     total_cost := total_cost r;
     processed_at := processed_at r |}.

(** Nothing is sent for an empty list; otherwise one
    [UPDATE ... WHERE id = ANY(method_ids)]. *)
Definition update_vector_sync_status_batch (method_ids : list string)
    (new_status : string) (conn : connection) : connection :=
  match method_ids with
  | [] => conn
  | _ :: _ =>
      {| java_methods :=
           map_imap (fun key r =>
                       if bool_decide (key ∈ method_ids)
                       then Some (set_vector_status new_status r)
                       else Some r) (java_methods conn);
         statements := S (statements conn) |}
  end.

(** *** [get_methods_to_analyze] *)

(** [WHERE status IN ('new', 'updated')]. *)
Definition to_analyze (r : row) : bool :=
  String.eqb (status r) "new" || String.eqb (status r) "updated".

(** [ORDER BY line_count DESC]: [r1] may come before [r2]. *)
Definition longer_first (r1 r2 : row) : Prop :=
  (line_count r2 <= line_count r1)%nat.

#[global] Instance longer_first_dec : RelDecision longer_first.
Proof. intros r1 r2. unfold longer_first. apply _. Defined.

(** The columns of the [SELECT] list. *)
Definition analyze_columns (r : row)
  : string * string * string * string * string * string * string :=
  (id r, method_name r, class_name r, visibility r, return_type r,
   method_code r, javadoc_raw r).

(** The selected rows in the order of the [ORDER BY] clause, which SQL
    leaves open among rows of one [line_count]. *)
Definition rows_to_analyze (limit : Z) (table : gmap string row) : list row :=
  take (Z.to_nat limit)
    (merge_sort longer_first
       (filter (fun r => to_analyze r = true) (table_rows table))).

Definition get_methods_to_analyze (limit : Z) (conn : connection)
  : result (list (string * string * string * string * string * string * string)
            * connection) :=
  if limit <? 0 then raise InvalidRowCount
  else
    mret (map analyze_columns (rows_to_analyze limit (java_methods conn)),
          {| java_methods := java_methods conn;
             statements := S (statements conn) |}).

(** *** [delete_methods_by_id] *)

(** Nothing is sent for an empty list; otherwise one
    [DELETE ... WHERE id = ANY(method_ids)]. *)
Definition delete_methods_by_id (method_ids : list string) (conn : connection)
  : connection :=
  match method_ids with
  | [] => conn
  | _ :: _ =>
      {| java_methods :=
           filter (fun kr => kr.1 ∉ method_ids) (java_methods conn);
         statements := S (statements conn) |}
  end.

End PostgresDatastore.

(** ** The import pipeline ([orchestrators/importProjects.py]) *)

Module ImportProjects.

Import JavaExtractor PostgresDatastore.

Definition BATCH_SIZE : nat := 50.

(** [range(0, stop, step)] for a positive [step]. *)
Definition range_step (stop step : nat) : list nat :=
  map (fun k => (k * step)%nat) (seq 0 ((stop + step - 1) / step)).

(** [all_methods[i : i + BATCH_SIZE]]. *)
Definition batch_at (all_methods : list method_record) (i : nat)
  : list method_record :=
  take BATCH_SIZE (drop i all_methods).

(** The batches the loop of [run_extraction_pipeline] upserts, in
    order. *)
Definition batches (all_methods : list method_record)
  : list (list method_record) :=
  map (batch_at all_methods) (range_step (length all_methods) BATCH_SIZE).

(** The loop over the batches. [now_at n] is what [datetime.now()]
    gives in the [n]-th call of [upsert_methods]. An exception leaves
    the loop for the [except] clause: the batches committed so far
    stay, the others are not sent. The result is the state of the store
    when the connection is closed, and whether the loop ran to its
    end. *)
Fixpoint upsert_batches (d : column_defaults) (now_at : nat -> Z) (n : nat)
    (todo : list (list method_record)) (conn : connection) : connection * bool :=
  match todo with
  | [] => (conn, true)
  | batch :: todo' =>
      match upsert_methods d (now_at n) batch conn with
      | inr conn' => upsert_batches d now_at (S n) todo' conn'
      | inl _ => (conn, false)
      end
  end.

Section WithHost.
Context `{Digest} `{Host}.

Definition run_extraction_pipeline (d : column_defaults) (now_at : nat -> Z)
    (source_dir : string) (conn : connection) : connection * bool :=
  let all_methods := extract_from_directory source_dir in
  upsert_batches d now_at 0 (batches all_methods) conn.

End WithHost.

End ImportProjects.

(** ** Vocabulary of the properties *)

Module BraceBalance.

(** Opening minus closing braces of one line. *)
Definition net (line : string) : Z :=
  PyStr.count "{" line - PyStr.count "}" line.

(** The running balance after the lines [ls]. *)
Definition balance (ls : list string) : Z :=
  foldr (fun line acc => net line + acc) 0 ls.

(** Some line of [ls] holds an opening brace. *)
Definition opened (ls : list string) : bool :=
  existsb (PyStr.contains "{") ls.

(** The stop condition once the lines [ls] have been taken. *)
Definition stops (ls : list string) : bool :=
  opened ls && (balance ls <=? 0).

End BraceBalance.

Module Identity.

Import JavaExtractor.

(** The signatures the resolver tries, in order: the base key, then the
    base key with [#sub_1], [#sub_2], ... *)
Definition candidate (base_sig : string) (k : nat) : string :=
  match k with
  | O => base_sig
  | S _ => base_sig +:+ "#sub_" +:+ PyStr.str_nat k
  end.

(** The signatures registered, in order, while the loop of
    [_extract_methods_from_tree] runs over [todo] from the registry
    [file_id_registry]. *)
Fixpoint issued (ctx : file_context) (file_id_registry : gset string)
    (todo : list (list Ast.node * Ast.MethodDeclaration)) : list string :=
  match todo with
  | [] => []
  | (path, node) :: todo' =>
      let final_sig :=
        resolve_signature (base_signature ctx path node) file_id_registry in
      final_sig :: issued ctx ({[ final_sig ]} ∪ file_id_registry) todo'
  end.

(** How many of the methods [todo] have the base key [base_sig]. *)
Definition with_base_key (ctx : file_context) (base_sig : string)
    (todo : list (list Ast.node * Ast.MethodDeclaration)) : nat :=
  length (filter (fun pm => base_signature ctx pm.1 pm.2 = base_sig) todo).

(** The registry holds, for every base key, the signatures numbered
    below the count of the methods [seen] with that key. *)
Definition counts_seen (ctx : file_context) (reg : gset string)
    (seen : list (list Ast.node * Ast.MethodDeclaration)) : Prop :=
  forall path node k,
    candidate (base_signature ctx path node) k ∈ reg
    <-> (k < with_base_key ctx (base_signature ctx path node) seen)%nat.

(** The prefix of a string up to and with the last occurrence of [c];
    [None] when [c] does not occur. *)
Fixpoint upto_last (c : ascii) (s : string) : option string :=
  match s with
  | EmptyString => None
  | String a s' =>
      match upto_last c s' with
      | Some p => Some (String a p)
      | None => if Ascii.eqb a c then Some (String a "") else None
      end
  end.

(** What of a method declaration and its path enters the identity and
    the fingerprint: the enclosing path, the name, the parameter types
    and the line of the declaration. *)
Definition identity_inputs (pm : list Ast.node * Ast.MethodDeclaration)
  : string * string * string * option Z :=
  (get_nested_class_path pm.1, Ast.name pm.2, get_params_signature pm.2,
   Ast.line <$> Ast.position pm.2).



(** Two dotted names have the same first two segments. *)
Definition shares_two_segments (import_path package_name : string) : Prop :=
  take 2 (PyStr.split "." import_path) = take 2 (PyStr.split "." package_name).

(** The modifiers [_get_visibility] looks for. *)
Definition visibility_modifiers : list string := ["public"; "private"; "protected"].

(** The part of a string before its first [#], the whole string when
    it has none. *)
Fixpoint until_hash (s : string) : string :=
  match s with
  | EmptyString => ""
  | String c s' => if Ascii.eqb c "#" then "" else String c (until_hash s')
  end.

(** The identity and the fingerprint of a record. *)
Definition identity_of (m : method_record) : string * string :=
  (id m, content_hash m).

End Identity.

Module Reconciliation.

Import PostgresDatastore.

(** The key a proposed tuple is reconciled under. *)
Definition key_of (v : values_tuple) : string := JavaExtractor.id (v_method v).

(** The row a tuple leaves in the table, given the row it met. *)
Definition reconciled (d : column_defaults) (before : option row) (v : values_tuple)
  : row :=
  match before with
  | None => inserted_row d v
  | Some old => conflict_update old (inserted_row d v)
  end.

(** The characters [LIKE] gives a meaning to. *)
Definition like_special (c : ascii) : bool :=
  Ascii.eqb c "%" || Ascii.eqb c "_" || Ascii.eqb c "\".

(** No character of the string is special to [LIKE]. *)
Fixpoint like_literal (p : string) : bool :=
  match p with
  | EmptyString => true
  | String c p' => negb (like_special c) && like_literal p'
  end.

End Reconciliation.

Module Scan.

Import JavaExtractor.

Section WithHost.
Context `{Digest} `{Host}.

(** What one file contributes to the scan. *)
Definition contribution (directory root file : string) : list method_record :=
  if is_java_source file then parse_file (os_path_join root file) directory
  else [].

End WithHost.

End Scan.

Module StoreInvariants.

Import PostgresDatastore.

(** Every row is stored under its own [id], the primary key. *)
Definition keyed (table : gmap string row) : Prop :=
  forall k r, table !! k = Some r -> id r = k.

(** The identities of a usage list. *)
Definition usage_ids (update_data : list (string * Z * Q)) : list string :=
  map (fun u => u.1.1) update_data.

(** The row [r] with [last_seen_at] set to [t]. *)
Definition seen_at (t : Z) (r : row) : row :=
  {| id := id r;
     source_path := source_path r;
     component := component r;
     package_name := package_name r;
     class_name := class_name r;
     method_name := method_name r;
     visibility := visibility r;
     return_type := return_type r;
     method_code := method_code r;
     javadoc_raw := javadoc_raw r;
     internal_deps := internal_deps r;
     external_libs := external_libs r;
     content_hash := content_hash r;
     line_count := line_count r;
     status := status r;
     vector_status := vector_status r;
     last_seen_at := t;
     ai_summary := ai_summary r;
     ai_details := ai_details r;
     is_doc_accurate := is_doc_accurate r;
     metadata_json := metadata_json r;
     summary_tokens := summary_tokens r;
     vector_tokens := vector_tokens r;
     total_cost := total_cost r;
     processed_at := processed_at r |}.

(** The two progress markers of a row. *)
Definition progress (r : row) : string * string := (status r, vector_status r).

(** The tuple [upsert_methods] proposes for a record. *)
Definition proposed (current_now : Z) (m : JavaExtractor.method_record)
  : values_tuple :=
  {| v_method := m; v_status := "new"; v_vector_status := "pending";
     v_last_seen_at := current_now |}.

(** The first column of a returned tuple of seven, the [id]. *)
Definition first_column {A B C D E F G} (t : A * B * C * D * E * F * G) : A :=
  t.1.1.1.1.1.1.

End StoreInvariants.

(** ** Concrete inputs for the examples *)

Module Fixtures.

Import JavaExtractor.

(** A digest that is the signature itself: injective, so identities
    collide only where signatures do. *)
Definition transparent_digest : Digest := {| md5_hexdigest := fun s => s |}.

(** [interface A { void run(); }  interface B { void run(); }] in one
    file: neither [run] has an enclosing class. *)
Definition two_interfaces_lines : list string :=
  ["interface A {"; "  void run();"; "}";
   "interface B {"; "  void run();"; "}"].

Definition run_at (line : Z) : list Ast.node * Ast.MethodDeclaration :=
  ([Ast.OtherNode; Ast.OtherNode],
   {| Ast.name := "run";
      Ast.parameters := [];
      Ast.position := Some {| Ast.line := line; Ast.column := 3 |};
      Ast.modifiers := [];
      Ast.return_type := None;
      Ast.documentation := None |}).

Definition stop_at (line : Z) : list Ast.node * Ast.MethodDeclaration :=
  ([Ast.OtherNode; Ast.OtherNode],
   {| Ast.name := "stop";
      Ast.parameters := [];
      Ast.position := Some {| Ast.line := line; Ast.column := 3 |};
      Ast.modifiers := [];
      Ast.return_type := None;
      Ast.documentation := None |}).

Definition two_interfaces_tree : Ast.CompilationUnit :=
  {| Ast.package := Some {| Ast.package_name := "com.foo.app" |};
     Ast.imports := [ {| Ast.path := "com.foo.util.Strings" |};
                      {| Ast.path := "com.foobar.Baz" |};
                      {| Ast.path := "java.util.List" |} ];
     Ast.methods := [run_at 2; run_at 5] |}.

Definition two_interfaces_ctx : file_context :=
  {| rel_path := "app/Two.java";
     package_name := "com.foo.app";
     imports := ["com.foo.util.Strings"; "com.foobar.Baz"; "java.util.List"];
     ctx_component := "app" |}.

(** The same file read with another package line and other imports,
    and with modifiers, return types and documentation on the methods:
    the identity inputs are unchanged. *)
Definition documented_run_at (line : Z) : list Ast.node * Ast.MethodDeclaration :=
  ([Ast.OtherNode; Ast.OtherNode],
   {| Ast.name := "run";
      Ast.parameters := [];
      Ast.position := Some {| Ast.line := line; Ast.column := 10 |};
      Ast.modifiers := ["public"; "abstract"];
      Ast.return_type := Some {| Ast.type_name := Some "int" |};
      Ast.documentation := Some "/** Runs. */" |}).

Definition two_interfaces_tree' : Ast.CompilationUnit :=
  {| Ast.package := None;
     Ast.imports := [];
     Ast.methods := [documented_run_at 2; documented_run_at 5] |}.

Definition two_interfaces_ctx' : file_context :=
  {| rel_path := "app/Two.java";
     package_name := "default";
     imports := [];
     ctx_component := "other" |}.

(** A repository of four files: one that parses, one that the parser
    refuses, a module descriptor and a text file. Nothing else can be
    read. *)
Definition two_interfaces_code : string :=
  PyStr.join PyStr.NL two_interfaces_lines.

Definition small_repository : Host :=
  {| os_path_exists := fun p => String.eqb p "repo";
     os_walk := fun _ =>
       [("repo/app", ["Broken.java"; "Two.java"; "module-info.java"; "README.md"])];
     os_path_join := fun a b => a +:+ "/" +:+ b;
     os_path_relpath := fun p _ => String.substring 5 (String.length p - 5) p;
     os_sep := "/";
     read_text := fun p =>
       if String.eqb p "repo/app/Two.java" then inr two_interfaces_code
       else if String.eqb p "repo/app/Broken.java" then inr "class {"
       else inl OSError;
     str_splitlines := PyStr.split (ascii_of_nat 10);
     javalang_parse := fun code =>
       if String.eqb code two_interfaces_code then inr two_interfaces_tree
       else inl JavaSyntaxError |}.

(** A second scan of the file after the body of the first [run]
    changed: the records to reconcile. *)
Definition scanned (method_id code_hash : string) : method_record :=
  {| id := method_id;
     content_hash := code_hash;
     source := "app/Two.java";
     component := "app";
     package := "com.foo.app";
     class_name := "Unknown";
     method_name := "run";
     line_count := 3;
     visibility := "public";
     return_type := "void";
     method_code := "void run() {}";
     javadoc_raw := "";
     internal_deps := "";
     external_libs := "" |}.

Definition defaults : PostgresDatastore.column_defaults :=
  {| PostgresDatastore.default_ai_summary := None;
     PostgresDatastore.default_ai_details := None;
     PostgresDatastore.default_is_doc_accurate := None;
     PostgresDatastore.default_metadata_json := None;
     PostgresDatastore.default_summary_tokens := 0;
     PostgresDatastore.default_vector_tokens := 0;
     PostgresDatastore.default_total_cost := 0%Q;
     PostgresDatastore.default_processed_at := None |}.

(** A stored row: what matters to the queries is given, the rest is
    fixed. *)
Definition stored (method_id source_path code_hash status vector_status : string)
    (last_seen_at : Z) (metadata : option PostgresDatastore.json)
    (vector_tokens : Z) (total_cost : Q) : PostgresDatastore.row :=
  {| PostgresDatastore.id := method_id;
     PostgresDatastore.source_path := source_path;
     PostgresDatastore.component := "app";
     PostgresDatastore.package_name := "com.foo.app";
     PostgresDatastore.class_name := "Unknown";
     PostgresDatastore.method_name := "run";
     PostgresDatastore.visibility := "public";
     PostgresDatastore.return_type := "void";
     PostgresDatastore.method_code := "void run() { }";
     PostgresDatastore.javadoc_raw := "";
     PostgresDatastore.internal_deps := "";
     PostgresDatastore.external_libs := "";
     PostgresDatastore.content_hash := code_hash;
     PostgresDatastore.line_count := 1;
     PostgresDatastore.status := status;
     PostgresDatastore.vector_status := vector_status;
     PostgresDatastore.last_seen_at := last_seen_at;
     PostgresDatastore.ai_summary := Some "Runs.";
     PostgresDatastore.ai_details := None;
     PostgresDatastore.is_doc_accurate := None;
     PostgresDatastore.metadata_json := metadata;
     PostgresDatastore.summary_tokens := 0;
     PostgresDatastore.vector_tokens := vector_tokens;
     PostgresDatastore.total_cost := total_cost;
     PostgresDatastore.processed_at := None |}.

Definition plain_metadata : PostgresDatastore.json :=
  PostgresDatastore.JObject
    [("logic_intent", PostgresDatastore.JString "Runs the task.");
     ("is_getter_setter", PostgresDatastore.JBool false)].

Definition boilerplate_metadata : PostgresDatastore.json :=
  PostgresDatastore.JObject
    [("logic_intent", PostgresDatastore.JString "Standard field access.");
     ("is_getter_setter", PostgresDatastore.JBool true)].

(** A store with one enriched and vectorised method. *)
Definition one_synced : PostgresDatastore.connection :=
  {| PostgresDatastore.java_methods :=
       {[ "m1" := stored "m1" "app/Two.java" "h1" "ai_processed" "synced" 10
                    (Some plain_metadata) 5 (1 # 100) ]};
     PostgresDatastore.statements := 0 |}.

(** A store with two enriched methods waiting for vectorisation, one of
    them boilerplate. *)
Definition two_pending : PostgresDatastore.connection :=
  {| PostgresDatastore.java_methods :=
       {[ "m1" := stored "m1" "app/Two.java" "h1" "ai_processed" "pending" 10
                    (Some plain_metadata) 0 0%Q;
          "m2" := stored "m2" "app/Bean.java" "h2" "ai_processed" "pending" 10
                    (Some boilerplate_metadata) 0 0%Q ]};
     PostgresDatastore.statements := 0 |}.

(** A store whose only row lies under the directory [my-app]. *)
Definition other_directory : PostgresDatastore.connection :=
  {| PostgresDatastore.java_methods :=
       {[ "m1" := stored "m1" "my-app/src/Main.java" "h1" "new" "pending" 10
                    None 0 0%Q ]};
     PostgresDatastore.statements := 0 |}.


End Fixtures.

(** * Properties *)

(** ** Body bounding *)

Module BodyFacts.

Import JavaExtractor BraceBalance.

Lemma balance_snoc ls line : balance (ls ++ [line]) = balance ls + net line.
Proof.
  induction ls as [|l ls IH]; simpl.
  - lia.
  - rewrite IH. lia.
Qed.

Lemma opened_snoc ls line :
  opened (ls ++ [line]) = if PyStr.contains "{" line then true else opened ls.
Proof.
  unfold opened. rewrite existsb_app. simpl. rewrite orb_false_r.
  destruct (PyStr.contains "{" line); [apply orb_true_r | apply orb_false_r].
Qed.

(** The state of the loop after one more line is the state computed
    from the lines taken so far. *)
Lemma body_loop_step line rest done :
  body_loop (line :: rest) done (balance done) (opened done) =
  if stops (done ++ [line]) then done ++ [line]
  else body_loop rest (done ++ [line]) (balance (done ++ [line]))
         (opened (done ++ [line])).
Proof.
  simpl. unfold stops. rewrite balance_snoc, opened_snoc. reflexivity.
Qed.

(** The loop breaks at the first prefix that meets the stop condition. *)
Lemma body_loop_breaks rest : forall done k,
  (1 <= k <= length rest)%nat ->
  stops (done ++ take k rest) = true ->
  (forall j, (1 <= j < k)%nat -> stops (done ++ take j rest) = false) ->
  body_loop rest done (balance done) (opened done) = done ++ take k rest.
Proof.
  induction rest as [|line rest IH]; intros done k Hk Hstop Hbefore.
  - simpl in Hk. lia.
  - rewrite body_loop_step.
    destruct k as [|k]; [lia|].
    destruct k as [|k].
    + change (take 1 (line :: rest)) with (line :: take 0 rest) in *.
      rewrite take_0 in *. rewrite Hstop. reflexivity.
    + assert (H1 : stops (done ++ [line]) = false).
      { apply (Hbefore 1%nat). lia. }
      rewrite H1.
      rewrite (IH (done ++ [line]) (S k)).
      * rewrite <- app_assoc. reflexivity.
      * simpl in Hk. lia.
      * rewrite <- app_assoc. exact Hstop.
      * intros j Hj. rewrite <- app_assoc.
        apply (Hbefore (S j)). lia.
Qed.

(** Without such a prefix the loop runs to the end of the file. *)
Lemma body_loop_exhausts rest : forall done,
  (forall j, (1 <= j <= length rest)%nat -> stops (done ++ take j rest) = false) ->
  body_loop rest done (balance done) (opened done) = done ++ rest.
Proof.
  induction rest as [|line rest IH]; intros done Hnever.
  - simpl. rewrite app_nil_r. reflexivity.
  - rewrite body_loop_step.
    assert (H1 : stops (done ++ [line]) = false).
    { apply (Hnever 1%nat). simpl. lia. }
    rewrite H1, IH.
    + rewrite <- app_assoc. reflexivity.
    + intros j Hj. rewrite <- app_assoc. apply (Hnever (S j)). simpl. lia.
Qed.


(** The declaration line of the scenario opens one brace. *)
Lemma balance_foo ls : balance ("foo() {" :: ls) = 1 + balance ls.
Proof. reflexivity. Qed.

Lemma opened_foo ls : opened ("foo() {" :: ls) = true.
Proof. reflexivity. Qed.

(** C4. [_get_method_body] takes whole lines from the declaration line
    on and stops, stopping line included, at the first line after which
    an opening brace has been seen and the running balance of opening
    minus closing braces is zero or below: when that happens first after
    [k] lines, the body is exactly those [k] lines and the count is [k];
    when it never happens, the body runs to the end of the file. In the
    scenario of the specification the declaration line is [foo() {] and
    the balance is back at zero on the third line of the method: the
    three lines are the body. (Were the balance to come back only on the
    fourth line, the body would be the four lines.) *)
Theorem get_method_body_stops_at_first_balance (lines : list string) (start_line : Z) :
  let rest := PyStr.slice_from lines start_line in
  (forall k, (1 <= k <= length rest)%nat ->
     stops (take k rest) = true ->
     (forall j, (1 <= j < k)%nat -> stops (take j rest) = false) ->
     get_method_body lines start_line = (PyStr.join PyStr.NL (take k rest), k))
  /\ ((forall j, (1 <= j <= length rest)%nat -> stops (take j rest) = false) ->
      get_method_body lines start_line = (PyStr.join PyStr.NL rest, length rest))
  /\ (forall l2 l3 tail,
        rest = "foo() {" :: l2 :: l3 :: tail ->
        0 < 1 + net l2 ->
        1 + net l2 + net l3 = 0 ->
        get_method_body lines start_line
        = (PyStr.join PyStr.NL ["foo() {"; l2; l3], 3%nat))
  /\ (forall l2 l3 l4 tail,
        rest = "foo() {" :: l2 :: l3 :: l4 :: tail ->
        0 < 1 + net l2 ->
        0 < 1 + net l2 + net l3 ->
        1 + net l2 + net l3 + net l4 = 0 ->
        get_method_body lines start_line
        = (PyStr.join PyStr.NL ["foo() {"; l2; l3; l4], 4%nat)).
Proof.
  intros rest.
  assert (Hgen : forall k, (1 <= k <= length rest)%nat ->
     stops (take k rest) = true ->
     (forall j, (1 <= j < k)%nat -> stops (take j rest) = false) ->
     get_method_body lines start_line = (PyStr.join PyStr.NL (take k rest), k)).
  { intros k Hk Hstop Hbefore. unfold get_method_body. fold rest.
    change 0 with (balance []). change false with (opened []).
    rewrite (body_loop_breaks rest [] k Hk Hstop Hbefore). simpl.
    rewrite length_take. f_equal. lia. }
  split; [exact Hgen|]. split; [|split].
  - intros Hnever. unfold get_method_body. fold rest.
    change 0 with (balance []). change false with (opened []).
    rewrite (body_loop_exhausts rest [] Hnever). reflexivity.
  - intros l2 l3 tail Hrest H2 H3.
    rewrite (Hgen 3%nat); rewrite Hrest.
    + reflexivity.
    + simpl. lia.
    + change (take 3 ("foo() {" :: l2 :: l3 :: tail)) with ["foo() {"; l2; l3].
      unfold stops. rewrite opened_foo, balance_foo. simpl.
      apply Z.leb_le. lia.
    + intros j Hj. unfold stops.
      apply andb_false_iff. right. apply Z.leb_gt.
      destruct j as [|[|[|j]]]; try lia.
      * change (take 1 ("foo() {" :: l2 :: l3 :: tail)) with ["foo() {"].
        rewrite balance_foo. simpl. lia.
      * change (take 2 ("foo() {" :: l2 :: l3 :: tail)) with ["foo() {"; l2].
        rewrite balance_foo. simpl. lia.
  - intros l2 l3 l4 tail Hrest H2 H3 H4.
    rewrite (Hgen 4%nat); rewrite Hrest.
    + reflexivity.
    + simpl. lia.
    + change (take 4 ("foo() {" :: l2 :: l3 :: l4 :: tail))
        with ["foo() {"; l2; l3; l4].
      unfold stops. rewrite opened_foo, balance_foo. simpl.
      apply Z.leb_le. lia.
    + intros j Hj. unfold stops.
      apply andb_false_iff. right. apply Z.leb_gt.
      destruct j as [|[|[|[|j]]]]; try lia.
      * change (take 1 ("foo() {" :: l2 :: l3 :: l4 :: tail)) with ["foo() {"].
        rewrite balance_foo. simpl. lia.
      * change (take 2 ("foo() {" :: l2 :: l3 :: l4 :: tail)) with ["foo() {"; l2].
        rewrite balance_foo. simpl. lia.
      * change (take 3 ("foo() {" :: l2 :: l3 :: l4 :: tail))
          with ["foo() {"; l2; l3].
        rewrite balance_foo. simpl. lia.
Qed.

(** The scenario on a file of five lines, the method declared on the
    second. *)
Lemma get_method_body_scenario :
  get_method_body ["class A {"; "foo() {"; "  run();"; "}"; "}"] 1
  = (PyStr.join PyStr.NL ["foo() {"; "  run();"; "}"], 3%nat).
Proof.
  apply (proj1 (proj2 (proj2
    (get_method_body_stops_at_first_balance
       ["class A {"; "foo() {"; "  run();"; "}"; "}"] 1))) "  run();" "}" ["}"]).
  - reflexivity.
  - vm_compute. reflexivity.
  - vm_compute. reflexivity.
Defined.


End BodyFacts.

(** ** Identity resolution *)

Module IdentityFacts.

Import JavaExtractor Identity.

Lemma to_uint_nonnil (n : nat) : Nat.to_uint n <> Decimal.Nil.
Proof.
  intros Hnil.
  assert (Hn : n = 0%nat).
  { rewrite <- (DecimalNat.Unsigned.of_to n), Hnil. reflexivity. }
  subst n. discriminate Hnil.
Qed.

(** [str] is injective on counters. *)
Lemma str_nat_inj (n m : nat) : PyStr.str_nat n = PyStr.str_nat m -> n = m.
Proof.
  unfold PyStr.str_nat. intros Heq.
  apply DecimalNat.Unsigned.to_uint_inj.
  assert (Hu := NilZero.usu (Nat.to_uint n) (to_uint_nonnil n)).
  rewrite Heq, (NilZero.usu (Nat.to_uint m) (to_uint_nonnil m)) in Hu.
  congruence.
Qed.

Lemma append_length (a b : string) :
  String.length (a +:+ b) = (String.length a + String.length b)%nat.
Proof. induction a as [|c a IH]; simpl; [reflexivity | rewrite IH; reflexivity]. Qed.

Lemma append_inj_r (a b c : string) : a +:+ b = a +:+ c -> b = c.
Proof.
  induction a as [|x a IH]; simpl; intros Heq; [exact Heq|].
  injection Heq as Heq. auto.
Qed.

(** The candidates of one base key are pairwise distinct. *)
Lemma candidate_inj (base_sig : string) (j k : nat) :
  candidate base_sig j = candidate base_sig k -> j = k.
Proof.
  destruct j as [|j], k as [|k]; simpl; intros Heq.
  - reflexivity.
  - apply (f_equal String.length) in Heq.
    rewrite !append_length in Heq. simpl in Heq. lia.
  - apply (f_equal String.length) in Heq.
    rewrite !append_length in Heq. simpl in Heq. lia.
  - apply append_inj_r, append_inj_r in Heq. apply str_nat_inj in Heq.
    exact Heq.
Qed.

(** The loop, entered with the [k]-th candidate, returns the first
    candidate from the [k]-th on that is not registered. *)
Lemma resolve_loop_returns (base_sig : string) (reg : gset string) (fuel : nat) :
  forall k r,
    resolve_loop fuel base_sig reg (candidate base_sig k) (S k) = Some r ->
    exists n, (k <= n)%nat /\ r = candidate base_sig n /\ (r ∉ reg)
              /\ forall j, (k <= j < n)%nat -> candidate base_sig j ∈ reg.
Proof.
  induction fuel as [|fuel IH]; intros k r Hr; simpl in Hr; [discriminate|].
  case_bool_decide as Hin.
  - destruct (IH (S k) r Hr) as (n & Hle & Heq & Hnot & Hall).
    exists n. repeat split; [lia | exact Heq | exact Hnot |].
    intros j Hj. destruct (decide (j = k)) as [->|Hne]; [exact Hin|].
    apply Hall. lia.
  - injection Hr as <-. exists k. repeat split; [lia | exact Hin |].
    intros j Hj. lia.
Qed.

(** When the bound is reached, every candidate tried is registered. *)
Lemma resolve_loop_none (base_sig : string) (reg : gset string) (fuel : nat) :
  forall k,
    resolve_loop fuel base_sig reg (candidate base_sig k) (S k) = None ->
    forall j, (k <= j < k + fuel)%nat -> candidate base_sig j ∈ reg.
Proof.
  induction fuel as [|fuel IH]; intros k Hnone j Hj; [lia|].
  simpl in Hnone. case_bool_decide as Hin; [|discriminate].
  destruct (decide (j = k)) as [->|Hne]; [exact Hin|].
  apply (IH (S k) Hnone). lia.
Qed.

(** The [while] loop terminates: one more iteration than the registry
    has members is enough. *)
Lemma resolve_loop_terminates (base_sig : string) (reg : gset string) :
  exists r, resolve_loop (S (size reg)) base_sig reg base_sig 1 = Some r.
Proof.
  destruct (resolve_loop (S (size reg)) base_sig reg base_sig 1) as [r|] eqn:Hr;
    [eauto|exfalso].
  pose proof (resolve_loop_none base_sig reg (S (size reg)) 0%nat Hr) as Hall.
  set (cs := map (candidate base_sig) (seq 0 (S (size reg)))).
  assert (Hnd : NoDup cs).
  { apply NoDup_fmap_2; [|apply NoDup_seq].
    intros j k. apply candidate_inj. }
  assert (Hsub : list_to_set (C := gset string) cs ⊆ reg).
  { intros x Hx. apply elem_of_list_to_set in Hx.
    apply list_elem_of_fmap in Hx as (j & -> & Hj).
    apply elem_of_seq in Hj. apply Hall. lia. }
  apply subseteq_size in Hsub.
  rewrite size_list_to_set in Hsub by exact Hnd.
  unfold cs in Hsub. rewrite length_map, length_seq in Hsub. lia.
Qed.

(** The resolved signature is the first unregistered candidate. *)
Lemma resolve_signature_spec (base_sig : string) (reg : gset string) :
  exists n, resolve_signature base_sig reg = candidate base_sig n
            /\ (resolve_signature base_sig reg ∉ reg)
            /\ forall j, (j < n)%nat -> candidate base_sig j ∈ reg.
Proof.
  unfold resolve_signature.
  destruct (resolve_loop_terminates base_sig reg) as [r Hr]. rewrite Hr. simpl.
  destruct (resolve_loop_returns base_sig reg _ 0%nat r Hr)
    as (n & _ & Heq & Hnot & Hall).
  exists n. repeat split; [exact Heq | exact Hnot |].
  intros j Hj. apply Hall. lia.
Qed.


Section Extraction.
Context `{Digest}.

(** What one iteration computes, when it does not raise. *)
Lemma extract_method_returns lines ctx reg path node m reg' :
  extract_method lines ctx reg path node = inr (m, reg') ->
  exists pos,
    Ast.position node = Some pos
    /\ reg' = {[ resolve_signature (base_signature ctx path node) reg ]} ∪ reg
    /\ id m = md5_hexdigest (resolve_signature (base_signature ctx path node) reg)
    /\ method_code m = (get_method_body lines (Ast.line pos - 1)).1
    /\ line_count m = (get_method_body lines (Ast.line pos - 1)).2
    /\ content_hash m = md5_hexdigest (method_code m)
    /\ class_name m = get_nested_class_path path
    /\ internal_deps m =
         PyStr.join ", "
           (take 10 (analyze_dependencies (package_name ctx) (imports ctx)).1)
    /\ external_libs m =
         PyStr.join ", "
           (take 10 (analyze_dependencies (package_name ctx) (imports ctx)).2).
Proof.
  unfold extract_method. intros Hm.
  destruct (Ast.position node) as [pos|]; [|discriminate Hm].
  unfold mbind, result_bind, mret, result_ret in Hm.
  exists pos.
  destruct (get_method_body lines (Ast.line pos - 1)) as [code n].
  destruct (analyze_dependencies (package_name ctx) (imports ctx)) as [int ext].
  injection Hm as <- <-.
  repeat match goal with |- _ /\ _ => split end; reflexivity.
Qed.

(** It raises exactly when the declaration has no position. *)
Lemma extract_method_raises lines ctx reg path node e :
  extract_method lines ctx reg path node = inl e ->
  Ast.position node = None /\ e = AttributeError.
Proof.
  unfold extract_method. intros Hm.
  unfold mbind, result_bind, mret, result_ret, raise in Hm.
  destruct (Ast.position node) as [pos|].
  - destruct (get_method_body lines (Ast.line pos - 1)) as [code n].
    destruct (analyze_dependencies (package_name ctx) (imports ctx)) as [int ext].
    discriminate Hm.
  - injection Hm as <-. split; reflexivity.
Qed.

(** The loop appends one record per declaration, in order; the
    identities are the digests of the signatures issued. *)
Lemma extract_loop_returns lines ctx todo : forall reg acc recs,
  extract_loop todo lines ctx reg acc = inr recs ->
  exists news,
    recs = acc ++ news
    /\ map id news = map md5_hexdigest (issued ctx reg todo)
    /\ Forall2 (fun pm m =>
         exists reg_in reg_out,
           extract_method lines ctx reg_in pm.1 pm.2 = inr (m, reg_out))
         todo news.
Proof.
  induction todo as [|[path node] todo IH]; intros reg acc recs Hrecs.
  - simpl in Hrecs. injection Hrecs as <-. exists [].
    rewrite app_nil_r. repeat split. constructor.
  - simpl in Hrecs.
    destruct (extract_method lines ctx reg path node) as [e|[m reg']] eqn:Hm;
      [discriminate Hrecs|].
    simpl in Hrecs.
    destruct (IH _ _ _ Hrecs) as (news & -> & Hids & Hall).
    destruct (extract_method_returns _ _ _ _ _ _ _ Hm)
      as (pos & _ & -> & Hid & _).
    exists (m :: news). rewrite <- app_assoc. simpl. repeat split.
    + rewrite Hid, Hids. reflexivity.
    + constructor; [|exact Hall]. exists reg. eexists. exact Hm.
Qed.

End Extraction.

Section Collisions.
Context `{Digest}.

(** With a position on every declaration the loop returns. *)
Lemma extract_loop_total lines ctx todo : forall reg acc,
  Forall (fun pm => is_Some (Ast.position pm.2)) todo ->
  exists recs, extract_loop todo lines ctx reg acc = inr recs.
Proof.
  induction todo as [|[path node] todo IH]; intros reg acc Hpos.
  - simpl. eexists. reflexivity.
  - inversion Hpos as [|? ? [pos Hp] Hrest]; subst. simpl in Hp.
    simpl.
    destruct (extract_method lines ctx reg path node) as [e|[m reg']] eqn:Hm.
    + apply extract_method_raises in Hm as [Hnone _]. congruence.
    + simpl. apply IH. exact Hrest.
Qed.








End Collisions.



Section Determinism.
Context `{Digest}.

(** Two declarations with the same identity inputs, in files with the
    same relative path and the same lines, met with the same registry:
    both iterations raise, or both return records with the same identity
    and fingerprint and the same registry. *)
Lemma extract_method_agree lines ctx1 ctx2 reg pm1 pm2 :
  rel_path ctx1 = rel_path ctx2 ->
  identity_inputs pm1 = identity_inputs pm2 ->
  match extract_method lines ctx1 reg pm1.1 pm1.2,
        extract_method lines ctx2 reg pm2.1 pm2.2 with
  | inl e1, inl e2 => e1 = e2
  | inr (m1, reg1), inr (m2, reg2) => identity_of m1 = identity_of m2 /\ reg1 = reg2
  | _, _ => False
  end.
Proof.
  intros Hrel Hin. unfold identity_inputs in Hin.
  injection Hin as Hclass Hname Hparams Hpos.
  assert (Hbase : base_signature ctx1 pm1.1 pm1.2 = base_signature ctx2 pm2.1 pm2.2).
  { unfold base_signature. rewrite Hrel, Hclass, Hname, Hparams. reflexivity. }
  unfold extract_method. rewrite Hbase.
  unfold mbind, result_bind, mret, result_ret, raise.
  destruct (Ast.position pm1.2) as [pos1|], (Ast.position pm2.2) as [pos2|];
    simpl in Hpos; try discriminate Hpos; [|reflexivity].
  injection Hpos as Hline. rewrite Hline.
  destruct (get_method_body lines (Ast.line pos2 - 1)) as [code n].
  destruct (analyze_dependencies (package_name ctx1) (imports ctx1)) as [i1 e1].
  destruct (analyze_dependencies (package_name ctx2) (imports ctx2)) as [i2 e2].
  split; reflexivity.
Qed.

Lemma extract_loop_agree lines ctx1 ctx2 todo1 : forall todo2 reg acc1 acc2,
  rel_path ctx1 = rel_path ctx2 ->
  map identity_inputs todo1 = map identity_inputs todo2 ->
  map identity_of acc1 = map identity_of acc2 ->
  map identity_of <$> extract_loop todo1 lines ctx1 reg acc1
  = map identity_of <$> extract_loop todo2 lines ctx2 reg acc2.
Proof.
  induction todo1 as [|[path1 node1] todo1 IH];
    intros [|[path2 node2] todo2] reg acc1 acc2 Hrel Htodo Hacc;
    try discriminate Htodo.
  - simpl. unfold fmap, result_fmap, mret, result_ret. rewrite Hacc. reflexivity.
  - rewrite !map_cons in Htodo.
    assert (Hhead : identity_inputs (path1, node1) = identity_inputs (path2, node2))
      by congruence.
    assert (Htail : map identity_inputs todo1 = map identity_inputs todo2)
      by congruence.
    clear Htodo.
    pose proof (extract_method_agree lines ctx1 ctx2 reg
                  (path1, node1) (path2, node2) Hrel Hhead) as Hstep.
    simpl in Hstep. simpl.
    destruct (extract_method lines ctx1 reg path1 node1) as [e1|[m1 reg1]],
             (extract_method lines ctx2 reg path2 node2) as [e2|[m2 reg2]];
      try contradiction.
    + subst e2. reflexivity.
    + destruct Hstep as [Hm ->]. simpl.
      apply IH; [exact Hrel | exact Htail |].
      rewrite !map_app. simpl. rewrite Hacc, Hm. reflexivity.
Qed.

(** C3. Identity assignment is deterministic. The identities and the
    fingerprints that an extraction returns, in order, are a function of
    the relative path of the file, of its lines and, for every method in
    document order, of its enclosing path, name, parameter types and
    declaration line: two extractions that agree on these return the
    same identities and fingerprints (or fail alike), whatever else
    differs between them. *)
Theorem identity_assignment_deterministic tree1 tree2 lines ctx1 ctx2 :
  rel_path ctx1 = rel_path ctx2 ->
  map identity_inputs (Ast.methods tree1) = map identity_inputs (Ast.methods tree2) ->
  map identity_of <$> extract_methods_from_tree tree1 lines ctx1
  = map identity_of <$> extract_methods_from_tree tree2 lines ctx2.
Proof.
  intros Hrel Hmethods. unfold extract_methods_from_tree.
  apply extract_loop_agree; [exact Hrel | exact Hmethods | reflexivity].
Qed.


End Determinism.

(** Two readings of one file that differ in everything but the identity
    inputs. *)
Lemma two_readings_agree :
  map identity_of <$>
    @extract_methods_from_tree Fixtures.transparent_digest
      Fixtures.two_interfaces_tree Fixtures.two_interfaces_lines
      Fixtures.two_interfaces_ctx
  = map identity_of <$>
    @extract_methods_from_tree Fixtures.transparent_digest
      Fixtures.two_interfaces_tree' Fixtures.two_interfaces_lines
      Fixtures.two_interfaces_ctx'.
Proof.
  apply (@identity_assignment_deterministic Fixtures.transparent_digest).
  - reflexivity.
  - reflexivity.
Defined.


End IdentityFacts.

(** ** Dependency classification *)

Module DependencyFacts.

Import JavaExtractor Identity.

Lemma prefix_append (p s : string) : String.prefix p (p +:+ s) = true.
Proof.
  induction p as [|a p IH].
  - destruct s; reflexivity.
  - change (String a p +:+ s) with (String a (p +:+ s)). simpl.
    destruct (ascii_dec a a) as [_|Hne]; [exact IH | congruence].
Qed.

Lemma append_cons (x : ascii) (a b : string) :
  String x a +:+ b = String x (a +:+ b).
Proof. reflexivity. Qed.

Lemma append_nil_r (a : string) : a +:+ "" = a.
Proof.
  induction a as [|x a IH]; [reflexivity|].
  rewrite append_cons, IH. reflexivity.
Qed.

Lemma append_assoc (a b c : string) : (a +:+ b) +:+ c = a +:+ (b +:+ c).
Proof.
  induction a as [|x a IH]; [reflexivity|].
  rewrite !append_cons, IH. reflexivity.
Qed.

Lemma split_nonempty (c : ascii) (s : string) : PyStr.split c s <> [].
Proof.
  destruct s as [|a s]; simpl; [discriminate|].
  destruct (Ascii.eqb a c); [discriminate|].
  destruct (PyStr.split c s); discriminate.
Qed.

Lemma join_cons_char (sep : string) (a : ascii) (w : string) (ws : list string) :
  PyStr.join sep (String a w :: ws) = String a (PyStr.join sep (w :: ws)).
Proof. destruct ws; reflexivity. Qed.

(** Joining the fields gives the string back. *)
Lemma join_split (c : ascii) (s : string) :
  PyStr.join (String c "") (PyStr.split c s) = s.
Proof.
  induction s as [|a s IH]; [reflexivity|].
  simpl. destruct (Ascii.eqb_spec a c) as [->|Hne].
  - pose proof (split_nonempty c s) as Hne.
    destruct (PyStr.split c s) as [|w ws]; [congruence|].
    change (PyStr.join (String c "") ("" :: w :: ws))
      with (String c (PyStr.join (String c "") (w :: ws))).
    rewrite IH. reflexivity.
  - pose proof (split_nonempty c s) as Hnil.
    destruct (PyStr.split c s) as [|w ws]; [congruence|].
    rewrite join_cons_char, IH. reflexivity.
Qed.

(** The prefix is the first two segments of the package joined by a
    dot, the package itself when it has one segment. *)
Lemma dependency_prefix_segments (package_name : string) :
  dependency_prefix package_name =
  match PyStr.split "." package_name with
  | a :: b :: _ => a +:+ "." +:+ b
  | [a] => a
  | [] => ""
  end.
Proof.
  unfold dependency_prefix.
  destruct (PyStr.split "." package_name) as [|a [|b rest]]; reflexivity.
Qed.

(** A name starts with its first two segments joined by a dot. *)
Lemma starts_with_two_segments (s a b : string) (rest : list string) :
  PyStr.split "." s = a :: b :: rest ->
  PyStr.startswith s (a +:+ "." +:+ b) = true.
Proof.
  intros Hsplit. unfold PyStr.startswith.
  assert (Hs : exists t, s = (a +:+ "." +:+ b) +:+ t).
  { pose proof (join_split "." s) as Hj. rewrite Hsplit in Hj.
    destruct rest as [|c rest].
    - exists "". rewrite append_nil_r. symmetry. exact Hj.
    - exists ("." +:+ PyStr.join "." (c :: rest)).
      rewrite !append_assoc. symmetry. exact Hj. }
  destruct Hs as [t ->]. apply prefix_append.
Qed.

Section Records.
Context `{Digest}.

(** C7, as the code has it. An import is internal exactly when its path
    starts, as a string, with the prefix of the package, and external
    otherwise; the prefix is the first two dot-separated segments of the
    package joined by a dot (the package itself when it has a single
    segment). Every import that has the package's first two segments is
    therefore internal. Each record stores at most the first ten entries
    of each list, joined by a comma and a space. *)
Theorem dependencies_by_string_prefix :
  (forall package_name all_imports i,
     (i ∈ (analyze_dependencies package_name all_imports).1
      <-> i ∈ all_imports
          /\ PyStr.startswith i (dependency_prefix package_name) = true)
     /\ (i ∈ (analyze_dependencies package_name all_imports).2
         <-> i ∈ all_imports
             /\ PyStr.startswith i (dependency_prefix package_name) = false))
  /\ (forall package_name,
        dependency_prefix package_name =
        match PyStr.split "." package_name with
        | a :: b :: _ => a +:+ "." +:+ b
        | [a] => a
        | [] => ""
        end)
  /\ (forall package_name all_imports i,
        (2 <= length (PyStr.split "." package_name))%nat ->
        i ∈ all_imports ->
        shares_two_segments i package_name ->
        i ∈ (analyze_dependencies package_name all_imports).1)
  /\ (forall tree lines ctx recs,
        extract_methods_from_tree tree lines ctx = inr recs ->
        Forall (fun m =>
          let deps := analyze_dependencies (package_name ctx) (imports ctx) in
          internal_deps m = PyStr.join ", " (take 10 deps.1)
          /\ external_libs m = PyStr.join ", " (take 10 deps.2)
          /\ (length (take 10 deps.1) <= 10)%nat
          /\ (length (take 10 deps.2) <= 10)%nat) recs).
Proof.
  split; [|split; [|split]].
  - intros package_name all_imports i. unfold analyze_dependencies. simpl.
    rewrite !list_elem_of_filter. split.
    + tauto.
    + destruct (PyStr.startswith i (dependency_prefix package_name));
        split; intros [H1 H2]; split; congruence.
  - apply dependency_prefix_segments.
  - intros package_name all_imports i Hlen Hin Hshare.
    unfold analyze_dependencies. simpl. rewrite list_elem_of_filter.
    split; [|exact Hin].
    rewrite dependency_prefix_segments.
    unfold shares_two_segments in Hshare.
    destruct (PyStr.split "." package_name) as [|a [|b rest]] eqn:Hpkg;
      simpl in Hlen; try lia.
    destruct (PyStr.split "." i) as [|a' [|b' rest']] eqn:Hi;
      simpl in Hshare; try discriminate Hshare.
    injection Hshare as -> ->.
    apply (starts_with_two_segments i a b rest' Hi).
  - intros tree lines ctx recs Hrecs. unfold extract_methods_from_tree in Hrecs.
    destruct (IdentityFacts.extract_loop_returns lines ctx _ _ _ _ Hrecs)
      as (news & -> & _ & Hall).
    simpl. eapply Forall2_Forall_r; [exact Hall|].
    apply Forall_forall. intros pm _ m (reg_in & reg_out & Hm).
    destruct (IdentityFacts.extract_method_returns _ _ _ _ _ _ _ Hm)
      as (pos & _ & _ & _ & _ & _ & _ & _ & Hint & Hext).
    simpl. rewrite Hint, Hext, !length_take.
    repeat match goal with |- _ /\ _ => split end; try reflexivity; lia.
Qed.

End Records.

(** The claim as written fails: [com.foobar.Baz] is internal to the
    package [com.foo.app], with which it shares one segment. *)
Lemma internal_without_shared_segments :
  "com.foobar.Baz" ∈ (analyze_dependencies "com.foo.app" ["com.foobar.Baz"]).1
  /\ ~ shares_two_segments "com.foobar.Baz" "com.foo.app".
Proof.
  split.
  - vm_compute. apply list_elem_of_here.
  - unfold shares_two_segments. vm_compute. discriminate.
Qed.

(** The three imports of the sample file, classified. *)
Lemma sample_dependencies :
  "com.foo.util.Strings"
  ∈ (analyze_dependencies "com.foo.app"
       ["com.foo.util.Strings"; "com.foobar.Baz"; "java.util.List"]).1.
Proof.
  apply (proj1 (proj2 (proj2 (@dependencies_by_string_prefix
                                Fixtures.transparent_digest)))).
  - vm_compute. lia.
  - apply list_elem_of_here.
  - reflexivity.
Defined.

End DependencyFacts.

(** ** The record store *)

Module StoreFacts.

Import PostgresDatastore Reconciliation.

(** *** Pages *)

Lemma concat_paginate {A} (size : nat) : forall (fuel : nat) (args : list A),
  (0 < size)%nat -> (length args <= fuel)%nat ->
  concat (paginate fuel size args) = args.
Proof.
  induction fuel as [|fuel IH]; intros args Hsize Hfuel.
  - destruct args; [reflexivity | simpl in Hfuel; lia].
  - destruct args as [|x args]; [reflexivity|].
    change (paginate (S fuel) size (x :: args))
      with (take size (x :: args) :: paginate fuel size (drop size (x :: args))).
    simpl concat. rewrite IH.
    + apply take_drop.
    + exact Hsize.
    + rewrite length_drop. simpl in *. lia.
Qed.

(** The number of pages is the number of tuples over the page size,
    rounded up. *)
Lemma length_paginate {A} (size : nat) : forall (fuel : nat) (args : list A),
  (0 < size)%nat -> (length args <= fuel)%nat ->
  (length args <= length (paginate fuel size args) * size
   /\ length (paginate fuel size args) * size < length args + size)%nat.
Proof.
  induction fuel as [|fuel IH]; intros args Hsize Hfuel.
  - destruct args; simpl in *; lia.
  - destruct args as [|x args]; [simpl; lia|].
    change (paginate (S fuel) size (x :: args))
      with (take size (x :: args) :: paginate fuel size (drop size (x :: args))).
    assert (Hdrop : (length (drop size (x :: args)) <= fuel)%nat).
    { rewrite length_drop. simpl in *. lia. }
    destruct (IH (drop size (x :: args)) Hsize Hdrop) as [Hlo Hhi].
    rewrite length_drop in Hlo, Hhi.
    change (length (take size (x :: args) :: paginate fuel size (drop size (x :: args))))
      with (S (length (paginate fuel size (drop size (x :: args))))).
    set (c := length (paginate fuel size (drop size (x :: args)))) in *.
    simpl length in *.
    assert (Hc : (c = 0 \/ size <= c * size)%nat) by (destruct c; [left|right]; lia).
    rewrite Nat.mul_succ_l. destruct Hc as [-> | Hc]; lia.
Qed.

Lemma concat_pages {A} (args : list A) : concat (pages args) = args.
Proof. apply concat_paginate; [unfold page_size; lia | lia]. Qed.

Lemma length_pages {A} (args : list A) :
  (length args <= length (pages args) * 100
   /\ length (pages args) * 100 < length args + 100)%nat.
Proof. apply (length_paginate 100); lia. Qed.

(** *** Reconciliation *)

Lemma upsert_row_self d table v :
  upsert_row d table v !! key_of v = Some (reconciled d (table !! key_of v) v).
Proof.
  unfold upsert_row, reconciled.
  change (id (inserted_row d v)) with (key_of v).
  destruct (table !! key_of v); apply lookup_insert_eq.
Qed.

Lemma upsert_row_other d table v k :
  k <> key_of v -> upsert_row d table v !! k = table !! k.
Proof.
  intros Hne. unfold upsert_row.
  change (id (inserted_row d v)) with (key_of v).
  destruct (table !! key_of v); apply lookup_insert_ne; congruence.
Qed.

(** A statement over tuples with distinct keys reconciles each of them
    against the table as it was, and touches no other row. *)
Lemma upsert_fold_lookup d data : forall table,
  NoDup (map key_of data) ->
  (forall v, v ∈ data ->
     foldl (upsert_row d) table data !! key_of v
     = Some (reconciled d (table !! key_of v) v))
  /\ (forall k, k ∉ map key_of data ->
        foldl (upsert_row d) table data !! k = table !! k).
Proof.
  induction data as [|v data IH]; intros table Hnd.
  - split; [intros v Hv; inversion Hv | reflexivity].
  - rewrite map_cons in Hnd. apply NoDup_cons in Hnd as [Hfresh Hnd].
    destruct (IH (upsert_row d table v) Hnd) as [Hin Hout].
    split.
    + intros v' Hv'. simpl. apply elem_of_cons in Hv' as [->|Hv'].
      * rewrite (Hout _ Hfresh). apply upsert_row_self.
      * rewrite (Hin _ Hv'). rewrite upsert_row_other; [reflexivity|].
        intros Heq. apply Hfresh. rewrite <- Heq.
        apply list_elem_of_fmap. exists v'. split; [reflexivity | exact Hv'].
    + intros k Hk. simpl. rewrite map_cons in Hk.
      apply not_elem_of_cons in Hk as [Hne Hk].
      rewrite (Hout _ Hk). apply upsert_row_other. exact Hne.
Qed.

Lemma execute_pages_cons {A} run (p : list A) ps table sent :
  execute_pages run (p :: ps) table sent
  = (table' ← run p table; execute_pages run ps table' (S sent)).
Proof. reflexivity. Qed.

Lemma upsert_statement_distinct d page table :
  NoDup (map key_of page) ->
  upsert_statement d page table = inr (foldl (upsert_row d) table page).
Proof.
  intros Hnd. unfold upsert_statement.
  rewrite bool_decide_eq_true_2 by exact Hnd. reflexivity.
Qed.

(** Pages whose tuples have distinct keys all pass, one statement each. *)
Lemma execute_pages_upsert d ps : forall table sent,
  NoDup (map key_of (concat ps)) ->
  execute_pages (upsert_statement d) ps table sent
  = inr (foldl (upsert_row d) table (concat ps), (sent + length ps)%nat).
Proof.
  induction ps as [|p ps IH]; intros table sent Hnd.
  - simpl. rewrite Nat.add_0_r. reflexivity.
  - change (concat (p :: ps)) with (p ++ concat ps) in *.
    rewrite map_app in Hnd.
    apply NoDup_app in Hnd as (Hp & _ & Hps).
    rewrite execute_pages_cons, (upsert_statement_distinct d p table Hp).
    unfold mbind, result_bind. rewrite IH by exact Hps. rewrite foldl_app.
    simpl length. do 2 f_equal. lia.
Qed.

(** C1. [upsert_methods] on a batch of records with distinct
    identities returns and reconciles every record of the batch: when
    the table had no row with the identity, the row is inserted with
    [status = 'new'], [vector_status = 'pending'] and [last_seen_at] the
    scan time; when it had one, a fingerprint that differs from the
    stored one sets [status = 'updated'] and [vector_status = 'pending']
    whatever they were, an equal fingerprint leaves both as they were,
    and in either case the code, the documentation, the two dependency
    lists, the fingerprint and the line count are overwritten with the
    incoming ones and [last_seen_at] is the scan time. Rows of other
    identities are untouched. *)
Theorem upsert_methods_reconciles d current_now methods conn :
  NoDup (map JavaExtractor.id methods) ->
  exists conn',
    upsert_methods d current_now methods conn = inr conn'
    /\ (forall m, m ∈ methods ->
          exists r,
            java_methods conn' !! JavaExtractor.id m = Some r
            /\ match java_methods conn !! JavaExtractor.id m with
               | None =>
                   id r = JavaExtractor.id m
                   /\ source_path r = JavaExtractor.source m
                   /\ status r = "new"
                   /\ vector_status r = "pending"
               | Some old =>
                   (content_hash old <> JavaExtractor.content_hash m ->
                    status r = "updated" /\ vector_status r = "pending")
                   /\ (content_hash old = JavaExtractor.content_hash m ->
                       status r = status old
                       /\ vector_status r = vector_status old)
               end
            /\ method_code r = JavaExtractor.method_code m
            /\ javadoc_raw r = JavaExtractor.javadoc_raw m
            /\ internal_deps r = JavaExtractor.internal_deps m
            /\ external_libs r = JavaExtractor.external_libs m
            /\ content_hash r = JavaExtractor.content_hash m
            /\ line_count r = JavaExtractor.line_count m
            /\ last_seen_at r = current_now)
    /\ (forall k, k ∉ map JavaExtractor.id methods ->
          java_methods conn' !! k = java_methods conn !! k).
Proof.
  intros Hnd.
  set (data := upsert_data current_now methods).
  assert (Hkeys : map key_of data = map JavaExtractor.id methods).
  { unfold data, upsert_data. rewrite map_map. reflexivity. }
  assert (Hnd' : NoDup (map key_of (concat (pages data)))).
  { rewrite concat_pages, Hkeys. exact Hnd. }
  eexists. split; [|split].
  - unfold upsert_methods. fold data.
    rewrite (execute_pages_upsert d (pages data) _ _ Hnd'). reflexivity.
  - intros m Hm. simpl. rewrite concat_pages.
    rewrite <- Hkeys in Hnd.
    destruct (upsert_fold_lookup d data (java_methods conn) Hnd) as [Hin _].
    set (v := {| v_method := m; v_status := "new";
                 v_vector_status := "pending";
                 v_last_seen_at := current_now |}).
    assert (Hv : v ∈ data).
    { unfold data, upsert_data. apply list_elem_of_fmap.
      exists m. split; [reflexivity | exact Hm]. }
    specialize (Hin v Hv). change (key_of v) with (JavaExtractor.id m) in Hin.
    eexists. split; [exact Hin|].
    destruct (java_methods conn !! JavaExtractor.id m) as [old|]; simpl.
    + repeat match goal with |- _ /\ _ => split end; try reflexivity.
      * intros Hne. apply String.eqb_neq in Hne. rewrite Hne. simpl.
        split; reflexivity.
      * intros Heq. apply String.eqb_eq in Heq. rewrite Heq. simpl.
        split; reflexivity.
    + repeat match goal with |- _ /\ _ => split end; reflexivity.
  - intros k Hk. simpl. rewrite concat_pages.
    rewrite <- Hkeys in Hnd, Hk.
    destruct (upsert_fold_lookup d data (java_methods conn) Hnd) as [_ Hout].
    apply Hout. exact Hk.
Qed.

(** A second scan meets the vectorised method [m1] with a new body and
    the unknown method [m2]. *)
Lemma rescan_reconciles :
  exists conn',
    upsert_methods Fixtures.defaults 20
      [Fixtures.scanned "m1" "h1-changed"; Fixtures.scanned "m2" "h2"]
      Fixtures.one_synced = inr conn'
    /\ (status <$> java_methods conn' !! "m1") = Some "updated"
    /\ (vector_status <$> java_methods conn' !! "m1") = Some "pending"
    /\ (status <$> java_methods conn' !! "m2") = Some "new".
Proof.
  destruct (upsert_methods_reconciles Fixtures.defaults 20
              [Fixtures.scanned "m1" "h1-changed"; Fixtures.scanned "m2" "h2"]
              Fixtures.one_synced)
    as (conn' & Hrun & Hall & _).
  - apply (bool_decide_unpack _). vm_compute. exact I.
  - exists conn'. split; [exact Hrun|].
    destruct (Hall (Fixtures.scanned "m1" "h1-changed")) as (r1 & Hr1 & Hs1 & _);
      [apply list_elem_of_here|].
    destruct (Hall (Fixtures.scanned "m2" "h2")) as (r2 & Hr2 & Hs2 & _);
      [apply list_elem_of_further, list_elem_of_here|].
    simpl in Hr1, Hr2. rewrite Hr1, Hr2. simpl.
    change (java_methods Fixtures.one_synced !! JavaExtractor.id (Fixtures.scanned "m1" "h1-changed"))
      with (Some (Fixtures.stored "m1" "app/Two.java" "h1" "ai_processed" "synced" 10
                    (Some Fixtures.plain_metadata) 5 (1 # 100))) in Hs1.
    change (java_methods Fixtures.one_synced !! JavaExtractor.id (Fixtures.scanned "m2" "h2"))
      with (@None row) in Hs2.
    destruct Hs1 as [Hup _]. destruct (Hup ltac:(discriminate)) as [-> ->].
    destruct Hs2 as (_ & _ & -> & _).
    repeat split.
Defined.

(** *** Vector synchronisation *)

Lemma find_usage_app key p q :
  find_usage key (p ++ q) =
  match find_usage key p with
  | Some u => Some u
  | None => find_usage key q
  end.
Proof.
  induction p as [|[[k t] c] p IH]; [reflexivity|].
  simpl. destruct (String.eqb k key); [reflexivity | exact IH].
Qed.

Lemma find_usage_none key p :
  key ∉ map (fun u => u.1.1) p -> find_usage key p = None.
Proof.
  induction p as [|[[k t] c] p IH]; [reflexivity|].
  rewrite map_cons. intros Hnot. apply not_elem_of_cons in Hnot as [Hne Hnot].
  simpl in Hne. simpl. destruct (String.eqb_spec k key) as [Heq|_]; [congruence|].
  apply IH. exact Hnot.
Qed.

Lemma find_usage_some key p u :
  find_usage key p = Some u -> key ∈ map (fun u => u.1.1) p.
Proof.
  induction p as [|[[k t] c] p IH]; [discriminate|].
  simpl. destruct (String.eqb_spec k key) as [->|_].
  - intros _. apply list_elem_of_here.
  - intros Hu. apply list_elem_of_further, IH, Hu.
Qed.

(** With distinct identities, the tuple found for an identity is the
    tuple given for it. *)
Lemma find_usage_distinct key tokens cost p :
  NoDup (map (fun u => u.1.1) p) ->
  (key, tokens, cost) ∈ p -> find_usage key p = Some (tokens, cost).
Proof.
  induction p as [|[[k t] c] p IH]; intros Hnd Hin; [inversion Hin|].
  rewrite map_cons in Hnd. apply NoDup_cons in Hnd as [Hfresh Hnd].
  simpl in Hfresh. simpl.
  apply elem_of_cons in Hin as [Heq|Hin].
  - injection Heq as -> -> ->. rewrite String.eqb_refl. reflexivity.
  - destruct (String.eqb_spec k key) as [->|_]; [|apply IH; assumption].
    exfalso. apply Hfresh. apply list_elem_of_fmap.
    exists (key, tokens, cost). split; [reflexivity | exact Hin].
Qed.

(** The pages of one bulk update, over tuples with distinct identities:
    every row is updated from the tuple given for it, if any. *)
Lemma execute_pages_bulk ps : forall table sent,
  NoDup (map (fun u => u.1.1) (concat ps)) ->
  exists table',
    execute_pages bulk_statement ps table sent
    = inr (table', (sent + length ps)%nat)
    /\ forall k,
         table' !! k =
         match find_usage k (concat ps) with
         | Some (tokens, cost) => set_vector_synced tokens cost <$> table !! k
         | None => table !! k
         end.
Proof.
  induction ps as [|p ps IH]; intros table sent Hnd.
  - exists table. simpl. rewrite Nat.add_0_r. split; reflexivity.
  - change (concat (p :: ps)) with (p ++ concat ps) in *.
    rewrite map_app in Hnd. apply NoDup_app in Hnd as (Hp & Hdisj & Hps).
    rewrite execute_pages_cons.
    destruct (bulk_statement p table) as [e|table1] eqn:Hstmt;
      [discriminate Hstmt|].
    unfold bulk_statement, mret, result_ret in Hstmt. injection Hstmt as Htable1.
    unfold mbind, result_bind.
    destruct (IH table1 (S sent) Hps) as (table' & Hrun & Hlook).
    exists table'. split.
    + rewrite Hrun. simpl length. do 2 f_equal. lia.
    + intros k. rewrite Hlook, <- Htable1, map_lookup_imap, find_usage_app.
      destruct (find_usage k p) as [[tokens cost]|] eqn:Hk.
      * rewrite (find_usage_none k (concat ps)).
        -- destruct (table !! k); reflexivity.
        -- apply Hdisj. eapply find_usage_some. exact Hk.
      * destruct (find_usage k (concat ps)) as [[tokens cost]|];
          destruct (table !! k); reflexivity.
Qed.

(** C6, as the code has it. Both forms set [vector_status = 'synced']
    on the rows of the given identities, replace [vector_tokens] by the
    reported token count and add the reported cost to [total_cost]; rows
    of other identities are untouched. The single form sends one
    statement; the bulk form, given tuples with distinct identities,
    sends one statement per page of a hundred tuples. *)
Theorem vector_sync_marks_and_counts :
  (forall method_id tokens cost conn,
     let conn' := update_vector_sync_status method_id tokens cost conn in
     statements conn' = S (statements conn)
     /\ (forall r, java_methods conn !! method_id = Some r ->
           exists r',
             java_methods conn' !! method_id = Some r'
             /\ vector_status r' = "synced"
             /\ vector_tokens r' = tokens
             /\ total_cost r' = (total_cost r + cost)%Q
             /\ status r' = status r)
     /\ (forall k, k <> method_id ->
           java_methods conn' !! k = java_methods conn !! k))
  /\ (forall update_data conn,
        update_data <> [] ->
        NoDup (map (fun u => u.1.1) update_data) ->
        let conn' := bulk_update_vector_sync update_data conn in
        (forall method_id tokens cost r,
           (method_id, tokens, cost) ∈ update_data ->
           java_methods conn !! method_id = Some r ->
           exists r',
             java_methods conn' !! method_id = Some r'
             /\ vector_status r' = "synced"
             /\ vector_tokens r' = tokens
             /\ total_cost r' = (total_cost r + cost)%Q
             /\ status r' = status r)
        /\ (forall k, k ∉ map (fun u => u.1.1) update_data ->
              java_methods conn' !! k = java_methods conn !! k)
        /\ statements conn' = (statements conn + length (pages update_data))%nat
        /\ (length update_data <= length (pages update_data) * 100)%nat
        /\ (length (pages update_data) * 100 < length update_data + 100)%nat).
Proof.
  split.
  - intros method_id tokens cost conn conn'. unfold conn', update_vector_sync_status.
    simpl. repeat match goal with |- _ /\ _ => split end.
    + reflexivity.
    + intros r Hr. rewrite Hr. eexists. rewrite lookup_insert_eq.
      repeat match goal with |- _ /\ _ => split end; reflexivity.
    + intros k Hk. destruct (java_methods conn !! method_id); [|reflexivity].
      apply lookup_insert_ne. congruence.
  - intros update_data conn Hne Hnd conn'.
    assert (Hnd' : NoDup (map (fun u => u.1.1) (concat (pages update_data)))).
    { rewrite concat_pages. exact Hnd. }
    destruct (execute_pages_bulk (pages update_data) (java_methods conn)
                (statements conn) Hnd') as (table' & Hrun & Hlook).
    rewrite concat_pages in Hlook.
    assert (Hconn : conn' = {| java_methods := table';
                               statements := (statements conn
                                              + length (pages update_data))%nat |}).
    { unfold conn', bulk_update_vector_sync.
      destruct update_data; [congruence|]. rewrite Hrun. reflexivity. }
    rewrite Hconn. simpl. repeat match goal with |- _ /\ _ => split end.
    + intros method_id tokens cost r Hin Hr.
      rewrite Hlook, (find_usage_distinct _ _ _ _ Hnd Hin), Hr. simpl.
      eexists. repeat match goal with |- _ /\ _ => split end; reflexivity.
    + intros k Hk. rewrite Hlook, (find_usage_none _ _ Hk). reflexivity.
    + reflexivity.
    + apply length_pages.
    + apply length_pages.
Qed.

(** The claim as written fails on the token counter: a row that held
    five tokens and is reported three more holds three, not eight. *)
Lemma vector_tokens_not_accumulated :
  exists r r',
    java_methods Fixtures.one_synced !! "m1" = Some r
    /\ java_methods (update_vector_sync_status "m1" 3 (2 # 100) Fixtures.one_synced)
         !! "m1" = Some r'
    /\ vector_tokens r = 5
    /\ vector_tokens r' = 3
    /\ vector_tokens r' <> vector_tokens r + 3.
Proof.
  do 2 eexists. split; [vm_compute; reflexivity|].
  split; [vm_compute; reflexivity|].
  split; [reflexivity|]. split; [reflexivity|].
  vm_compute. discriminate.
Qed.

(** One bulk update of the two pending methods: one statement. *)
Lemma bulk_sync_two_pending :
  statements (bulk_update_vector_sync [("m1", 12, 1 # 1000); ("m2", 7, 1 # 1000)]
                Fixtures.two_pending)
  = (statements Fixtures.two_pending
     + length (pages [("m1", 12, 1 # 1000); ("m2", 7, 1 # 1000)]))%nat.
Proof.
  apply (proj2 vector_sync_marks_and_counts
           [("m1", 12, 1 # 1000); ("m2", 7, 1 # 1000)] Fixtures.two_pending).
  - discriminate.
  - apply (bool_decide_unpack _). vm_compute. exact I.
Defined.

(** *** Queries *)

Lemma elem_of_table_rows (table : gmap string row) (r : row) :
  r ∈ table_rows table <-> exists k, table !! k = Some r.
Proof.
  unfold table_rows. rewrite list_elem_of_fmap. split.
  - intros ([k r'] & -> & Hin). exists k. apply elem_of_map_to_list. exact Hin.
  - intros [k Hk]. exists (k, r). split; [reflexivity|].
    apply elem_of_map_to_list. exact Hk.
Qed.

(** C8. [get_methods_to_vectorize] returns at most [limit] tuples, each
    the columns of a row of the table with [vector_status = 'pending']
    and [status = 'ai_processed'] whose payload is an object that does
    not give [is_getter_setter] the value [true]; no row whose payload
    carries that flag is returned. *)
Theorem vectorize_query_excludes_boilerplate limit conn rows conn' :
  get_methods_to_vectorize limit conn = inr (rows, conn') ->
  (Z.of_nat (length rows) <= limit)
  /\ Forall (fun t =>
       exists k r,
         java_methods conn !! k = Some r
         /\ t = vectorize_columns r
         /\ vector_status r = "pending"
         /\ status r = "ai_processed"
         /\ exists j, metadata_json r = Some j
                      /\ jsonb_contains_flag j "is_getter_setter" true = false) rows
  /\ (forall k r j,
        java_methods conn !! k = Some r ->
        metadata_json r = Some j ->
        jsonb_contains_flag j "is_getter_setter" true = true ->
        to_vectorize r = false).
Proof.
  unfold get_methods_to_vectorize. intros Hq.
  destruct (Z.ltb_spec limit 0) as [Hneg|Hpos]; [discriminate Hq|].
  unfold mret, result_ret in Hq. injection Hq as <- <-.
  split; [|split].
  - rewrite length_map, length_take. lia.
  - apply Forall_forall. intros t Ht.
    apply list_elem_of_fmap in Ht as (r & -> & Hr).
    apply subseteq_take in Hr. apply list_elem_of_filter in Hr as [Hsel Hr].
    apply elem_of_table_rows in Hr as [k Hk].
    exists k, r. split; [exact Hk|]. split; [reflexivity|].
    unfold to_vectorize in Hsel.
    apply andb_true_iff in Hsel as [Hsel Hmeta].
    apply andb_true_iff in Hsel as [Hvec Hstat].
    apply String.eqb_eq in Hvec, Hstat.
    split; [exact Hvec|]. split; [exact Hstat|].
    destruct (metadata_json r) as [j|]; [|discriminate Hmeta].
    exists j. split; [reflexivity|]. apply negb_true_iff. exact Hmeta.
  - intros k r j _ Hj Hflag. unfold to_vectorize. rewrite Hj, Hflag.
    apply andb_false_r.
Qed.

(** Of the two pending methods only the one that is not boilerplate is
    fetched. *)
Lemma fetch_two_pending :
  get_methods_to_vectorize 100 Fixtures.two_pending
  = inr ([vectorize_columns
            (Fixtures.stored "m1" "app/Two.java" "h1" "ai_processed"
               "pending" 10 (Some Fixtures.plain_metadata) 0 0%Q)],
         {| java_methods := java_methods Fixtures.two_pending; statements := 1 |})
  /\ Forall (fun t =>
       exists k r,
         java_methods Fixtures.two_pending !! k = Some r
         /\ t = vectorize_columns r
         /\ vector_status r = "pending"
         /\ status r = "ai_processed"
         /\ exists j, metadata_json r = Some j
                      /\ jsonb_contains_flag j "is_getter_setter" true = false)
       [vectorize_columns
          (Fixtures.stored "m1" "app/Two.java" "h1" "ai_processed"
             "pending" 10 (Some Fixtures.plain_metadata) 0 0%Q)].
Proof.
  assert (Hq : get_methods_to_vectorize 100 Fixtures.two_pending
               = inr ([vectorize_columns
                         (Fixtures.stored "m1" "app/Two.java" "h1" "ai_processed"
                            "pending" 10 (Some Fixtures.plain_metadata) 0 0%Q)],
                      {| java_methods := java_methods Fixtures.two_pending;
                         statements := 1 |})).
  { vm_compute. reflexivity. }
  split; [exact Hq|].
  exact (proj1 (proj2 (vectorize_query_excludes_boilerplate _ _ _ _ Hq))).
Defined.

(** *** Staleness *)

Lemma like_any (s : string) : like "%" s = true.
Proof.
  induction s as [|a s IH]; [reflexivity|].
  change (like "%" (String a s)) with (like "" (String a s) || like "%" s).
  rewrite IH. apply orb_true_r.
Qed.

(** A prefix free of special characters followed by [%] matches exactly
    the strings that start with the prefix. *)
Lemma like_literal_prefix (p : string) : forall s,
  like_literal p = true -> like (p +:+ "%") s = String.prefix p s.
Proof.
  induction p as [|c p IH]; intros s Hlit.
  - change ("" +:+ "%") with "%". rewrite like_any. destruct s; reflexivity.
  - simpl in Hlit. apply andb_true_iff in Hlit as [Hc Hlit].
    unfold like_special in Hc. apply negb_true_iff in Hc.
    apply orb_false_iff in Hc as [Hc Hbs]. apply orb_false_iff in Hc as [Hpc Hus].
    change (String c p +:+ "%") with (String c (p +:+ "%")).
    simpl. rewrite Hpc, Hus, Hbs.
    destruct s as [|a s]; [reflexivity|].
    rewrite IH by exact Hlit. simpl String.prefix.
    destruct (ascii_dec c a) as [->|Hne].
    + rewrite Ascii.eqb_refl. reflexivity.
    + destruct (Ascii.eqb_spec a c) as [->|_]; [congruence | reflexivity].
Qed.

(** The identities returned are those of the rows the [WHERE] clause
    selects. *)
Lemma get_stale_methods_selects prefix t conn i :
  i ∈ (get_stale_methods prefix t conn).1 <->
  exists k r, java_methods conn !! k = Some r /\ id r = i
              /\ like (prefix +:+ "%") (source_path r) = true
              /\ last_seen_at r < t.
Proof.
  unfold get_stale_methods. simpl. rewrite list_elem_of_fmap. split.
  - intros (r & -> & Hr). apply list_elem_of_filter in Hr as [Hsel Hr].
    apply elem_of_table_rows in Hr as [k Hk].
    unfold is_stale in Hsel. apply andb_true_iff in Hsel as [Hlike Hseen].
    exists k, r. repeat split; [exact Hk | exact Hlike | apply Z.ltb_lt, Hseen].
  - intros (k & r & Hk & <- & Hlike & Hseen). exists r. split; [reflexivity|].
    apply list_elem_of_filter. split.
    + unfold is_stale. rewrite Hlike. apply Z.ltb_lt in Hseen. rewrite Hseen.
      reflexivity.
    + apply elem_of_table_rows. exists k. exact Hk.
Qed.

(** For a prefix free of special characters the claim holds: exactly
    the identities of the rows under the prefix last seen before the
    scan started. *)
Lemma get_stale_methods_literal prefix t conn i :
  like_literal prefix = true ->
  i ∈ (get_stale_methods prefix t conn).1 <->
  exists k r, java_methods conn !! k = Some r /\ id r = i
              /\ PyStr.startswith (source_path r) prefix = true
              /\ last_seen_at r < t.
Proof.
  intros Hlit. rewrite get_stale_methods_selects. unfold PyStr.startswith.
  split; intros (k & r & Hk & Hid & Hp & Hseen); exists k, r;
    (repeat split; [exact Hk | exact Hid | | exact Hseen]).
  - rewrite <- (like_literal_prefix prefix _ Hlit). exact Hp.
  - rewrite (like_literal_prefix prefix _ Hlit). exact Hp.
Qed.

(** C5 fails on a prefix that holds a character special to [LIKE]: for
    the scope [my_app], the row of [my-app/src/Main.java], which is not
    under that prefix, is reported stale. *)
Theorem stale_query_reads_prefix_as_pattern :
  (get_stale_methods "my_app" 20 Fixtures.other_directory).1 = ["m1"]
  /\ (exists r, java_methods Fixtures.other_directory !! "m1" = Some r
                /\ source_path r = "my-app/src/Main.java"
                /\ PyStr.startswith (source_path r) "my_app" = false).
Proof.
  split; [vm_compute; reflexivity|].
  eexists. split; [vm_compute; reflexivity|]. split; reflexivity.
Qed.

End StoreFacts.

(** ** Failures of extraction *)

Module ScanFacts.

Import JavaExtractor Scan.

Section Scan.
Context `{Digest} `{Host}.

Lemma scan_files_contributions root directory files : forall all_methods,
  scan_files root directory files all_methods
  = all_methods ++ concat (map (contribution directory root) files).
Proof.
  induction files as [|file files IH]; intros all_methods.
  - simpl. rewrite app_nil_r. reflexivity.
  - simpl. unfold contribution at 1.
    destruct (is_java_source file); rewrite IH.
    + rewrite <- app_assoc. reflexivity.
    + reflexivity.
Qed.

Lemma scan_walk_contributions directory walk : forall all_methods,
  scan_walk directory walk all_methods
  = all_methods
    ++ concat (map (fun rf => concat (map (contribution directory rf.1) rf.2)) walk).
Proof.
  induction walk as [|[root files] walk IH]; intros all_methods.
  - simpl. rewrite app_nil_r. reflexivity.
  - simpl. rewrite IH, scan_files_contributions, <- app_assoc. reflexivity.
Qed.

(** C9. A root directory that does not exist gives the empty list. A
    file that cannot be read, that the parser refuses (with a syntax
    error or with anything else) or on which the extraction raises
    contributes no record. The result of the scan is the concatenation,
    in the order of the walk, of what each Java source file contributes,
    so a file that fails takes nothing from the files before and after
    it. *)
Theorem extraction_failures_are_local :
  (forall directory,
     os_path_exists directory = false -> extract_from_directory directory = [])
  /\ (forall file_path repo_root e,
        read_text file_path = inl e -> parse_file file_path repo_root = [])
  /\ (forall file_path repo_root code e,
        read_text file_path = inr code ->
        javalang_parse code = inl e ->
        parse_file file_path repo_root = [])
  /\ (forall file_path repo_root code tree e,
        read_text file_path = inr code ->
        javalang_parse code = inr tree ->
        extract_methods_from_tree tree (str_splitlines code)
          (build_file_context tree (os_path_relpath file_path repo_root)) = inl e ->
        parse_file file_path repo_root = [])
  /\ (forall directory,
        os_path_exists directory = true ->
        extract_from_directory directory
        = concat (map (fun rf => concat (map (contribution directory rf.1) rf.2))
                    (os_walk directory)))
  /\ (forall directory root before file after,
        contribution directory root file = [] ->
        concat (map (contribution directory root) (before ++ file :: after))
        = concat (map (contribution directory root) (before ++ after))).
Proof.
  repeat match goal with |- _ /\ _ => split end.
  - intros directory Hmissing. unfold extract_from_directory.
    rewrite Hmissing. reflexivity.
  - intros file_path repo_root e Hread. unfold parse_file.
    rewrite Hread. reflexivity.
  - intros file_path repo_root code e Hread Hparse. unfold parse_file.
    rewrite Hread, Hparse. destruct e; reflexivity.
  - intros file_path repo_root code tree e Hread Hparse Hextract.
    unfold parse_file. rewrite Hread, Hparse, Hextract. reflexivity.
  - intros directory Hexists. unfold extract_from_directory.
    rewrite Hexists. simpl. apply scan_walk_contributions.
  - intros directory root before file after Hnone.
    rewrite !map_app, !concat_app. rewrite map_cons.
    change (concat (contribution directory root file
                    :: map (contribution directory root) after))
      with (contribution directory root file
            ++ concat (map (contribution directory root) after)).
    rewrite Hnone. reflexivity.
Qed.

End Scan.

(** The small repository: the root that does not exist, the file that
    does not parse, and the scan that goes past it. *)
Lemma small_repository_scan :
  @extract_from_directory Fixtures.transparent_digest Fixtures.small_repository
    "elsewhere" = []
  /\ @parse_file Fixtures.transparent_digest Fixtures.small_repository
       "repo/app/Broken.java" "repo" = []
  /\ @extract_from_directory Fixtures.transparent_digest Fixtures.small_repository
       "repo"
     = @parse_file Fixtures.transparent_digest Fixtures.small_repository
         "repo/app/Two.java" "repo".
Proof.
  pose proof (@extraction_failures_are_local Fixtures.transparent_digest
                Fixtures.small_repository)
    as (Hmissing & _ & Hsyntax & _ & Hscan & _).
  split; [|split].
  - apply Hmissing. reflexivity.
  - apply (Hsyntax _ _ "class {" JavaSyntaxError); reflexivity.
  - rewrite Hscan by reflexivity. vm_compute. reflexivity.
Defined.

End ScanFacts.

(** ** The store as a whole *)

Module StoreExtras.

Import PostgresDatastore Reconciliation StoreInvariants.

(** *** What each operation does to one key *)

(** A statement that passes is the fold of the per-row effect. *)
Lemma upsert_statement_returns d page table table' :
  upsert_statement d page table = inr table' ->
  NoDup (map key_of page) /\ table' = foldl (upsert_row d) table page.
Proof.
  unfold upsert_statement. case_bool_decide as Hnd; [|discriminate].
  intros Heq. injection Heq as <-. split; [exact Hnd | reflexivity].
Qed.

Lemma execute_pages_upsert_returns d ps : forall table sent table' sent',
  execute_pages (upsert_statement d) ps table sent = inr (table', sent') ->
  table' = foldl (upsert_row d) table (concat ps)
  /\ sent' = (sent + length ps)%nat
  /\ Forall (fun p => NoDup (map key_of p)) ps.
Proof.
  induction ps as [|p ps IH]; intros table sent table' sent' Hrun.
  - simpl in Hrun. injection Hrun as <- <-.
    repeat split; [simpl; lia | constructor].
  - rewrite StoreFacts.execute_pages_cons in Hrun.
    destruct (upsert_statement d p table) as [e|table1] eqn:Hp;
      [discriminate Hrun|].
    apply upsert_statement_returns in Hp as [Hnd ->].
    apply IH in Hrun as (-> & -> & Hall).
    change (concat (p :: ps)) with (p ++ concat ps). rewrite foldl_app.
    repeat split; [simpl; lia | constructor; assumption].
Qed.

(** What [upsert_methods] returns, when it returns. *)
Lemma upsert_methods_returns d current_now methods conn conn' :
  upsert_methods d current_now methods conn = inr conn' ->
  java_methods conn'
  = foldl (upsert_row d) (java_methods conn) (upsert_data current_now methods)
  /\ statements conn'
     = (statements conn + length (pages (upsert_data current_now methods)))%nat.
Proof.
  unfold upsert_methods. intros Hrun.
  destruct (execute_pages (upsert_statement d)
              (pages (upsert_data current_now methods))
              (java_methods conn) (statements conn)) as [e|[table sent]] eqn:Hpages;
    [discriminate Hrun|].
  injection Hrun as <-. simpl.
  apply execute_pages_upsert_returns in Hpages as (-> & -> & _).
  rewrite StoreFacts.concat_pages. split; reflexivity.
Qed.

Lemma upsert_data_keys current_now methods :
  map key_of (upsert_data current_now methods) = map JavaExtractor.id methods.
Proof. unfold upsert_data. rewrite map_map. reflexivity. Qed.

Lemma update_ai_enrichment_lookup method_id summary details acc meta tokens cost
    processed conn k :
  java_methods (update_ai_enrichment method_id summary details acc meta tokens
                  cost processed conn) !! k
  = if decide (k = method_id)
    then set_ai_enrichment summary details acc meta tokens cost processed
           <$> java_methods conn !! k
    else java_methods conn !! k.
Proof.
  unfold update_ai_enrichment. simpl.
  destruct (decide (k = method_id)) as [->|Hne].
  - destruct (java_methods conn !! method_id) as [r|] eqn:Hr.
    + rewrite lookup_insert_eq. reflexivity.
    + rewrite Hr. reflexivity.
  - destruct (java_methods conn !! method_id); [|reflexivity].
    apply lookup_insert_ne. congruence.
Qed.

Lemma update_vector_sync_status_lookup method_id tokens cost conn k :
  java_methods (update_vector_sync_status method_id tokens cost conn) !! k
  = if decide (k = method_id)
    then set_vector_synced tokens cost <$> java_methods conn !! k
    else java_methods conn !! k.
Proof.
  unfold update_vector_sync_status. simpl.
  destruct (decide (k = method_id)) as [->|Hne].
  - destruct (java_methods conn !! method_id) as [r|] eqn:Hr.
    + rewrite lookup_insert_eq. reflexivity.
    + rewrite Hr. reflexivity.
  - destruct (java_methods conn !! method_id); [|reflexivity].
    apply lookup_insert_ne. congruence.
Qed.

Lemma update_vector_sync_status_batch_lookup method_ids new_status conn k :
  java_methods (update_vector_sync_status_batch method_ids new_status conn) !! k
  = if decide (k ∈ method_ids)
    then set_vector_status new_status <$> java_methods conn !! k
    else java_methods conn !! k.
Proof.
  unfold update_vector_sync_status_batch.
  destruct method_ids as [|i ids].
  - destruct (decide (k ∈ [])) as [Hin|_]; [inversion Hin | reflexivity].
  - simpl. rewrite map_lookup_imap.
    destruct (java_methods conn !! k) as [r|]; simpl.
    + case_bool_decide; destruct (decide (k ∈ i :: ids)); try contradiction;
        reflexivity.
    + destruct (decide (k ∈ i :: ids)); reflexivity.
Qed.

Lemma delete_methods_by_id_lookup method_ids conn k :
  java_methods (delete_methods_by_id method_ids conn) !! k
  = if decide (k ∈ method_ids) then None else java_methods conn !! k.
Proof.
  unfold delete_methods_by_id.
  destruct method_ids as [|i ids].
  - destruct (decide (k ∈ [])) as [Hin|_]; [inversion Hin | reflexivity].
  - simpl. destruct (decide (k ∈ i :: ids)) as [Hin|Hnot].
    + apply map_lookup_filter_None. right. intros r _ Hkeep. simpl in Hkeep.
      contradiction.
    + destruct (java_methods conn !! k) as [r|] eqn:Hr.
      * apply map_lookup_filter_Some. split; [exact Hr | exact Hnot].
      * apply map_lookup_filter_None. left. exact Hr.
Qed.

(** One page of a bulk update changes a row, if at all, by
    [set_vector_synced]. *)
Lemma bulk_statement_lookup page table table' k :
  bulk_statement page table = inr table' ->
  table' !! k =
  match find_usage k page with
  | Some (tokens, cost) => set_vector_synced tokens cost <$> table !! k
  | None => table !! k
  end.
Proof.
  unfold bulk_statement, mret, result_ret. intros Heq. injection Heq as <-.
  rewrite map_lookup_imap.
  destruct (table !! k) as [r|], (find_usage k page) as [[tokens cost]|];
    reflexivity.
Qed.

(** A property of tables that every statement keeps is kept by the
    pages of [execute_values]. *)
Lemma execute_pages_invariant {A} (run : list A -> gmap string row -> result (gmap string row))
    (P : gmap string row -> Prop) :
  (forall p t t', run p t = inr t' -> P t -> P t') ->
  forall ps table sent table' sent',
    execute_pages run ps table sent = inr (table', sent') -> P table -> P table'.
Proof.
  intros Hstep. induction ps as [|p ps IH]; intros table sent table' sent' Hrun HP.
  - simpl in Hrun. injection Hrun as <- _. exact HP.
  - rewrite StoreFacts.execute_pages_cons in Hrun.
    destruct (run p table) as [e|table1] eqn:Hp; [discriminate Hrun|].
    eapply IH; [exact Hrun|]. eapply Hstep; eassumption.
Qed.

(** [bulk_update_vector_sync] never fails in the model: its pages
    always pass. *)
Lemma bulk_pages_return ps : forall table sent,
  exists table',
    execute_pages bulk_statement ps table sent = inr (table', (sent + length ps)%nat).
Proof.
  induction ps as [|p ps IH]; intros table sent.
  - exists table. simpl. rewrite Nat.add_0_r. reflexivity.
  - rewrite StoreFacts.execute_pages_cons.
    destruct (bulk_statement p table) as [e|table1] eqn:Hp;
      [discriminate Hp|].
    unfold mbind, result_bind.
    destruct (IH table1 (S sent)) as [table' Hrun]. exists table'. rewrite Hrun.
    simpl length. do 2 f_equal. lia.
Qed.

(** *** Rows stay under their key *)

Lemma keyed_upsert_row d table v :
  keyed table -> keyed (upsert_row d table v).
Proof.
  intros Hkeyed k r Hr.
  destruct (decide (k = key_of v)) as [->|Hne].
  - rewrite StoreFacts.upsert_row_self in Hr. injection Hr as <-.
    unfold reconciled. destruct (table !! key_of v) as [old|] eqn:Hold.
    + simpl. apply Hkeyed. exact Hold.
    + reflexivity.
  - rewrite StoreFacts.upsert_row_other in Hr by exact Hne.
    apply Hkeyed. exact Hr.
Qed.

Lemma keyed_upsert_fold d data : forall table,
  keyed table -> keyed (foldl (upsert_row d) table data).
Proof.
  induction data as [|v data IH]; intros table Hkeyed; [exact Hkeyed|].
  simpl. apply IH, keyed_upsert_row, Hkeyed.
Qed.

(** An operation that maps every row to a row of the same [id], or
    drops it, keeps the rows keyed. *)
Lemma keyed_rowwise (table table' : gmap string row) :
  (forall k r', table' !! k = Some r' ->
     exists r, table !! k = Some r /\ id r' = id r) ->
  keyed table -> keyed table'.
Proof.
  intros Hrows Hkeyed k r' Hr'.
  destruct (Hrows k r' Hr') as (r & Hr & ->). apply Hkeyed. exact Hr.
Qed.

Lemma keyed_bulk_statement page table table' :
  bulk_statement page table = inr table' -> keyed table -> keyed table'.
Proof.
  intros Hstmt. apply keyed_rowwise. intros k r' Hr'.
  rewrite (bulk_statement_lookup _ _ _ k Hstmt) in Hr'.
  destruct (find_usage k page) as [[tokens cost]|].
  - destruct (table !! k) as [r|]; [|discriminate Hr'].
    injection Hr' as <-. exists r. split; reflexivity.
  - exists r'. split; [exact Hr' | reflexivity].
Qed.

Lemma keyed_upsert_methods d current_now methods conn conn' :
  keyed (java_methods conn) ->
  upsert_methods d current_now methods conn = inr conn' ->
  keyed (java_methods conn').
Proof.
  intros Hkeyed Hrun. apply upsert_methods_returns in Hrun as [-> _].
  apply keyed_upsert_fold, Hkeyed.
Qed.

Lemma keyed_update_ai_enrichment conn method_id summary details acc meta tokens
    cost processed :
  keyed (java_methods conn) ->
  keyed (java_methods (update_ai_enrichment method_id summary details acc meta
                         tokens cost processed conn)).
Proof.
  apply keyed_rowwise. intros k r' Hr'.
  rewrite update_ai_enrichment_lookup in Hr'.
  destruct (decide (k = method_id)); [|eauto].
  destruct (java_methods conn !! k) as [r|]; [|discriminate Hr'].
  injection Hr' as <-. exists r. split; reflexivity.
Qed.

Lemma keyed_update_vector_sync_status conn method_id tokens cost :
  keyed (java_methods conn) ->
  keyed (java_methods (update_vector_sync_status method_id tokens cost conn)).
Proof.
  apply keyed_rowwise. intros k r' Hr'.
  rewrite update_vector_sync_status_lookup in Hr'.
  destruct (decide (k = method_id)); [|eauto].
  destruct (java_methods conn !! k) as [r|]; [|discriminate Hr'].
  injection Hr' as <-. exists r. split; reflexivity.
Qed.

Lemma keyed_update_vector_sync_status_batch conn method_ids new_status :
  keyed (java_methods conn) ->
  keyed (java_methods (update_vector_sync_status_batch method_ids new_status conn)).
Proof.
  apply keyed_rowwise. intros k r' Hr'.
  rewrite update_vector_sync_status_batch_lookup in Hr'.
  destruct (decide (k ∈ method_ids)); [|eauto].
  destruct (java_methods conn !! k) as [r|]; [|discriminate Hr'].
  injection Hr' as <-. exists r. split; reflexivity.
Qed.

Lemma keyed_bulk_update_vector_sync conn update_data :
  keyed (java_methods conn) ->
  keyed (java_methods (bulk_update_vector_sync update_data conn)).
Proof.
  intros Hkeyed. unfold bulk_update_vector_sync.
  destruct update_data as [|u data]; [exact Hkeyed|].
  destruct (bulk_pages_return (pages (u :: data)) (java_methods conn)
              (statements conn)) as [table' Hrun].
  rewrite Hrun. simpl.
  exact (execute_pages_invariant bulk_statement keyed keyed_bulk_statement
           _ _ _ _ _ Hrun Hkeyed).
Qed.

Lemma keyed_delete_methods_by_id conn method_ids :
  keyed (java_methods conn) ->
  keyed (java_methods (delete_methods_by_id method_ids conn)).
Proof.
  apply keyed_rowwise. intros k r' Hr'.
  rewrite delete_methods_by_id_lookup in Hr'.
  destruct (decide (k ∈ method_ids)); [discriminate Hr'|eauto].
Qed.

(** X1. Every operation of the store keeps each row under the key that
    is its [id]: no statement moves a row to another identity or
    rewrites the [id] column. *)
Theorem store_operations_keep_rows_keyed conn :
  keyed (java_methods conn) ->
  (forall d current_now methods conn',
     upsert_methods d current_now methods conn = inr conn' ->
     keyed (java_methods conn'))
  /\ (forall method_id summary details acc meta tokens cost processed,
        keyed (java_methods (update_ai_enrichment method_id summary details acc
                               meta tokens cost processed conn)))
  /\ (forall method_id tokens cost,
        keyed (java_methods (update_vector_sync_status method_id tokens cost conn)))
  /\ (forall method_ids new_status,
        keyed (java_methods (update_vector_sync_status_batch method_ids
                               new_status conn)))
  /\ (forall update_data,
        keyed (java_methods (bulk_update_vector_sync update_data conn)))
  /\ (forall method_ids,
        keyed (java_methods (delete_methods_by_id method_ids conn))).
Proof.
  intros Hkeyed. repeat match goal with |- _ /\ _ => split end.
  - intros d current_now methods conn'. apply keyed_upsert_methods, Hkeyed.
  - intros. apply keyed_update_ai_enrichment, Hkeyed.
  - intros. apply keyed_update_vector_sync_status, Hkeyed.
  - intros. apply keyed_update_vector_sync_status_batch, Hkeyed.
  - intros. apply keyed_bulk_update_vector_sync, Hkeyed.
  - intros. apply keyed_delete_methods_by_id, Hkeyed.
Qed.

Lemma one_synced_keyed : keyed (java_methods Fixtures.one_synced).
Proof.
  intros k r Hr. unfold Fixtures.one_synced in Hr. cbn [java_methods] in Hr.
  apply lookup_singleton_Some in Hr as [<- <-]. reflexivity.
Qed.

(** The store with one method, after its bulk synchronisation. *)
Lemma one_synced_stays_keyed :
  keyed (java_methods (bulk_update_vector_sync [("m1", 9, 1 # 1000)]
                         Fixtures.one_synced)).
Proof.
  apply (store_operations_keep_rows_keyed Fixtures.one_synced one_synced_keyed).
Defined.

(** *** Which rows exist *)

Lemma dom_upsert_row d table v :
  dom (upsert_row d table v) = {[ key_of v ]} ∪ dom table.
Proof.
  unfold upsert_row. change (id (inserted_row d v)) with (key_of v).
  destruct (table !! key_of v); apply dom_insert_L.
Qed.

Lemma dom_upsert_fold d data : forall table,
  dom (foldl (upsert_row d) table data)
  = dom table ∪ list_to_set (map key_of data).
Proof.
  induction data as [|v data IH]; intros table; simpl.
  - rewrite union_empty_r_L. reflexivity.
  - rewrite IH, dom_upsert_row.
    rewrite (union_comm_L {[ key_of v ]} (dom table)), <- (assoc_L (∪)).
    reflexivity.
Qed.

(** An operation that maps every row to some row has the same keys. *)
Lemma dom_rowwise (table table' : gmap string row) :
  (forall k, is_Some (table' !! k) <-> is_Some (table !! k)) ->
  dom table' = dom table.
Proof.
  intros Hsame. apply set_eq. intros k. rewrite !elem_of_dom. apply Hsame.
Qed.

Lemma dom_bulk_statement page table table' :
  bulk_statement page table = inr table' -> dom table' = dom table.
Proof.
  intros Hstmt. apply dom_rowwise. intros k.
  rewrite (bulk_statement_lookup _ _ _ k Hstmt).
  destruct (find_usage k page) as [[tokens cost]|]; [|reflexivity].
  apply fmap_is_Some.
Qed.

(** X2. Only [upsert_methods] adds rows, and it adds exactly the
    identities of the batch that were not stored; only
    [delete_methods_by_id] removes rows, and it removes exactly the
    listed identities that were stored. The enrichment and the three
    vector updates neither create a row for an unknown identity nor
    drop one. *)
Theorem only_upsert_adds_only_delete_removes conn :
  (forall d current_now methods conn',
     upsert_methods d current_now methods conn = inr conn' ->
     dom (java_methods conn')
     = dom (java_methods conn) ∪ list_to_set (map JavaExtractor.id methods))
  /\ (forall method_id summary details acc meta tokens cost processed,
        dom (java_methods (update_ai_enrichment method_id summary details acc
                             meta tokens cost processed conn))
        = dom (java_methods conn))
  /\ (forall method_id tokens cost,
        dom (java_methods (update_vector_sync_status method_id tokens cost conn))
        = dom (java_methods conn))
  /\ (forall method_ids new_status,
        dom (java_methods (update_vector_sync_status_batch method_ids
                             new_status conn))
        = dom (java_methods conn))
  /\ (forall update_data,
        dom (java_methods (bulk_update_vector_sync update_data conn))
        = dom (java_methods conn))
  /\ (forall method_ids,
        dom (java_methods (delete_methods_by_id method_ids conn))
        = dom (java_methods conn) ∖ list_to_set method_ids).
Proof.
  repeat match goal with |- _ /\ _ => split end.
  - intros d current_now methods conn' Hrun.
    apply upsert_methods_returns in Hrun as [-> _].
    rewrite dom_upsert_fold, upsert_data_keys. reflexivity.
  - intros. apply dom_rowwise. intros k.
    rewrite update_ai_enrichment_lookup.
    destruct (decide (k = method_id)); [apply fmap_is_Some | reflexivity].
  - intros. apply dom_rowwise. intros k.
    rewrite update_vector_sync_status_lookup.
    destruct (decide (k = method_id)); [apply fmap_is_Some | reflexivity].
  - intros. apply dom_rowwise. intros k.
    rewrite update_vector_sync_status_batch_lookup.
    destruct (decide (k ∈ method_ids)); [apply fmap_is_Some | reflexivity].
  - intros update_data. unfold bulk_update_vector_sync.
    destruct update_data as [|u data]; [reflexivity|].
    destruct (bulk_pages_return (pages (u :: data)) (java_methods conn)
                (statements conn)) as [table' Hrun].
    rewrite Hrun. simpl.
    apply (execute_pages_invariant bulk_statement
             (fun t => dom t = dom (java_methods conn))
             (fun p t t' Hp Ht => eq_trans (dom_bulk_statement p t t' Hp) Ht)
             _ _ _ _ _ Hrun eq_refl).
  - intros method_ids. apply set_eq. intros k.
    rewrite elem_of_difference, !elem_of_dom, elem_of_list_to_set,
      delete_methods_by_id_lookup.
    destruct (decide (k ∈ method_ids)) as [Hin|Hnot].
    + split; [intros [? ?]; discriminate | intros [_ Hno]; contradiction].
    + split; [intros Hsome; split; assumption | intros [Hsome _]; exact Hsome].
Qed.

(** A second scan of a store with one method finds one more. *)
Lemma rescan_adds_one_row :
  match upsert_methods Fixtures.defaults 20
          [Fixtures.scanned "m1" "h1"; Fixtures.scanned "m2" "h2"]
          Fixtures.one_synced with
  | inr conn' =>
      dom (java_methods conn')
      = dom (java_methods Fixtures.one_synced) ∪ list_to_set ["m1"; "m2"]
  | inl _ => False
  end.
Proof.
  destruct (upsert_methods Fixtures.defaults 20
              [Fixtures.scanned "m1" "h1"; Fixtures.scanned "m2" "h2"]
              Fixtures.one_synced) as [e|conn'] eqn:Hrun.
  - vm_compute in Hrun. discriminate Hrun.
  - apply (proj1 (only_upsert_adds_only_delete_removes Fixtures.one_synced)
             Fixtures.defaults 20
             [Fixtures.scanned "m1" "h1"; Fixtures.scanned "m2" "h2"] conn' Hrun).
Defined.

(** *** Batches that repeat an identity *)

(** Up to a hundred tuples go in one statement. *)
Lemma pages_single {A} (args : list A) :
  args <> [] -> (length args <= 100)%nat -> pages args = [args].
Proof.
  intros Hne Hlen. destruct args as [|x args]; [congruence|].
  unfold pages, page_size.
  change (paginate (length (x :: args)) 100 (x :: args))
    with (take 100 (x :: args) :: paginate (length args) 100 (drop 100 (x :: args))).
  rewrite take_ge by exact Hlen. rewrite drop_ge by exact Hlen.
  destruct (length args); reflexivity.
Qed.

(** A batch of at most a hundred records that repeats an identity is
    refused. *)
Lemma upsert_methods_refuses d current_now methods conn :
  (length methods <= 100)%nat ->
  ~ NoDup (map JavaExtractor.id methods) ->
  upsert_methods d current_now methods conn = inl CardinalityViolation.
Proof.
  intros Hlen Hdup. unfold upsert_methods.
  assert (Hne : upsert_data current_now methods <> []).
  { destruct methods; [|discriminate]. exfalso. apply Hdup. constructor. }
  rewrite pages_single; [|exact Hne|].
  - rewrite StoreFacts.execute_pages_cons. unfold upsert_statement.
    rewrite bool_decide_eq_false_2; [reflexivity|].
    change (map (fun v => JavaExtractor.id (v_method v))
              (upsert_data current_now methods))
      with (map key_of (upsert_data current_now methods)).
    rewrite upsert_data_keys. exact Hdup.
  - unfold upsert_data. rewrite length_map. exact Hlen.
Qed.

(** X3. A batch of at most a hundred records, which [execute_values]
    sends as one statement, and in which one identity occurs twice, is
    refused by [upsert_methods] with PostgreSQL's cardinality violation:
    [ON CONFLICT DO UPDATE] does not touch one row twice. *)
Theorem upsert_rejects_repeated_identity d current_now methods conn :
  (length methods <= 100)%nat ->
  ~ NoDup (map JavaExtractor.id methods) ->
  upsert_methods d current_now methods conn = inl CardinalityViolation.
Proof. apply upsert_methods_refuses. Qed.

(** One method scanned twice in a batch. *)
Lemma repeated_scan_refused :
  upsert_methods Fixtures.defaults 20
    [Fixtures.scanned "m1" "h1"; Fixtures.scanned "m1" "h1"]
    Fixtures.one_synced = inl CardinalityViolation.
Proof.
  apply (upsert_rejects_repeated_identity Fixtures.defaults 20
           [Fixtures.scanned "m1" "h1"; Fixtures.scanned "m1" "h1"]
           Fixtures.one_synced).
  - simpl. lia.
  - intros Hnd. apply (bool_decide_pack _) in Hnd. vm_compute in Hnd. exact Hnd.
Defined.

(** *** Scans that follow one another *)

(** A batch of distinct identities: the call returns, and each row is
    reconciled against what the table held. *)
Lemma upsert_methods_distinct d current_now methods conn :
  NoDup (map JavaExtractor.id methods) ->
  exists conn',
    upsert_methods d current_now methods conn = inr conn'
    /\ (forall m, m ∈ methods ->
          java_methods conn' !! JavaExtractor.id m
          = Some (reconciled d (java_methods conn !! JavaExtractor.id m)
                    (proposed current_now m)))
    /\ (forall k, k ∉ map JavaExtractor.id methods ->
          java_methods conn' !! k = java_methods conn !! k).
Proof.
  intros Hnd.
  assert (Hnd' : NoDup (map key_of (upsert_data current_now methods)))
    by (rewrite upsert_data_keys; exact Hnd).
  destruct (StoreFacts.upsert_fold_lookup d _ (java_methods conn) Hnd')
    as [Hin Hout].
  eexists. split; [|split].
  - unfold upsert_methods.
    rewrite (StoreFacts.execute_pages_upsert d); [reflexivity|].
    rewrite StoreFacts.concat_pages. exact Hnd'.
  - intros m Hm. simpl. rewrite StoreFacts.concat_pages.
    apply (Hin (proposed current_now m)).
    unfold upsert_data. apply list_elem_of_fmap.
    exists m. split; [reflexivity | exact Hm].
  - intros k Hk. simpl. rewrite StoreFacts.concat_pages.
    apply Hout. rewrite upsert_data_keys. exact Hk.
Qed.

(** Reconciling a row with the record it was just reconciled with only
    moves [last_seen_at]. *)
Lemma reconciled_again d before m t1 t2 :
  reconciled d (Some (reconciled d before (proposed t1 m))) (proposed t2 m)
  = seen_at t2 (reconciled d before (proposed t1 m)).
Proof.
  destruct before as [old|]; unfold reconciled, conflict_update, seen_at; simpl;
    rewrite String.eqb_refl; reflexivity.
Qed.

(** X4. Ingesting the same batch a second time changes nothing in the
    rows of the batch but [last_seen_at], which becomes the time of the
    second scan, and nothing in the other rows: in particular the two
    progress markers are what the first ingestion left. With the same
    scan time the table is the very same. *)
Theorem reingestion_only_moves_last_seen d t1 t2 methods conn :
  NoDup (map JavaExtractor.id methods) ->
  exists conn1 conn2,
    upsert_methods d t1 methods conn = inr conn1
    /\ upsert_methods d t2 methods conn1 = inr conn2
    /\ (forall m, m ∈ methods ->
          exists r1,
            java_methods conn1 !! JavaExtractor.id m = Some r1
            /\ java_methods conn2 !! JavaExtractor.id m = Some (seen_at t2 r1)
            /\ last_seen_at r1 = t1)
    /\ (forall k, k ∉ map JavaExtractor.id methods ->
          java_methods conn2 !! k = java_methods conn !! k)
    /\ (t1 = t2 -> java_methods conn2 = java_methods conn1).
Proof.
  intros Hnd.
  destruct (upsert_methods_distinct d t1 methods conn Hnd)
    as (conn1 & Hrun1 & Hin1 & Hout1).
  destruct (upsert_methods_distinct d t2 methods conn1 Hnd)
    as (conn2 & Hrun2 & Hin2 & Hout2).
  exists conn1, conn2. repeat match goal with |- _ /\ _ => split end.
  - exact Hrun1.
  - exact Hrun2.
  - intros m Hm. eexists. split; [apply Hin1, Hm|]. split.
    + rewrite (Hin2 m Hm), (Hin1 m Hm). f_equal. apply reconciled_again.
    + destruct (java_methods conn !! JavaExtractor.id m); reflexivity.
  - intros k Hk. rewrite (Hout2 k Hk). apply Hout1, Hk.
  - intros <-. apply map_eq. intros k.
    destruct (decide (k ∈ map JavaExtractor.id methods)) as [Hk|Hk].
    + apply list_elem_of_fmap in Hk as (m & -> & Hm).
      rewrite (Hin2 m Hm), (Hin1 m Hm), reconciled_again. f_equal.
      destruct (java_methods conn !! JavaExtractor.id m);
        unfold seen_at, reconciled, conflict_update; reflexivity.
    + apply Hout2, Hk.
Qed.

(** The vectorised method scanned twice with an unchanged body. *)
Lemma unchanged_rescans :
  exists conn1 conn2,
    upsert_methods Fixtures.defaults 20 [Fixtures.scanned "m1" "h1"]
      Fixtures.one_synced = inr conn1
    /\ upsert_methods Fixtures.defaults 30 [Fixtures.scanned "m1" "h1"] conn1
       = inr conn2
    /\ exists r1,
         java_methods conn1 !! "m1" = Some r1
         /\ java_methods conn2 !! "m1" = Some (seen_at 30 r1).
Proof.
  destruct (reingestion_only_moves_last_seen Fixtures.defaults 20 30
              [Fixtures.scanned "m1" "h1"] Fixtures.one_synced)
    as (conn1 & conn2 & Hrun1 & Hrun2 & Hin & _).
  - apply NoDup_singleton.
  - exists conn1, conn2. split; [exact Hrun1|]. split; [exact Hrun2|].
    destruct (Hin (Fixtures.scanned "m1" "h1")) as (r1 & Hr1 & Hr2 & _);
      [apply list_elem_of_here|].
    exists r1. split; [exact Hr1 | exact Hr2].
Defined.

(** X5. When a record meets a stored row, the row keeps the columns the
    [SET] list does not name: the source path, component, package,
    class and method names, visibility and return type it was first
    stored with, whatever the incoming record says, and the enrichment
    columns with the token and cost counters. *)
Theorem upsert_keeps_unlisted_columns d current_now methods conn m old :
  NoDup (map JavaExtractor.id methods) ->
  m ∈ methods ->
  java_methods conn !! JavaExtractor.id m = Some old ->
  exists conn' r,
    upsert_methods d current_now methods conn = inr conn'
    /\ java_methods conn' !! JavaExtractor.id m = Some r
    /\ source_path r = source_path old
    /\ component r = component old
    /\ package_name r = package_name old
    /\ class_name r = class_name old
    /\ method_name r = method_name old
    /\ visibility r = visibility old
    /\ return_type r = return_type old
    /\ ai_summary r = ai_summary old
    /\ ai_details r = ai_details old
    /\ is_doc_accurate r = is_doc_accurate old
    /\ metadata_json r = metadata_json old
    /\ summary_tokens r = summary_tokens old
    /\ vector_tokens r = vector_tokens old
    /\ total_cost r = total_cost old
    /\ processed_at r = processed_at old.
Proof.
  intros Hnd Hm Hold.
  destruct (upsert_methods_distinct d current_now methods conn Hnd)
    as (conn' & Hrun & Hin & _).
  exists conn'. eexists. split; [exact Hrun|]. split.
  - rewrite (Hin m Hm), Hold. reflexivity.
  - repeat match goal with |- _ /\ _ => split end; reflexivity.
Qed.

(** The vectorised [m1] scanned with a new body: the payload and the
    cost of its enrichment are still there. *)
Lemma rescan_keeps_enrichment :
  exists conn' r,
    upsert_methods Fixtures.defaults 20 [Fixtures.scanned "m1" "h1-changed"]
      Fixtures.one_synced = inr conn'
    /\ java_methods conn' !! "m1" = Some r
    /\ metadata_json r = Some Fixtures.plain_metadata
    /\ total_cost r = (1 # 100)%Q.
Proof.
  destruct (upsert_keeps_unlisted_columns Fixtures.defaults 20
              [Fixtures.scanned "m1" "h1-changed"] Fixtures.one_synced
              (Fixtures.scanned "m1" "h1-changed")
              (Fixtures.stored "m1" "app/Two.java" "h1" "ai_processed" "synced" 10
                 (Some Fixtures.plain_metadata) 5 (1 # 100)))
    as (conn' & r & Hrun & Hr & Hcols).
  - apply NoDup_singleton.
  - apply list_elem_of_here.
  - reflexivity.
  - exists conn', r. split; [exact Hrun|]. split; [exact Hr|].
    destruct Hcols as (_ & _ & _ & _ & _ & _ & _ & _ & _ & _ & Hmeta & _ & _ & Hcost & _).
    split; [exact Hmeta | exact Hcost].
Defined.

(** *** The life of a method *)

(** X6. A method that the store does not know is ingested, enriched and
    vectorised; its body then changes, and it is ingested twice more.
    The progress markers go through new/pending, ai_processed/pending,
    ai_processed/synced, then updated/pending, and stay updated/pending
    (not new) on the last ingestion; the payload of the enrichment is
    still stored after the body changed. *)
Theorem lifecycle_rearms_on_change d conn m1 m2 t1 t2 t3
    summary details acc meta tokens cost processed vtokens vcost :
  java_methods conn !! JavaExtractor.id m1 = None ->
  JavaExtractor.id m2 = JavaExtractor.id m1 ->
  JavaExtractor.content_hash m2 <> JavaExtractor.content_hash m1 ->
  exists c1 c4 c5,
    let key := JavaExtractor.id m1 in
    let c2 := update_ai_enrichment key summary details acc meta tokens cost
                processed c1 in
    let c3 := update_vector_sync_status key vtokens vcost c2 in
    upsert_methods d t1 [m1] conn = inr c1
    /\ upsert_methods d t2 [m2] c3 = inr c4
    /\ upsert_methods d t3 [m2] c4 = inr c5
    /\ progress <$> java_methods c1 !! key = Some ("new", "pending")
    /\ progress <$> java_methods c2 !! key = Some ("ai_processed", "pending")
    /\ progress <$> java_methods c3 !! key = Some ("ai_processed", "synced")
    /\ progress <$> java_methods c4 !! key = Some ("updated", "pending")
    /\ progress <$> java_methods c5 !! key = Some ("updated", "pending")
    /\ metadata_json <$> java_methods c5 !! key = Some (Some meta).
Proof.
  intros Hnew Hid Hhash.
  destruct (upsert_methods_distinct d t1 [m1] conn (NoDup_singleton _))
    as (c1 & Hrun1 & Hin1 & _).
  specialize (Hin1 m1 (list_elem_of_here _ _)). rewrite Hnew in Hin1.
  set (key := JavaExtractor.id m1) in *.
  set (c2 := update_ai_enrichment key summary details acc meta tokens cost
               processed c1).
  set (c3 := update_vector_sync_status key vtokens vcost c2).
  assert (H2 : java_methods c2 !! key
               = Some (set_ai_enrichment summary details acc meta tokens cost
                         processed (inserted_row d (proposed t1 m1)))).
  { unfold c2. rewrite update_ai_enrichment_lookup, decide_True by reflexivity.
    rewrite Hin1. reflexivity. }
  assert (H3 : java_methods c3 !! key
               = Some (set_vector_synced vtokens vcost
                         (set_ai_enrichment summary details acc meta tokens cost
                            processed (inserted_row d (proposed t1 m1))))).
  { unfold c3. rewrite update_vector_sync_status_lookup, decide_True by reflexivity.
    rewrite H2. reflexivity. }
  destruct (upsert_methods_distinct d t2 [m2] c3 (NoDup_singleton _))
    as (c4 & Hrun4 & Hin4 & _).
  specialize (Hin4 m2 (list_elem_of_here _ _)). rewrite Hid in Hin4.
  fold key in Hin4. rewrite H3 in Hin4.
  destruct (upsert_methods_distinct d t3 [m2] c4 (NoDup_singleton _))
    as (c5 & Hrun5 & Hin5 & _).
  specialize (Hin5 m2 (list_elem_of_here _ _)). rewrite Hid in Hin5.
  fold key in Hin5. rewrite Hin4 in Hin5.
  assert (Hne : String.eqb (JavaExtractor.content_hash m1)
                  (JavaExtractor.content_hash m2) = false).
  { apply String.eqb_neq. congruence. }
  exists c1, c4, c5. cbv zeta. fold c2 c3.
  repeat match goal with |- _ /\ _ => split end.
  - exact Hrun1.
  - exact Hrun4.
  - exact Hrun5.
  - rewrite Hin1. reflexivity.
  - rewrite H2. reflexivity.
  - rewrite H3. reflexivity.
  - rewrite Hin4. unfold reconciled, conflict_update, progress. simpl.
    rewrite Hne. reflexivity.
  - rewrite Hin5. unfold reconciled, conflict_update, progress. simpl.
    rewrite Hne, String.eqb_refl. reflexivity.
  - rewrite Hin5. reflexivity.
Qed.

(** The method [m2] enters the store of one method and goes through
    the stages. *)
Lemma lifecycle_of_m2 :
  exists c1 c4 c5,
    upsert_methods Fixtures.defaults 20 [Fixtures.scanned "m2" "h2"]
      Fixtures.one_synced = inr c1
    /\ upsert_methods Fixtures.defaults 40 [Fixtures.scanned "m2" "h2-changed"]
         (update_vector_sync_status "m2" 7 (1 # 1000)
            (update_ai_enrichment "m2" "Runs." "One step." true
               Fixtures.plain_metadata 120 (3 # 1000) 30 c1)) = inr c4
    /\ upsert_methods Fixtures.defaults 50 [Fixtures.scanned "m2" "h2-changed"] c4
       = inr c5
    /\ progress <$> java_methods c5 !! "m2" = Some ("updated", "pending").
Proof.
  destruct (lifecycle_rearms_on_change Fixtures.defaults Fixtures.one_synced
              (Fixtures.scanned "m2" "h2") (Fixtures.scanned "m2" "h2-changed")
              20 40 50 "Runs." "One step." true Fixtures.plain_metadata
              120 (3 # 1000) 30 7 (1 # 1000))
    as (c1 & c4 & c5 & Hrun1 & Hrun4 & Hrun5 & _ & _ & _ & _ & Hlast & _).
  - reflexivity.
  - reflexivity.
  - discriminate.
  - exists c1, c4, c5. repeat split; assumption.
Defined.

(** *** The queue of the enrichment *)

#[local] Instance longer_first_total : Total longer_first.
Proof. intros r1 r2. unfold longer_first. lia. Qed.

#[local] Instance longer_first_transitive : Transitive longer_first.
Proof. intros r1 r2 r3. unfold longer_first. lia. Qed.

(** The rows [get_methods_to_analyze] chooses among. *)
Lemma to_analyze_status r :
  to_analyze r = true <-> status r = "new" \/ status r = "updated".
Proof.
  unfold to_analyze. rewrite orb_true_iff, !String.eqb_eq. reflexivity.
Qed.

(** X7. [get_methods_to_analyze] returns the columns of rows of the
    table whose status is [new] or [updated], in order of decreasing
    line count, as many as there are such rows up to [limit]; every such
    row it leaves out is at most as long as every row it returns. A
    negative limit raises. *)
Theorem analyze_query_takes_longest limit conn :
  (limit < 0 -> get_methods_to_analyze limit conn = inl InvalidRowCount)
  /\ (0 <= limit ->
      let eligible :=
        filter (fun r => to_analyze r = true) (table_rows (java_methods conn)) in
      let chosen := rows_to_analyze limit (java_methods conn) in
      get_methods_to_analyze limit conn
      = inr (map analyze_columns chosen,
             {| java_methods := java_methods conn;
                statements := S (statements conn) |})
      /\ length chosen = Nat.min (Z.to_nat limit) (length eligible)
      /\ Forall (fun r => (exists k, java_methods conn !! k = Some r)
                          /\ (status r = "new" \/ status r = "updated")) chosen
      /\ StronglySorted longer_first chosen
      /\ exists rest,
           chosen ++ rest ≡ₚ eligible
           /\ forall x y, x ∈ chosen -> y ∈ rest ->
                (line_count y <= line_count x)%nat).
Proof.
  split.
  - intros Hneg. unfold get_methods_to_analyze.
    apply Z.ltb_lt in Hneg. rewrite Hneg. reflexivity.
  - intros Hpos eligible chosen.
    pose proof (merge_sort_Permutation longer_first eligible) as Hperm.
    pose proof (StronglySorted_merge_sort longer_first eligible) as Hsorted.
    rewrite <- (take_drop (Z.to_nat limit) (merge_sort longer_first eligible))
      in Hsorted.
    repeat match goal with |- _ /\ _ => split end.
    + unfold get_methods_to_analyze.
      destruct (Z.ltb_spec limit 0); [lia | reflexivity].
    + unfold chosen, rows_to_analyze. fold eligible.
      rewrite length_take, Hperm. reflexivity.
    + apply Forall_forall. intros r Hr. unfold chosen, rows_to_analyze in Hr.
      apply subseteq_take in Hr. fold eligible in Hr. rewrite Hperm in Hr.
      apply list_elem_of_filter in Hr as [Hsel Hr].
      split; [apply StoreFacts.elem_of_table_rows, Hr | apply to_analyze_status, Hsel].
    + apply StronglySorted_app_1_l in Hsorted. exact Hsorted.
    + exists (drop (Z.to_nat limit) (merge_sort longer_first eligible)). split.
      * unfold chosen, rows_to_analyze. fold eligible.
        rewrite take_drop. exact Hperm.
      * intros x y Hx Hy.
        exact (StronglySorted_app_1_elem_of _ _ _ _ _ Hsorted Hx Hy).
Qed.

(** The queue of the store with one enriched method is empty. *)
Lemma nothing_to_analyze :
  get_methods_to_analyze 50 Fixtures.one_synced
  = inr ([], {| java_methods := java_methods Fixtures.one_synced;
                statements := 1 |}).
Proof.
  destruct (proj2 (analyze_query_takes_longest 50 Fixtures.one_synced))
    as (Hq & _); [lia|].
  rewrite Hq. vm_compute. reflexivity.
Defined.

(** Every tuple of the analysis queue comes from a row to analyse. *)
Lemma analyze_rows_selected limit conn rows conn' t :
  get_methods_to_analyze limit conn = inr (rows, conn') ->
  t ∈ rows ->
  exists k r, java_methods conn !! k = Some r /\ t = analyze_columns r
              /\ to_analyze r = true.
Proof.
  unfold get_methods_to_analyze. destruct (limit <? 0); [discriminate|].
  unfold mret, result_ret. intros Heq Ht. injection Heq as <- _.
  apply list_elem_of_fmap in Ht as (r & -> & Hr).
  unfold rows_to_analyze in Hr. apply subseteq_take in Hr.
  rewrite merge_sort_Permutation in Hr.
  apply list_elem_of_filter in Hr as [Hsel Hr].
  apply StoreFacts.elem_of_table_rows in Hr as [k Hk].
  exists k, r. repeat split; assumption.
Qed.

(** Every tuple of the vectorisation queue comes from a row to
    vectorise. *)
Lemma vectorize_rows_selected limit conn rows conn' t :
  get_methods_to_vectorize limit conn = inr (rows, conn') ->
  t ∈ rows ->
  exists k r, java_methods conn !! k = Some r /\ t = vectorize_columns r
              /\ to_vectorize r = true.
Proof.
  unfold get_methods_to_vectorize. destruct (limit <? 0); [discriminate|].
  unfold mret, result_ret. intros Heq Ht. injection Heq as <- _.
  apply list_elem_of_fmap in Ht as (r & -> & Hr).
  apply subseteq_take in Hr.
  apply list_elem_of_filter in Hr as [Hsel Hr].
  apply StoreFacts.elem_of_table_rows in Hr as [k Hk].
  exists k, r. repeat split; assumption.
Qed.

Lemma to_vectorize_pending r :
  to_vectorize r = true -> vector_status r = "pending".
Proof.
  unfold to_vectorize. intros Hsel.
  apply andb_true_iff in Hsel as [Hsel _].
  apply andb_true_iff in Hsel as [Hvec _].
  apply String.eqb_eq. exact Hvec.
Qed.

(** X8. Once [update_ai_enrichment] has run for an identity, the
    analysis queue no longer returns it, whatever the limit. *)
Theorem enriched_leaves_analysis_queue conn method_id summary details acc meta
    tokens cost processed limit rows conn' :
  keyed (java_methods conn) ->
  get_methods_to_analyze limit
    (update_ai_enrichment method_id summary details acc meta tokens cost
       processed conn) = inr (rows, conn') ->
  Forall (fun t => first_column t <> method_id) rows.
Proof.
  intros Hkeyed Hq. apply Forall_forall. intros t Ht Hid.
  destruct (analyze_rows_selected _ _ _ _ _ Hq Ht) as (k & r & Hk & -> & Hsel).
  pose proof (keyed_update_ai_enrichment conn method_id summary details acc
                meta tokens cost processed Hkeyed k r Hk) as Hkey.
  change (first_column (analyze_columns r)) with (id r) in Hid.
  rewrite Hid in Hkey. subst k.
  rewrite update_ai_enrichment_lookup, decide_True in Hk by reflexivity.
  destruct (java_methods conn !! method_id) as [r0|]; [|discriminate Hk].
  injection Hk as <-. discriminate Hsel.
Qed.

Lemma other_directory_keyed : keyed (java_methods Fixtures.other_directory).
Proof.
  intros k r Hr. unfold Fixtures.other_directory in Hr. cbn [java_methods] in Hr.
  apply lookup_singleton_Some in Hr as [<- <-]. reflexivity.
Qed.

Lemma two_pending_keyed : keyed (java_methods Fixtures.two_pending).
Proof.
  intros k r Hr. unfold Fixtures.two_pending in Hr. cbn [java_methods] in Hr.
  apply lookup_insert_Some in Hr as [[<- <-]|[_ Hr]]; [reflexivity|].
  apply lookup_singleton_Some in Hr as [<- <-]. reflexivity.
Qed.

(** The new method of [my-app], once enriched, is not queued again. *)
Lemma enriched_not_queued :
  Forall (fun t => first_column t <> "m1")
    (match get_methods_to_analyze 50
             (update_ai_enrichment "m1" "Runs." "One step." true
                Fixtures.plain_metadata 120 (3 # 1000) 30
                Fixtures.other_directory) with
     | inr (rows, _) => rows
     | inl _ => []
     end).
Proof.
  destruct (get_methods_to_analyze 50
              (update_ai_enrichment "m1" "Runs." "One step." true
                 Fixtures.plain_metadata 120 (3 # 1000) 30
                 Fixtures.other_directory)) as [e|[rows conn']] eqn:Hq.
  - constructor.
  - exact (enriched_leaves_analysis_queue _ _ _ _ _ _ _ _ _ _ _ _
             other_directory_keyed Hq).
Defined.

Lemma find_usage_listed key p :
  key ∈ usage_ids p -> exists usage, find_usage key p = Some usage.
Proof.
  induction p as [|[[k t] c] p IH]; intros Hin; [inversion Hin|].
  simpl. destruct (String.eqb_spec k key) as [_|Hne]; [eauto|].
  apply IH. unfold usage_ids in Hin. rewrite map_cons in Hin.
  apply elem_of_cons in Hin as [Heq|Hin]; [simpl in Heq; congruence | exact Hin].
Qed.

(** X9. Once a vector update has marked an identity, the vectorisation
    queue no longer returns it: after [update_vector_sync_status] for
    the identity, after [bulk_update_vector_sync] for each identity of a
    list without repetition, and after
    [update_vector_sync_status_batch] with any status other than
    [pending]. *)
Theorem synced_leaves_vectorization_queue conn :
  keyed (java_methods conn) ->
  (forall method_id tokens cost limit rows conn',
     get_methods_to_vectorize limit
       (update_vector_sync_status method_id tokens cost conn) = inr (rows, conn') ->
     Forall (fun t => first_column t <> method_id) rows)
  /\ (forall update_data limit rows conn',
        NoDup (usage_ids update_data) ->
        get_methods_to_vectorize limit (bulk_update_vector_sync update_data conn)
        = inr (rows, conn') ->
        Forall (fun t => first_column t ∉ usage_ids update_data) rows)
  /\ (forall method_ids new_status limit rows conn',
        new_status <> "pending" ->
        get_methods_to_vectorize limit
          (update_vector_sync_status_batch method_ids new_status conn)
        = inr (rows, conn') ->
        Forall (fun t => first_column t ∉ method_ids) rows).
Proof.
  intros Hkeyed. repeat match goal with |- _ /\ _ => split end.
  - intros method_id tokens cost limit rows conn' Hq.
    apply Forall_forall. intros t Ht Hid.
    destruct (vectorize_rows_selected _ _ _ _ _ Hq Ht) as (k & r & Hk & -> & Hsel).
    pose proof (keyed_update_vector_sync_status conn method_id tokens cost
                  Hkeyed k r Hk) as Hkey.
    change (first_column (vectorize_columns r)) with (id r) in Hid.
    rewrite Hid in Hkey. subst k.
    rewrite update_vector_sync_status_lookup, decide_True in Hk by reflexivity.
    destruct (java_methods conn !! method_id) as [r0|]; [|discriminate Hk].
    injection Hk as <-. apply to_vectorize_pending in Hsel. discriminate Hsel.
  - intros update_data limit rows conn' Hnd Hq.
    apply Forall_forall. intros t Ht Hid.
    destruct (vectorize_rows_selected _ _ _ _ _ Hq Ht) as (k & r & Hk & -> & Hsel).
    pose proof (keyed_bulk_update_vector_sync conn update_data Hkeyed k r Hk)
      as Hkey.
    change (first_column (vectorize_columns r)) with (id r) in Hid.
    rewrite Hkey in Hid.
    unfold bulk_update_vector_sync in Hk.
    destruct update_data as [|u data]; [inversion Hid|].
    assert (Hnd' : NoDup (map (fun u => u.1.1) (concat (pages (u :: data))))).
    { rewrite StoreFacts.concat_pages. exact Hnd. }
    destruct (StoreFacts.execute_pages_bulk (pages (u :: data)) (java_methods conn)
                (statements conn) Hnd') as (table' & Hrun & Hlook).
    rewrite Hrun in Hk. simpl in Hk. rewrite Hlook in Hk.
    rewrite StoreFacts.concat_pages in Hk.
    destruct (find_usage k (u :: data)) as [[tokens cost]|] eqn:Hfind.
    + destruct (java_methods conn !! k) as [r0|]; [|discriminate Hk].
      injection Hk as <-. apply to_vectorize_pending in Hsel. discriminate Hsel.
    + destruct (find_usage_listed k (u :: data) Hid) as [usage Husage].
      congruence.
  - intros method_ids new_status limit rows conn' Hstatus Hq.
    apply Forall_forall. intros t Ht Hid.
    destruct (vectorize_rows_selected _ _ _ _ _ Hq Ht) as (k & r & Hk & -> & Hsel).
    pose proof (keyed_update_vector_sync_status_batch conn method_ids new_status
                  Hkeyed k r Hk) as Hkey.
    change (first_column (vectorize_columns r)) with (id r) in Hid.
    rewrite Hkey in Hid.
    rewrite update_vector_sync_status_batch_lookup, decide_True in Hk by exact Hid.
    destruct (java_methods conn !! k) as [r0|]; [|discriminate Hk].
    injection Hk as <-. apply to_vectorize_pending in Hsel. simpl in Hsel.
    contradiction.
Qed.

(** The two pending methods, both marked by one bulk update. *)
Lemma bulk_synced_not_queued :
  Forall (fun t => first_column t ∉ ["m1"; "m2"])
    (match get_methods_to_vectorize 100
             (bulk_update_vector_sync [("m1", 12, 1 # 1000); ("m2", 7, 1 # 1000)]
                Fixtures.two_pending) with
     | inr (rows, _) => rows
     | inl _ => []
     end).
Proof.
  destruct (get_methods_to_vectorize 100
              (bulk_update_vector_sync [("m1", 12, 1 # 1000); ("m2", 7, 1 # 1000)]
                 Fixtures.two_pending)) as [e|[rows conn']] eqn:Hq.
  - constructor.
  - apply (proj1 (proj2 (synced_leaves_vectorization_queue Fixtures.two_pending
                           two_pending_keyed))
             [("m1", 12, 1 # 1000); ("m2", 7, 1 # 1000)] 100 rows conn').
    + apply (bool_decide_unpack _). vm_compute. exact I.
    + exact Hq.
Defined.

(** *** Mark and sweep *)

(** X10. The methods a scan has just ingested are not stale for any
    scan start time up to the time of the ingestion, whatever the scope
    and whatever their rows said before; for every other identity the
    ingestion does not change whether it is stale. *)
Theorem ingested_methods_are_not_stale d current_now methods conn prefix t :
  keyed (java_methods conn) ->
  NoDup (map JavaExtractor.id methods) ->
  t <= current_now ->
  exists conn',
    upsert_methods d current_now methods conn = inr conn'
    /\ (forall m, m ∈ methods ->
          JavaExtractor.id m ∉ (get_stale_methods prefix t conn').1)
    /\ (forall i, i ∉ map JavaExtractor.id methods ->
          (i ∈ (get_stale_methods prefix t conn').1
           <-> i ∈ (get_stale_methods prefix t conn).1)).
Proof.
  intros Hkeyed Hnd Ht.
  destruct (upsert_methods_distinct d current_now methods conn Hnd)
    as (conn' & Hrun & Hin & Hout).
  pose proof (keyed_upsert_methods _ _ _ _ _ Hkeyed Hrun) as Hkeyed'.
  exists conn'. split; [exact Hrun|]. split.
  - intros m Hm Hstale.
    apply StoreFacts.get_stale_methods_selects in Hstale
      as (k & r & Hk & Hid & _ & Hseen).
    rewrite (Hkeyed' k r Hk) in Hid. subst k.
    rewrite (Hin m Hm) in Hk. injection Hk as <-.
    destruct (java_methods conn !! JavaExtractor.id m); simpl in Hseen; lia.
  - intros i Hi. rewrite !StoreFacts.get_stale_methods_selects.
    split; intros (k & r & Hk & Hid & Hlike & Hseen); exists k, r.
    + rewrite (Hkeyed' k r Hk) in Hid. subst k.
      rewrite (Hout i Hi) in Hk.
      repeat split; [exact Hk | apply Hkeyed, Hk | exact Hlike | exact Hseen].
    + rewrite (Hkeyed k r Hk) in Hid. subst k.
      rewrite <- (Hout i Hi) in Hk.
      repeat split; [exact Hk | apply Hkeyed', Hk | exact Hlike | exact Hseen].
Qed.

(** The method of [my-app] was last seen at 10; a scan started at 20
    finds it again at 25. *)
Lemma found_again_not_stale :
  exists conn',
    upsert_methods Fixtures.defaults 25 [Fixtures.scanned "m1" "h1"]
      Fixtures.other_directory = inr conn'
    /\ "m1" ∉ (get_stale_methods "my-app" 20 conn').1.
Proof.
  destruct (ingested_methods_are_not_stale Fixtures.defaults 25
              [Fixtures.scanned "m1" "h1"] Fixtures.other_directory "my-app" 20)
    as (conn' & Hrun & Hfresh & _).
  - exact other_directory_keyed.
  - apply NoDup_singleton.
  - lia.
  - exists conn'. split; [exact Hrun|].
    apply (Hfresh (Fixtures.scanned "m1" "h1")). apply list_elem_of_here.
Defined.

(** X11. Deleting what [get_stale_methods] returned leaves nothing
    stale for the same scope and scan start time, removes every row it
    named and keeps every other row as it was. *)
Theorem sweep_leaves_nothing_stale conn prefix t :
  keyed (java_methods conn) ->
  let stale := (get_stale_methods prefix t conn).1 in
  let conn' := delete_methods_by_id stale conn in
  (get_stale_methods prefix t conn').1 = []
  /\ (forall k, k ∈ stale -> java_methods conn' !! k = None)
  /\ (forall k, k ∉ stale -> java_methods conn' !! k = java_methods conn !! k).
Proof.
  intros Hkeyed stale conn'. split; [|split].
  - destruct (get_stale_methods prefix t conn').1 as [|i rest] eqn:Hlist;
      [reflexivity|exfalso].
    assert (Hi : i ∈ (get_stale_methods prefix t conn').1).
    { rewrite Hlist. apply list_elem_of_here. }
    apply StoreFacts.get_stale_methods_selects in Hi
      as (k & r & Hk & Hid & Hlike & Hseen).
    unfold conn' in Hk. rewrite delete_methods_by_id_lookup in Hk.
    destruct (decide (k ∈ stale)) as [_|Hnot]; [discriminate Hk|].
    apply Hnot. unfold stale. apply StoreFacts.get_stale_methods_selects.
    exists k, r. repeat split; [exact Hk | apply Hkeyed, Hk | exact Hlike | exact Hseen].
  - intros k Hk. unfold conn'. rewrite delete_methods_by_id_lookup.
    rewrite decide_True by exact Hk. reflexivity.
  - intros k Hk. unfold conn'. rewrite delete_methods_by_id_lookup.
    rewrite decide_False by exact Hk. reflexivity.
Qed.

(** The sweep of [my-app] for a scan started at 20. *)
Lemma my_app_swept :
  (get_stale_methods "my-app" 20
     (delete_methods_by_id (get_stale_methods "my-app" 20 Fixtures.other_directory).1
        Fixtures.other_directory)).1 = [].
Proof.
  apply (sweep_leaves_nothing_stale Fixtures.other_directory "my-app" 20
           other_directory_keyed).
Defined.

(** X12. An empty argument costs no statement and changes nothing:
    [upsert_methods], [bulk_update_vector_sync],
    [update_vector_sync_status_batch] and [delete_methods_by_id] all
    return the connection as it was. With one to a hundred tuples
    [upsert_methods] and [bulk_update_vector_sync] send exactly one
    statement. *)
Theorem empty_arguments_send_nothing d current_now conn :
  upsert_methods d current_now [] conn = inr conn
  /\ bulk_update_vector_sync [] conn = conn
  /\ (forall new_status, update_vector_sync_status_batch [] new_status conn = conn)
  /\ delete_methods_by_id [] conn = conn
  /\ (forall methods conn',
        methods <> [] -> (length methods <= 100)%nat ->
        upsert_methods d current_now methods conn = inr conn' ->
        statements conn' = S (statements conn))
  /\ (forall update_data,
        update_data <> [] -> (length update_data <= 100)%nat ->
        statements (bulk_update_vector_sync update_data conn)
        = S (statements conn)).
Proof.
  repeat match goal with |- _ /\ _ => split end.
  - destruct conn. reflexivity.
  - reflexivity.
  - reflexivity.
  - reflexivity.
  - intros methods conn' Hne Hlen Hrun.
    apply upsert_methods_returns in Hrun as [_ ->].
    rewrite pages_single.
    + simpl. lia.
    + destruct methods; [congruence | discriminate].
    + unfold upsert_data. rewrite length_map. exact Hlen.
  - intros update_data Hne Hlen. unfold bulk_update_vector_sync.
    destruct update_data as [|u data]; [congruence|].
    rewrite (pages_single (u :: data)) by (try discriminate; exact Hlen).
    destruct (bulk_pages_return [u :: data] (java_methods conn)
                (statements conn)) as [table' Hrun].
    rewrite Hrun. simpl. lia.
Qed.

(** One bulk update of two tuples is one statement. *)
Lemma two_tuples_one_statement :
  statements (bulk_update_vector_sync [("m1", 12, 1 # 1000); ("m2", 7, 1 # 1000)]
                Fixtures.two_pending)
  = S (statements Fixtures.two_pending).
Proof.
  apply (empty_arguments_send_nothing Fixtures.defaults 0 Fixtures.two_pending).
  - discriminate.
  - simpl. lia.
Defined.

(** *** Enrichment and what follows *)

(** X22. [update_ai_enrichment] on a stored identity sets the status to
    [ai_processed], stores the payload, replaces the summary token count
    and adds the cost, and leaves the vector status, the fingerprint and
    [last_seen_at] alone; other rows are untouched. The row is then
    selected for vectorisation exactly when its vector status is
    [pending] and the payload does not flag it as getter or setter. *)
Theorem enrichment_decides_vectorization conn method_id summary details acc meta
    tokens cost processed r :
  java_methods conn !! method_id = Some r ->
  let conn' := update_ai_enrichment method_id summary details acc meta tokens
                 cost processed conn in
  exists r',
    java_methods conn' !! method_id = Some r'
    /\ status r' = "ai_processed"
    /\ metadata_json r' = Some meta
    /\ summary_tokens r' = tokens
    /\ total_cost r' = (total_cost r + cost)%Q
    /\ vector_status r' = vector_status r
    /\ content_hash r' = content_hash r
    /\ last_seen_at r' = last_seen_at r
    /\ (to_vectorize r' = true
        <-> vector_status r = "pending"
            /\ jsonb_contains_flag meta "is_getter_setter" true = false)
    /\ (forall k, k <> method_id ->
          java_methods conn' !! k = java_methods conn !! k)
    /\ statements conn' = S (statements conn).
Proof.
  intros Hr conn'. eexists. split.
  - unfold conn'. rewrite update_ai_enrichment_lookup, decide_True by reflexivity.
    rewrite Hr. reflexivity.
  - repeat match goal with |- _ /\ _ => split end; try reflexivity.
    + split.
      * unfold to_vectorize. simpl. intros Hsel.
        apply andb_true_iff in Hsel as [Hsel Hflag].
        rewrite andb_true_r in Hsel. apply String.eqb_eq in Hsel.
        apply negb_true_iff in Hflag. split; assumption.
      * intros [Hpending Hflag]. unfold to_vectorize. simpl.
        rewrite Hpending, Hflag. reflexivity.
    + intros k Hk. unfold conn'.
      rewrite update_ai_enrichment_lookup, decide_False by exact Hk. reflexivity.
Qed.

(** The pending getter of the sample store, enriched again with the
    payload that flags it: not selected. *)
Lemma flagged_after_enrichment :
  exists r',
    java_methods (update_ai_enrichment "m2" "Standard getter." "Boilerplate." true
                    Fixtures.boilerplate_metadata 0 0%Q 30 Fixtures.two_pending)
      !! "m2" = Some r'
    /\ to_vectorize r' = false.
Proof.
  destruct (enrichment_decides_vectorization Fixtures.two_pending "m2"
              "Standard getter." "Boilerplate." true Fixtures.boilerplate_metadata
              0 0%Q 30
              (Fixtures.stored "m2" "app/Bean.java" "h2" "ai_processed" "pending" 10
                 (Some Fixtures.boilerplate_metadata) 0 0%Q))
    as (r' & Hr' & _ & _ & _ & _ & _ & _ & _ & Hsel & _).
  - reflexivity.
  - exists r'. split; [exact Hr'|].
    destruct (to_vectorize r') eqn:Hv; [|reflexivity].
    destruct (proj1 Hsel eq_refl) as [_ Hflag]. discriminate Hflag.
Defined.

(** X23. A stored method that later scans do not meet again becomes
    stale: after an ingestion at some time, every method of the batch
    whose stored source path starts with a scope prefix free of [LIKE]
    wildcards is returned by [get_stale_methods] for that scope and any
    later scan start time. *)
Theorem ingested_then_unseen_is_stale d current_now methods conn prefix t m :
  keyed (java_methods conn) ->
  NoDup (map JavaExtractor.id methods) ->
  m ∈ methods ->
  current_now < t ->
  like_literal prefix = true ->
  exists conn' r,
    upsert_methods d current_now methods conn = inr conn'
    /\ java_methods conn' !! JavaExtractor.id m = Some r
    /\ (PyStr.startswith (source_path r) prefix = true ->
        JavaExtractor.id m ∈ (get_stale_methods prefix t conn').1).
Proof.
  intros Hkeyed Hnd Hm Ht Hlit.
  destruct (upsert_methods_distinct d current_now methods conn Hnd)
    as (conn' & Hrun & Hin & _).
  pose proof (keyed_upsert_methods _ _ _ _ _ Hkeyed Hrun) as Hkeyed'.
  exists conn'. eexists. split; [exact Hrun|]. split; [apply Hin, Hm|].
  intros Hprefix. apply StoreFacts.get_stale_methods_literal; [exact Hlit|].
  eexists _, _. split; [apply Hin, Hm|].
  repeat split.
  - apply Hkeyed', Hin, Hm.
  - exact Hprefix.
  - destruct (java_methods conn !! JavaExtractor.id m); simpl; lia.
Qed.

(** The method of [my-app], ingested at 25 and looked for at 40. *)
Lemma unseen_since_25 :
  exists conn',
    upsert_methods Fixtures.defaults 25 [Fixtures.scanned "m1" "h1"]
      Fixtures.other_directory = inr conn'
    /\ "m1" ∈ (get_stale_methods "my-app" 40 conn').1.
Proof.
  destruct (ingested_then_unseen_is_stale Fixtures.defaults 25
              [Fixtures.scanned "m1" "h1"] Fixtures.other_directory "my-app" 40
              (Fixtures.scanned "m1" "h1"))
    as (conn' & r & Hrun & Hr & Hstale).
  - exact other_directory_keyed.
  - apply NoDup_singleton.
  - apply list_elem_of_here.
  - lia.
  - reflexivity.
  - exists conn'. split; [exact Hrun|]. apply Hstale.
    assert (Hrow : java_methods conn' !! "m1"
                   = Some (reconciled Fixtures.defaults
                             (java_methods Fixtures.other_directory !! "m1")
                             (proposed 25 (Fixtures.scanned "m1" "h1")))).
    { destruct (upsert_methods_distinct Fixtures.defaults 25
                  [Fixtures.scanned "m1" "h1"] Fixtures.other_directory
                  (NoDup_singleton _)) as (conn2 & Hrun2 & Hin2 & _).
      rewrite Hrun in Hrun2. injection Hrun2 as <-.
      apply (Hin2 (Fixtures.scanned "m1" "h1")), list_elem_of_here. }
    change (JavaExtractor.id (Fixtures.scanned "m1" "h1")) with "m1" in Hr.
    rewrite Hrow in Hr. injection Hr as <-. vm_compute. reflexivity.
Defined.

End StoreExtras.

(** ** The extractor as a whole *)

Module ExtractorExtras.

Import JavaExtractor Identity BraceBalance.

(** *** Body bounding, in full *)

(** The loop always ends in one of two ways: at the first prefix that
    meets the stop condition, or at the end of the lines without having
    met it. *)
Lemma body_loop_decided rest : forall done,
  exists n,
    body_loop rest done (balance done) (opened done) = done ++ take n rest
    /\ (n <= length rest)%nat
    /\ (forall j, (1 <= j < n)%nat -> stops (done ++ take j rest) = false)
    /\ (((1 <= n)%nat /\ stops (done ++ take n rest) = true)
        \/ (n = length rest
            /\ forall j, (1 <= j <= n)%nat -> stops (done ++ take j rest) = false)).
Proof.
  induction rest as [|line rest IH]; intros done.
  - exists 0%nat. simpl. rewrite app_nil_r.
    repeat split; [lia | intros; lia | right; split; [reflexivity | intros; lia]].
  - rewrite BodyFacts.body_loop_step.
    destruct (stops (done ++ [line])) eqn:Hstop.
    + exists 1%nat. change (take 1 (line :: rest)) with (line :: take 0 rest).
      rewrite take_0. repeat split.
      * simpl. lia.
      * intros j Hj. lia.
      * left. split; [lia | exact Hstop].
    + destruct (IH (done ++ [line])) as (n & Hbody & Hlen & Hbefore & Hend).
      exists (S n). rewrite Hbody.
      change (take (S n) (line :: rest)) with (line :: take n rest).
      rewrite <- app_assoc. repeat split.
      * simpl. lia.
      * intros j Hj. destruct j as [|j]; [lia|].
        change (take (S j) (line :: rest)) with (line :: take j rest).
        destruct j as [|j].
        -- rewrite take_0. exact Hstop.
        -- specialize (Hbefore (S j) ltac:(lia)).
           rewrite <- app_assoc in Hbefore. exact Hbefore.
      * destruct Hend as [[Hpos Hstops]|[-> Hnever]].
        -- left. split; [lia|]. rewrite <- app_assoc in Hstops. exact Hstops.
        -- right. split; [reflexivity|]. intros j Hj.
           destruct j as [|j]; [lia|].
           change (take (S j) (line :: rest)) with (line :: take j rest).
           destruct j as [|j].
           ++ rewrite take_0. exact Hstop.
           ++ specialize (Hnever (S j) ltac:(lia)).
              rewrite <- app_assoc in Hnever. exact Hnever.
Qed.

(** X13. What [_get_method_body] returns is always decided by the stop
    condition: the body is the first [n] lines from the declaration
    line on, no shorter non-empty prefix meets the stop condition, and
    either the [n] lines meet it or they are all the lines to the end of
    the file, none of whose prefixes meets it. *)
Theorem get_method_body_is_decided (lines : list string) (start_line : Z) :
  let rest := PyStr.slice_from lines start_line in
  exists n,
    get_method_body lines start_line = (PyStr.join PyStr.NL (take n rest), n)
    /\ (n <= length rest)%nat
    /\ (forall j, (1 <= j < n)%nat -> stops (take j rest) = false)
    /\ (((1 <= n)%nat /\ stops (take n rest) = true)
        \/ (n = length rest
            /\ forall j, (1 <= j <= n)%nat -> stops (take j rest) = false)).
Proof.
  intros rest. destruct (body_loop_decided rest []) as (n & Hbody & Hlen & Hrest).
  exists n. unfold get_method_body. fold rest.
  change 0 with (balance []). change false with (opened []).
  rewrite Hbody. simpl. rewrite length_take.
  split; [f_equal; lia|]. split; [exact Hlen | exact Hrest].
Qed.

(** The abstract [run] declared on the second line of the sample file. *)
Lemma first_run_body_decided :
  let rest := PyStr.slice_from Fixtures.two_interfaces_lines 1 in
  exists n,
    get_method_body Fixtures.two_interfaces_lines 1
    = (PyStr.join PyStr.NL (take n rest), n)
    /\ (n <= length rest)%nat
    /\ (forall j, (1 <= j < n)%nat -> stops (take j rest) = false)
    /\ (((1 <= n)%nat /\ stops (take n rest) = true)
        \/ (n = length rest
            /\ forall j, (1 <= j <= n)%nat -> stops (take j rest) = false)).
Proof.
  exact (get_method_body_is_decided Fixtures.two_interfaces_lines 1).
Defined.

Lemma opened_false_stops (ls : list string) : opened ls = false -> stops ls = false.
Proof. unfold stops. intros ->. reflexivity. Qed.

Lemma opened_take_false (ls : list string) (n j : nat) :
  (j <= n)%nat -> opened (take n ls) = false -> opened (take j ls) = false.
Proof.
  revert n j. induction ls as [|l ls IH]; intros n j Hj Hn.
  - destruct j; reflexivity.
  - destruct j as [|j]; [reflexivity|]. destruct n as [|n]; [lia|].
    change (take (S n) (l :: ls)) with (l :: take n ls) in Hn.
    change (take (S j) (l :: ls)) with (l :: take j ls).
    unfold opened in *. simpl in *.
    apply orb_false_iff in Hn as [Hl Hn]. rewrite Hl. simpl.
    apply (IH n j); [lia | exact Hn].
Qed.

(** X14. Edge behaviour of [_get_method_body]. A declaration line past
    the end of the file gives the empty body and the count 0. The loop
    never stops before it has taken a line that holds an opening brace:
    when the first [n] lines from the declaration line on hold none, the
    body has more than [n] lines, or all the lines there are. *)
Theorem get_method_body_waits_for_a_brace (lines : list string) (start_line : Z) :
  (Z.of_nat (length lines) <= start_line ->
   get_method_body lines start_line = ("", 0%nat))
  /\ (forall n,
        let rest := PyStr.slice_from lines start_line in
        opened (take n rest) = false ->
        ((n < (get_method_body lines start_line).2)%nat
         \/ (get_method_body lines start_line).2 = length rest)).
Proof.
  split.
  - intros Hpast. unfold get_method_body, PyStr.slice_from.
    destruct (Z.leb_spec 0 start_line) as [_|Hneg]; [|lia].
    rewrite drop_ge by lia. reflexivity.
  - intros n rest Hopen.
    destruct (body_loop_decided rest []) as (k & Hbody & Hlen & _ & Hend).
    unfold get_method_body. fold rest.
    change 0 with (balance []). change false with (opened []).
    rewrite Hbody. simpl. rewrite length_take, Nat.min_l by exact Hlen.
    destruct Hend as [[Hpos Hstops]|[-> _]]; [left|right; reflexivity].
    destruct (Nat.le_gt_cases k n) as [Hle|Hgt]; [|exact Hgt].
    change ([] ++ take k rest) with (take k rest) in Hstops.
    rewrite (opened_false_stops _ (opened_take_false rest n k Hle Hopen)) in Hstops.
    discriminate Hstops.
Qed.

(** The abstract [run] of the first interface: the two lines after its
    declaration hold no opening brace, and the body runs past them. *)
Lemma abstract_method_runs_on :
  get_method_body ["class A {}"] 7 = ("", 0%nat)
  /\ ((2 < (get_method_body Fixtures.two_interfaces_lines 1).2)%nat
      \/ (get_method_body Fixtures.two_interfaces_lines 1).2
         = length (PyStr.slice_from Fixtures.two_interfaces_lines 1)).
Proof.
  split.
  - apply (proj1 (get_method_body_waits_for_a_brace ["class A {}"] 7)).
    simpl. lia.
  - apply (proj2 (get_method_body_waits_for_a_brace
                    Fixtures.two_interfaces_lines 1) 2%nat).
    reflexivity.
Defined.

(** *** One record per declaration *)

Section Records.
Context `{Digest}.

(** The fields of a record that are read off the declaration and the
    file. *)
Lemma extract_method_fields lines ctx reg path node m reg' :
  extract_method lines ctx reg path node = inr (m, reg') ->
  method_name m = Ast.name node
  /\ class_name m = get_nested_class_path path
  /\ source m = rel_path ctx
  /\ component m = ctx_component ctx
  /\ package m = package_name ctx
  /\ visibility m = get_visibility node
  /\ return_type m = get_return_type node
  /\ javadoc_raw m = default "" (Ast.documentation node).
Proof.
  unfold extract_method. intros Hm.
  destruct (Ast.position node) as [pos|]; [|discriminate Hm].
  unfold mbind, result_bind, mret, result_ret in Hm.
  destruct (get_method_body lines (Ast.line pos - 1)) as [code n].
  destruct (analyze_dependencies (package_name ctx) (imports ctx)) as [int ext].
  injection Hm as <- <-.
  repeat match goal with |- _ /\ _ => split end; reflexivity.
Qed.

(** A declaration without a position makes the loop raise. *)
Lemma extract_loop_raises lines ctx todo : forall reg acc,
  Exists (fun pm => Ast.position pm.2 = None) todo ->
  extract_loop todo lines ctx reg acc = inl AttributeError.
Proof.
  induction todo as [|[path node] todo IH]; intros reg acc Hex.
  - inversion Hex.
  - simpl.
    destruct (extract_method lines ctx reg path node) as [e|[m reg']] eqn:Hm.
    + apply IdentityFacts.extract_method_raises in Hm as [_ ->]. reflexivity.
    + simpl. apply IH.
      apply Exists_cons in Hex as [Hnone|Hex]; [|exact Hex].
      apply IdentityFacts.extract_method_returns in Hm as (pos & Hpos & _).
      simpl in Hnone. congruence.
Qed.

(** X15. Extraction is all or nothing per file. When every method
    declaration has a position it returns one record per declaration,
    in document order, carrying the declaration's name, enclosing path,
    visibility, return type and documentation and the file's path,
    component and package. When some declaration has no position it
    raises, so the records of the declarations before it are lost as
    well. *)
Theorem extraction_is_all_or_nothing tree lines ctx :
  (Forall (fun pm => is_Some (Ast.position pm.2)) (Ast.methods tree) ->
   exists recs,
     extract_methods_from_tree tree lines ctx = inr recs
     /\ Forall2 (fun pm m =>
          method_name m = Ast.name pm.2
          /\ class_name m = get_nested_class_path pm.1
          /\ source m = rel_path ctx
          /\ component m = ctx_component ctx
          /\ package m = package_name ctx
          /\ visibility m = get_visibility pm.2
          /\ return_type m = get_return_type pm.2
          /\ javadoc_raw m = default "" (Ast.documentation pm.2))
        (Ast.methods tree) recs)
  /\ (Exists (fun pm => Ast.position pm.2 = None) (Ast.methods tree) ->
      extract_methods_from_tree tree lines ctx = inl AttributeError).
Proof.
  split.
  - intros Hpos.
    destruct (IdentityFacts.extract_loop_total lines ctx (Ast.methods tree) ∅ [] Hpos)
      as [recs Hrecs].
    exists recs. split; [exact Hrecs|].
    destruct (IdentityFacts.extract_loop_returns lines ctx _ _ _ _ Hrecs)
      as (news & -> & _ & Hall).
    simpl. eapply Forall2_impl; [exact Hall|].
    intros pm m (reg_in & reg_out & Hm).
    exact (extract_method_fields _ _ _ _ _ _ _ Hm).
  - intros Hex. apply extract_loop_raises. exact Hex.
Qed.

End Records.

(** The two interface methods, then the same file with a third method
    that has no position. *)
Lemma third_method_loses_the_file :
  (exists recs,
     @extract_methods_from_tree Fixtures.transparent_digest
       Fixtures.two_interfaces_tree Fixtures.two_interfaces_lines
       Fixtures.two_interfaces_ctx = inr recs
     /\ length recs = 2%nat)
  /\ @extract_methods_from_tree Fixtures.transparent_digest
       {| Ast.package := None; Ast.imports := [];
          Ast.methods :=
            [Fixtures.run_at 2; Fixtures.run_at 5;
             ([Ast.OtherNode],
              {| Ast.name := "stop"; Ast.parameters := [];
                 Ast.position := None; Ast.modifiers := [];
                 Ast.return_type := None; Ast.documentation := None |})] |}
       Fixtures.two_interfaces_lines Fixtures.two_interfaces_ctx
     = inl AttributeError.
Proof.
  split.
  - destruct (proj1 (@extraction_is_all_or_nothing Fixtures.transparent_digest
                       Fixtures.two_interfaces_tree Fixtures.two_interfaces_lines
                       Fixtures.two_interfaces_ctx)) as (recs & Hrecs & Hall).
    + repeat constructor; simpl; eexists; reflexivity.
    + exists recs. split; [exact Hrecs|].
      apply Forall2_length in Hall. rewrite <- Hall. reflexivity.
  - apply (proj2 (@extraction_is_all_or_nothing Fixtures.transparent_digest _ _ _)).
    right. right. left. reflexivity.
Defined.

(** *** Repeated base keys *)

(** The registry after [k] methods of one base key. *)
Lemma resolve_after_candidates base_sig (k : nat) :
  resolve_signature base_sig
    (list_to_set (map (candidate base_sig) (seq 0 k)))
  = candidate base_sig k.
Proof.
  set (reg := list_to_set (map (candidate base_sig) (seq 0 k)) : gset string).
  assert (Hreg : forall j, candidate base_sig j ∈ reg <-> (j < k)%nat).
  { intros j. unfold reg. rewrite elem_of_list_to_set, list_elem_of_fmap. split.
    - intros (i & Heq & Hi). apply IdentityFacts.candidate_inj in Heq. subst i.
      apply elem_of_seq in Hi. lia.
    - intros Hj. exists j. split; [reflexivity|]. apply elem_of_seq. lia. }
  destruct (IdentityFacts.resolve_signature_spec base_sig reg)
    as (n & Heq & Hnot & Hall).
  rewrite Heq in Hnot |- *. f_equal.
  destruct (Nat.lt_trichotomy n k) as [Hlt|[->|Hgt]].
  - exfalso. apply Hnot, Hreg, Hlt.
  - reflexivity.
  - exfalso. specialize (Hall k Hgt). apply Hreg in Hall. lia.
Qed.

Lemma issued_repeated ctx base_sig todo : forall k,
  Forall (fun pm => base_signature ctx pm.1 pm.2 = base_sig) todo ->
  issued ctx (list_to_set (map (candidate base_sig) (seq 0 k))) todo
  = map (candidate base_sig) (seq k (length todo)).
Proof.
  induction todo as [|[path node] todo IH]; intros k Hall; [reflexivity|].
  apply Forall_cons in Hall as [Hbase Hall]. simpl in Hbase.
  simpl. rewrite Hbase, resolve_after_candidates. f_equal.
  rewrite <- (IH (S k) Hall). f_equal.
  rewrite seq_S, map_app, list_to_set_app_L. simpl.
  rewrite union_empty_r_L. apply union_comm_L.
Qed.

(** A string without [c] has no prefix ending in [c]. *)
Lemma upto_last_none c s : PyStr.contains c s = false -> upto_last c s = None.
Proof.
  induction s as [|a s IH]; [reflexivity|]. simpl. intros Hfree.
  apply orb_false_iff in Hfree as [Ha Hfree]. rewrite (IH Hfree), Ha. reflexivity.
Qed.

Lemma upto_last_append c x t :
  PyStr.contains c t = false ->
  upto_last c (x +:+ String c t) = Some (x +:+ String c "").
Proof.
  intros Hfree. induction x as [|a x IH].
  - change ("" +:+ String c t) with (String c t). simpl.
    rewrite (upto_last_none c t Hfree), Ascii.eqb_refl. reflexivity.
  - change (String a x +:+ String c t) with (String a (x +:+ String c t)).
    simpl. rewrite IH. reflexivity.
Qed.

(** The decimal digits hold no closing parenthesis. *)
Lemma string_of_uint_no_paren u :
  PyStr.contains ")" (NilEmpty.string_of_uint u) = false.
Proof. induction u; simpl; try reflexivity; exact IHu. Qed.

Lemma str_nat_no_paren n : PyStr.contains ")" (PyStr.str_nat n) = false.
Proof.
  unfold PyStr.str_nat, NilZero.string_of_uint.
  destruct (Nat.to_uint n); try reflexivity; apply string_of_uint_no_paren.
Qed.

(** Every signature the resolver tries tells its base key: the base key
    ends with the last closing parenthesis. *)
Lemma candidate_base ctx path node n :
  upto_last ")" (candidate (base_signature ctx path node) n)
  = Some (base_signature ctx path node).
Proof.
  unfold base_signature.
  set (x := rel_path ctx +:+ "#" +:+ get_nested_class_path path +:+ "#"
            +:+ Ast.name node +:+ "(" +:+ get_params_signature node).
  assert (Hbase : rel_path ctx +:+ "#" +:+ get_nested_class_path path +:+ "#"
                  +:+ Ast.name node +:+ "(" +:+ get_params_signature node +:+ ")"
                  = x +:+ ")").
  { unfold x. rewrite !DependencyFacts.append_assoc. reflexivity. }
  rewrite Hbase. destruct n as [|n]; simpl.
  - apply upto_last_append. reflexivity.
  - rewrite DependencyFacts.append_assoc.
    change (")" +:+ "#sub_" +:+ PyStr.str_nat (S n))
      with (String ")" ("#sub_" +:+ PyStr.str_nat (S n))).
    apply upto_last_append.
    change ("#sub_" +:+ PyStr.str_nat (S n))
      with (String "#" (String "s" (String "u" (String "b" (String "_"
              (PyStr.str_nat (S n))))))).
    simpl. apply str_nat_no_paren.
Qed.

(** Two methods are tried under one signature only with the same base
    key and the same number. *)
Lemma candidate_inj_base ctx path node n path' node' n' :
  candidate (base_signature ctx path node) n
  = candidate (base_signature ctx path' node') n' ->
  base_signature ctx path node = base_signature ctx path' node' /\ n = n'.
Proof.
  intros Heq.
  assert (Hbase : base_signature ctx path node = base_signature ctx path' node').
  { assert (Hl := candidate_base ctx path node n).
    rewrite Heq, candidate_base in Hl. congruence. }
  split; [exact Hbase|].
  rewrite Hbase in Heq. apply (IdentityFacts.candidate_inj _ _ _ Heq).
Qed.

Lemma with_base_key_snoc ctx base_sig seen pm :
  with_base_key ctx base_sig (seen ++ [pm])
  = (with_base_key ctx base_sig seen
     + (if decide (base_signature ctx pm.1 pm.2 = base_sig) then 1 else 0))%nat.
Proof.
  unfold with_base_key. rewrite filter_app, length_app. f_equal.
  rewrite filter_cons, filter_nil. destruct (decide _); reflexivity.
Qed.

Lemma counts_seen_empty ctx : counts_seen ctx ∅ [].
Proof.
  intros path node k. split.
  - intros Hin. apply not_elem_of_empty in Hin. destruct Hin.
  - unfold with_base_key. simpl. lia.
Qed.

(** The resolver gives a method the number of the methods seen with
    its base key. *)
Lemma counts_seen_resolve ctx reg seen path node :
  counts_seen ctx reg seen ->
  resolve_signature (base_signature ctx path node) reg
  = candidate (base_signature ctx path node)
      (with_base_key ctx (base_signature ctx path node) seen).
Proof.
  intros Hreg.
  destruct (IdentityFacts.resolve_signature_spec (base_signature ctx path node) reg)
    as (n & Heq & Hnot & Hall).
  rewrite Heq in Hnot |- *. f_equal.
  destruct (Nat.lt_trichotomy n
              (with_base_key ctx (base_signature ctx path node) seen))
    as [Hlt|[->|Hgt]].
  - exfalso. apply Hnot, Hreg, Hlt.
  - reflexivity.
  - exfalso. specialize (Hall _ Hgt). apply Hreg in Hall. lia.
Qed.

Lemma counts_seen_step ctx reg seen path node :
  counts_seen ctx reg seen ->
  counts_seen ctx
    ({[ candidate (base_signature ctx path node)
          (with_base_key ctx (base_signature ctx path node) seen) ]} ∪ reg)
    (seen ++ [(path, node)]).
Proof.
  intros Hreg path' node' k.
  rewrite with_base_key_snoc, elem_of_union, elem_of_singleton. simpl. split.
  - intros [Heq|Hin].
    + apply candidate_inj_base in Heq as [Hbase ->]. rewrite Hbase.
      rewrite decide_True by reflexivity. lia.
    + apply Hreg in Hin. lia.
  - intros Hk.
    destruct (decide (base_signature ctx path node = base_signature ctx path' node'))
      as [Hbase|Hbase].
    + destruct (decide (k = with_base_key ctx (base_signature ctx path' node') seen))
        as [->|Hne].
      * left. rewrite Hbase. reflexivity.
      * right. apply Hreg. lia.
    + right. apply Hreg. lia.
Qed.

Lemma issued_numbered ctx todo : forall reg seen,
  counts_seen ctx reg seen ->
  forall n pm, todo !! n = Some pm ->
    issued ctx reg todo !! n
    = Some (candidate (base_signature ctx pm.1 pm.2)
              (with_base_key ctx (base_signature ctx pm.1 pm.2)
                 (seen ++ take n todo))).
Proof.
  induction todo as [|[path node] todo IH]; intros reg seen Hreg n pm Hpm;
    [destruct n; discriminate Hpm|].
  simpl issued. rewrite (counts_seen_resolve ctx reg seen path node Hreg).
  destruct n as [|n].
  - simpl in Hpm. injection Hpm as <-. simpl. rewrite app_nil_r. reflexivity.
  - simpl in Hpm.
    change ((?x :: ?l) !! S n) with (l !! n).
    rewrite (IH _ (seen ++ [(path, node)])
               (counts_seen_step ctx reg seen path node Hreg) n pm Hpm).
    rewrite <- app_assoc. reflexivity.
Qed.

Lemma length_issued ctx todo : forall reg,
  length (issued ctx reg todo) = length todo.
Proof.
  induction todo as [|[path node] todo IH]; intros reg; [reflexivity|].
  simpl. rewrite IH. reflexivity.
Qed.

(** X16. In one file every method is registered under its base key
    with the number of the methods before it, in document order, that
    have the same base key: the base key itself for the first of them,
    then the suffixes [#sub_1], [#sub_2], ... without a gap, whatever
    other methods stand in between. So methods that all have one base
    key are registered under the base key, [#sub_1], [#sub_2], ... in
    this order. *)
Theorem repeated_base_keys_count_up ctx todo :
  length (issued ctx ∅ todo) = length todo
  /\ (forall n pm, todo !! n = Some pm ->
        issued ctx ∅ todo !! n
        = Some (candidate (base_signature ctx pm.1 pm.2)
                  (with_base_key ctx (base_signature ctx pm.1 pm.2)
                     (take n todo))))
  /\ (forall base_sig,
        Forall (fun pm => base_signature ctx pm.1 pm.2 = base_sig) todo ->
        issued ctx ∅ todo = map (candidate base_sig) (seq 0 (length todo))
        /\ forall n pm, todo !! S n = Some pm ->
             issued ctx ∅ todo !! S n
             = Some (base_sig +:+ "#sub_" +:+ PyStr.str_nat (S n))).
Proof.
  split; [apply length_issued|]. split.
  - intros n pm Hpm.
    apply (issued_numbered ctx todo ∅ [] (counts_seen_empty ctx) n pm Hpm).
  - intros base_sig Hall.
    assert (Hissued : issued ctx ∅ todo
                      = map (candidate base_sig) (seq 0 (length todo))).
    { apply (issued_repeated ctx base_sig todo 0 Hall). }
    split; [exact Hissued|].
    intros n pm Hpm. rewrite Hissued, list_lookup_fmap.
    rewrite lookup_seq_lt by (apply lookup_lt_Some in Hpm; exact Hpm).
    reflexivity.
Qed.

(** Two [run] methods without an enclosing class, with a [stop] method
    between them: the second [run] is the first repetition. *)
Lemma runs_around_stop :
  issued Fixtures.two_interfaces_ctx ∅
    [Fixtures.run_at 2; Fixtures.stop_at 3; Fixtures.run_at 5] !! 2%nat
  = Some "app/Two.java#Unknown#run()#sub_1".
Proof.
  rewrite (proj1 (proj2 (repeated_base_keys_count_up Fixtures.two_interfaces_ctx
                           [Fixtures.run_at 2; Fixtures.stop_at 3;
                            Fixtures.run_at 5]))
             2%nat (Fixtures.run_at 5) eq_refl).
  vm_compute. reflexivity.
Defined.

(** *** Dependencies and visibility *)

(** X17. [_analyze_dependencies] splits the imports in two: every
    import is in exactly one of the two lists, each list keeps the
    imports in the order of the file, and nothing is added or lost. *)
Theorem dependencies_split_the_imports package_name all_imports :
  let internal := (analyze_dependencies package_name all_imports).1 in
  let external := (analyze_dependencies package_name all_imports).2 in
  internal ++ external ≡ₚ all_imports
  /\ sublist internal all_imports
  /\ sublist external all_imports
  /\ (length internal + length external = length all_imports)%nat
  /\ forall i, i ∈ internal -> i ∈ external -> False.
Proof.
  unfold analyze_dependencies. cbn [fst snd].
  set (P := fun i : string =>
              PyStr.startswith i (dependency_prefix package_name) = true).
  assert (Hperm : filter P all_imports ++ filter (fun i => ~ P i) all_imports
                  ≡ₚ all_imports) by apply filter_app_complement.
  repeat match goal with |- _ /\ _ => split end.
  - exact Hperm.
  - apply sublist_filter.
  - apply (sublist_filter (fun i => ~ P i)).
  - rewrite <- length_app. apply Permutation_length. exact Hperm.
  - intros i Hint Hext.
    apply list_elem_of_filter in Hint as [Hp _].
    apply list_elem_of_filter in Hext as [Hnp _]. exact (Hnp Hp).
Qed.

(** The three imports of the sample file, split. *)
Lemma sample_imports_split :
  (length (analyze_dependencies "com.foo.app"
             ["com.foo.util.Strings"; "com.foobar.Baz"; "java.util.List"]).1
   + length (analyze_dependencies "com.foo.app"
               ["com.foo.util.Strings"; "com.foobar.Baz"; "java.util.List"]).2
   = 3)%nat.
Proof.
  apply (dependencies_split_the_imports "com.foo.app"
           ["com.foo.util.Strings"; "com.foobar.Baz"; "java.util.List"]).
Defined.

(** X18. [_get_visibility] returns the first modifier, in the order the
    set of modifiers is iterated, that is [public], [private] or
    [protected], and [package-private] exactly when there is none. *)
Theorem visibility_is_first_access_modifier node :
  get_visibility node ∈ "package-private" :: visibility_modifiers
  /\ (get_visibility node = "package-private"
      <-> Forall (fun m => m ∉ visibility_modifiers) (Ast.modifiers node))
  /\ (forall before m after,
        Ast.modifiers node = before ++ m :: after ->
        Forall (fun m' => m' ∉ visibility_modifiers) before ->
        m ∈ visibility_modifiers ->
        get_visibility node = m).
Proof.
  unfold get_visibility. fold visibility_modifiers.
  set (found := filter (fun m => m ∈ visibility_modifiers) (Ast.modifiers node)).
  assert (Hfound : forall m, m ∈ found ->
            m ∈ visibility_modifiers /\ m ∈ Ast.modifiers node).
  { intros m Hm. apply list_elem_of_filter in Hm. exact Hm. }
  repeat match goal with |- _ /\ _ => split end.
  - destruct found as [|m rest] eqn:Hf; [apply list_elem_of_here|].
    apply list_elem_of_further, (Hfound m), list_elem_of_here.
  - split.
    + destruct found as [|m rest] eqn:Hf.
      * intros _. apply Forall_forall. intros m Hm Hvis.
        assert (Hin : m ∈ found).
        { unfold found. apply list_elem_of_filter. split; assumption. }
        rewrite Hf in Hin. inversion Hin.
      * intros ->. destruct (Hfound "package-private" (list_elem_of_here _ _))
          as [Hvis _].
        apply (bool_decide_pack _) in Hvis. vm_compute in Hvis. destruct Hvis.
    + destruct found as [|m rest] eqn:Hf.
      * intros _. reflexivity.
      * intros Hnone. exfalso.
        destruct (Hfound m (list_elem_of_here _ _)) as [Hvis Hin].
        rewrite Forall_forall in Hnone. exact (Hnone m Hin Hvis).
  - intros before m after Hmods Hbefore Hm. unfold found. rewrite Hmods.
    rewrite filter_app.
    replace (filter (fun m0 => m0 ∈ visibility_modifiers) before) with (@nil string).
    + simpl. rewrite filter_cons_True by exact Hm. reflexivity.
    + symmetry. clear -Hbefore.
      induction Hbefore as [|b before Hb _ IH]; [reflexivity|].
      rewrite filter_cons_False by exact Hb. exact IH.
Qed.

(** A [static] method declared [protected]. *)
Lemma static_protected :
  get_visibility
    {| Ast.name := "run"; Ast.parameters := [];
       Ast.position := None; Ast.modifiers := ["static"; "protected"];
       Ast.return_type := None; Ast.documentation := None |}
  = "protected".
Proof.
  apply (proj2 (proj2 (visibility_is_first_access_modifier _)) ["static"] _ []).
  - reflexivity.
  - repeat constructor. intros Hin.
    apply (bool_decide_pack _) in Hin. vm_compute in Hin. exact Hin.
  - apply list_elem_of_further, list_elem_of_further, list_elem_of_here.
Defined.

(** *** Signatures across files *)

Lemma until_hash_append (r x : string) :
  PyStr.contains "#" r = false -> until_hash (r +:+ String "#" x) = r.
Proof.
  induction r as [|c r IH]; intros Hfree.
  - reflexivity.
  - simpl in Hfree. apply orb_false_iff in Hfree as [Hc Hfree].
    change (String c r +:+ String "#" x) with (String c (r +:+ String "#" x)).
    simpl. rewrite Hc, IH by exact Hfree. reflexivity.
Qed.

(** Every candidate of a base key starts with the relative path and a
    [#]. *)
Lemma candidate_starts_with_path ctx path node n :
  exists x,
    candidate (base_signature ctx path node) n = rel_path ctx +:+ String "#" x.
Proof.
  unfold base_signature. destruct n as [|n]; simpl.
  - eexists. reflexivity.
  - eexists. rewrite DependencyFacts.append_assoc. reflexivity.
Qed.

Lemma issued_elements ctx todo : forall reg s,
  s ∈ issued ctx reg todo ->
  exists path node n, s = candidate (base_signature ctx path node) n.
Proof.
  induction todo as [|[path node] todo IH]; intros reg s Hs; [inversion Hs|].
  simpl in Hs. apply elem_of_cons in Hs as [->|Hs].
  - destruct (IdentityFacts.resolve_signature_spec (base_signature ctx path node) reg)
      as (n & Heq & _). exists path, node, n. exact Heq.
  - apply (IH _ _ Hs).
Qed.

(** X24. When the relative path of a file holds no [#], every
    signature registered for the file starts with that path followed by
    [#]; so two files with different such paths never register the same
    signature, and their identities differ wherever the digest does not
    collide. *)
Theorem signatures_of_two_files_differ :
  (forall ctx reg todo s,
     PyStr.contains "#" (rel_path ctx) = false ->
     s ∈ issued ctx reg todo ->
     until_hash s = rel_path ctx)
  /\ (forall ctx1 ctx2 reg1 reg2 todo1 todo2 s,
        PyStr.contains "#" (rel_path ctx1) = false ->
        PyStr.contains "#" (rel_path ctx2) = false ->
        rel_path ctx1 <> rel_path ctx2 ->
        s ∈ issued ctx1 reg1 todo1 ->
        s ∉ issued ctx2 reg2 todo2).
Proof.
  assert (Hpath : forall ctx reg todo s,
            PyStr.contains "#" (rel_path ctx) = false ->
            s ∈ issued ctx reg todo -> until_hash s = rel_path ctx).
  { intros ctx reg todo s Hfree Hs.
    destruct (issued_elements ctx todo reg s Hs) as (path & node & n & ->).
    destruct (candidate_starts_with_path ctx path node n) as [x ->].
    apply until_hash_append, Hfree. }
  split; [exact Hpath|].
  intros ctx1 ctx2 reg1 reg2 todo1 todo2 s Hfree1 Hfree2 Hne Hs1 Hs2.
  apply Hne. rewrite <- (Hpath ctx1 reg1 todo1 s Hfree1 Hs1).
  apply (Hpath ctx2 reg2 todo2 s Hfree2 Hs2).
Qed.

(** The signature of [run] in [app/Two.java] is not registered for
    [app/One.java]. *)
Lemma run_of_two_files :
  "app/Two.java#Unknown#run()"
  ∉ issued {| rel_path := "app/One.java"; package_name := "com.foo.app";
              imports := []; ctx_component := "app" |} ∅
      [Fixtures.run_at 2; Fixtures.run_at 5].
Proof.
  apply (proj2 signatures_of_two_files_differ Fixtures.two_interfaces_ctx
           {| rel_path := "app/One.java"; package_name := "com.foo.app";
              imports := []; ctx_component := "app" |}
           ∅ ∅ [Fixtures.run_at 2]).
  - reflexivity.
  - reflexivity.
  - discriminate.
  - apply list_elem_of_here.
Defined.

End ExtractorExtras.

(** ** The import pipeline *)

Module PipelineFacts.

Import JavaExtractor PostgresDatastore ImportProjects Reconciliation StoreInvariants.

(** *** Batches *)

Lemma range_step_50 (stop : nat) :
  range_step stop BATCH_SIZE
  = map (fun k => (k * 50)%nat) (seq 0 ((stop + 49) / 50)).
Proof.
  unfold range_step, BATCH_SIZE.
  replace (stop + 50 - 1)%nat with (stop + 49)%nat by lia. reflexivity.
Qed.

(** Slices of fifty taken at 0, 50, 100, ... put together give the list
    back. *)
Lemma concat_slices {A} (c : nat) : forall (l : list A),
  (length l <= c * 50)%nat ->
  concat (map (fun k => take 50 (drop (k * 50) l)) (seq 0 c)) = l.
Proof.
  induction c as [|c IH]; intros l Hlen.
  - destruct l; [reflexivity | simpl in Hlen; lia].
  - change (seq 0 (S c)) with (0%nat :: seq 1 c).
    rewrite <- seq_shift, map_cons, map_map.
    change (concat (?x :: ?xs)) with (x ++ concat xs).
    change (0 * 50)%nat with 0%nat. rewrite drop_0.
    transitivity (take 50 l ++ drop 50 l); [|apply take_drop].
    f_equal.
    transitivity (concat (map (fun k => take 50 (drop (k * 50) (drop 50 l)))
                            (seq 0 c))).
    + f_equal. apply map_ext. intros k.
      rewrite drop_drop. reflexivity.
    + apply IH. rewrite length_drop. lia.
Qed.

(** The slices, their sizes and their number. *)
Lemma batches_parts (all_methods : list method_record) :
  concat (batches all_methods) = all_methods
  /\ Forall (fun b => b <> [] /\ (length b <= 50)%nat) (batches all_methods)
  /\ length (batches all_methods) = ((length all_methods + 49) / 50)%nat.
Proof.
  unfold batches. rewrite range_step_50, map_map.
  split; [|split].
  - apply (concat_slices ((length all_methods + 49) / 50) all_methods).
    pose proof (Nat.div_mod_eq (length all_methods + 49) 50) as Hdiv.
    pose proof (Nat.mod_upper_bound (length all_methods + 49) 50) as Hmod.
    lia.
  - apply Forall_forall. intros b Hb.
    apply list_elem_of_fmap in Hb as (k & -> & Hk).
    apply elem_of_seq in Hk. unfold batch_at, BATCH_SIZE.
    pose proof (Nat.div_mod_eq (length all_methods + 49) 50) as Hdiv.
    pose proof (Nat.mod_upper_bound (length all_methods + 49) 50) as Hmod.
    split.
    + intros Hnil. apply (f_equal length) in Hnil.
      rewrite length_take, length_drop in Hnil.
      change (length (@nil method_record)) with 0%nat in Hnil. lia.
    + rewrite length_take. lia.
  - rewrite length_map, length_seq. reflexivity.
Qed.

(** X19. The batches of [run_extraction_pipeline] are the scan cut in
    order into slices of fifty: together they are the scan, none is
    empty, none has more than fifty records, and there are as many as
    the number of records over fifty, rounded up. *)
Theorem batches_cut_the_scan (all_methods : list method_record) :
  concat (batches all_methods) = all_methods
  /\ Forall (fun b => b <> [] /\ (length b <= 50)%nat) (batches all_methods)
  /\ length (batches all_methods) = ((length all_methods + 49) / 50)%nat.
Proof. exact (batches_parts all_methods). Qed.

(** *** The loop over the batches *)

(** Batches that pass are behind the loop when it goes on. *)
Lemma upsert_batches_app d now_at before : forall n conn conn1 after,
  upsert_batches d now_at n before conn = (conn1, true) ->
  upsert_batches d now_at n (before ++ after) conn
  = upsert_batches d now_at (n + length before) after conn1.
Proof.
  induction before as [|b before IH]; intros n conn conn1 after Hrun.
  - simpl in Hrun. injection Hrun as <-. simpl. rewrite Nat.add_0_r. reflexivity.
  - simpl in Hrun |- *.
    destruct (upsert_methods d (now_at n) b conn) as [e|conn'];
      [discriminate Hrun|].
    rewrite (IH (S n) conn' conn1 after Hrun). f_equal. lia.
Qed.

(** Batches without a repeated identity among them all pass, and each
    record is reconciled against the store as it was before the loop. *)
Lemma upsert_batches_distinct d now_at bs : forall n conn,
  NoDup (map JavaExtractor.id (concat bs)) ->
  exists conn',
    upsert_batches d now_at n bs conn = (conn', true)
    /\ (forall j b m, bs !! j = Some b -> m ∈ b ->
          java_methods conn' !! JavaExtractor.id m
          = Some (reconciled d (java_methods conn !! JavaExtractor.id m)
                    (proposed (now_at (n + j)%nat) m)))
    /\ (forall k, k ∉ map JavaExtractor.id (concat bs) ->
          java_methods conn' !! k = java_methods conn !! k).
Proof.
  induction bs as [|b bs IH]; intros n conn Hnd.
  - exists conn. split; [reflexivity|]. split; [|reflexivity].
    intros j b m Hb. discriminate Hb.
  - change (concat (b :: bs)) with (b ++ concat bs) in *.
    rewrite map_app in Hnd. apply NoDup_app in Hnd as (Hb & Hdisj & Hbs).
    destruct (StoreExtras.upsert_methods_distinct d (now_at n) b conn Hb)
      as (conn1 & Hrun1 & Hin1 & Hout1).
    destruct (IH (S n) conn1 Hbs) as (conn' & Hrun & Hin & Hout).
    exists conn'. split; [|split].
    + simpl. rewrite Hrun1. exact Hrun.
    + intros j b' m Hj Hm. destruct j as [|j].
      * injection Hj as <-. rewrite Nat.add_0_r.
        rewrite Hout; [apply Hin1, Hm|].
        apply Hdisj. apply list_elem_of_fmap. exists m. split; [reflexivity | exact Hm].
      * simpl in Hj. rewrite (Hin j b' m Hj Hm).
        replace (S n + j)%nat with (n + S j)%nat by lia.
        rewrite Hout1; [reflexivity|].
        intros Hinb. apply (Hdisj _ Hinb).
        apply list_elem_of_fmap. exists m. split; [reflexivity|].
        apply list_elem_of_lookup_2 in Hj.
        clear -Hj Hm. induction bs as [|x bs IHbs]; [inversion Hj|].
        change (concat (x :: bs)) with (x ++ concat bs). apply elem_of_app.
        apply elem_of_cons in Hj as [->|Hj]; [left; exact Hm | right; auto].
    + intros k Hk. rewrite map_app in Hk. apply not_elem_of_app in Hk as [Hkb Hkbs].
      rewrite (Hout k Hkbs). apply Hout1, Hkb.
Qed.

(** One statement per batch, for batches of one to a hundred records. *)
Lemma upsert_batches_statements d now_at bs : forall n conn conn',
  upsert_batches d now_at n bs conn = (conn', true) ->
  Forall (fun b => b <> [] /\ (length b <= 100)%nat) bs ->
  statements conn' = (statements conn + length bs)%nat.
Proof.
  induction bs as [|b bs IH]; intros n conn conn' Hrun Hall.
  - simpl in Hrun. injection Hrun as <-. simpl. lia.
  - apply Forall_cons in Hall as [[Hne Hlen] Hall]. simpl in Hrun.
    destruct (upsert_methods d (now_at n) b conn) as [e|conn1] eqn:Hb;
      [discriminate Hrun|].
    rewrite (IH _ _ _ Hrun Hall).
    apply StoreExtras.upsert_methods_returns in Hb as [_ ->].
    rewrite StoreExtras.pages_single.
    + simpl. lia.
    + destruct b; [congruence | discriminate].
    + unfold upsert_data. rewrite length_map. exact Hlen.
Qed.

(** The method at index [i] of the scan travels in batch [i / 50], at
    index [i mod 50]. *)
Lemma batches_lookup (all_methods : list JavaExtractor.method_record) i m :
  all_methods !! i = Some m ->
  exists b,
    batches all_methods !! (i / BATCH_SIZE)%nat = Some b
    /\ b !! (i mod BATCH_SIZE)%nat = Some m.
Proof.
  intros Hm. assert (Hi := lookup_lt_Some _ _ _ Hm).
  unfold batches, range_step, BATCH_SIZE.
  exists (batch_at all_methods (i / 50 * 50)). split.
  - change (map ?f ?l) with (f <$> l). rewrite !list_lookup_fmap.
    rewrite lookup_seq_lt; [reflexivity|].
    apply Nat.Div0.div_lt_upper_bound.
    assert (Hdiv := Nat.div_mod_eq (length all_methods + 50 - 1) 50).
    assert (Hmod := Nat.mod_upper_bound (length all_methods + 50 - 1) 50).
    lia.
  - unfold batch_at, BATCH_SIZE.
    rewrite lookup_take_lt by (apply Nat.mod_upper_bound; lia).
    rewrite lookup_drop, <- Hm. f_equal.
    assert (Hdiv := Nat.div_mod_eq i 50). lia.
Qed.

Section Pipeline.
Context `{Digest} `{Host}.

(** X20. When the identities of the scan are pairwise distinct and
    [run_extraction_pipeline] reports that every batch was upserted,
    every extracted method is reconciled against the store as it was
    before the run, with [last_seen_at] the time of the call that carried
    its batch: call number [j] for the methods of the [j]-th batch, so
    call number [i / 50] for the method at index [i] of the scan. The
    rows of other identities are untouched, and the run costs one
    statement per batch of fifty. *)
Theorem pipeline_reconciles_the_scan d now_at source_dir conn conn' :
  let all_methods := extract_from_directory source_dir in
  NoDup (map JavaExtractor.id all_methods) ->
  run_extraction_pipeline d now_at source_dir conn = (conn', true) ->
  (forall j b m, batches all_methods !! j = Some b -> m ∈ b ->
     java_methods conn' !! JavaExtractor.id m
     = Some (reconciled d (java_methods conn !! JavaExtractor.id m)
               (proposed (now_at j) m)))
  /\ (forall i m, all_methods !! i = Some m ->
        java_methods conn' !! JavaExtractor.id m
        = Some (reconciled d (java_methods conn !! JavaExtractor.id m)
                  (proposed (now_at (i / BATCH_SIZE)%nat) m)))
  /\ (forall k, k ∉ map JavaExtractor.id all_methods ->
        java_methods conn' !! k = java_methods conn !! k)
  /\ statements conn'
     = (statements conn + (length all_methods + 49) / 50)%nat.
Proof.
  intros all_methods Hnd Hdone.
  destruct (batches_parts all_methods) as (Hconcat & Hsizes & Hcount).
  rewrite <- Hconcat in Hnd.
  destruct (upsert_batches_distinct d now_at (batches all_methods) 0 conn Hnd)
    as (conn1 & Hrun & Hin & Hout).
  unfold run_extraction_pipeline in Hdone. fold all_methods in Hdone.
  assert (conn1 = conn') as -> by congruence.
  split; [|split; [|split]].
  - intros j b m Hj Hmb. apply (Hin j b m Hj Hmb).
  - intros i m Hm.
    destruct (batches_lookup all_methods i m Hm) as (b & Hb & Hmb).
    apply (Hin _ b m Hb). apply (list_elem_of_lookup_2 _ _ _ Hmb).
  - intros k Hk. apply Hout. rewrite Hconcat. exact Hk.
  - rewrite <- Hcount. apply (upsert_batches_statements d now_at _ 0 _ _ Hrun).
    eapply Forall_impl; [exact Hsizes|]. intros b [Hne Hlen]. split; [exact Hne | lia].
Qed.

End Pipeline.

(** X21. The loop stops at the first batch PostgreSQL refuses: the
    batches before it stay committed, the refused batch and all the
    batches after it leave no trace, and the run reports the failure. *)
Theorem pipeline_stops_at_refused_batch d now_at n before bad after conn conn1 :
  upsert_batches d now_at n before conn = (conn1, true) ->
  (length bad <= 100)%nat ->
  ~ NoDup (map JavaExtractor.id bad) ->
  upsert_batches d now_at n (before ++ bad :: after) conn = (conn1, false).
Proof.
  intros Hbefore Hlen Hdup.
  rewrite (upsert_batches_app d now_at before n conn conn1 _ Hbefore). simpl.
  rewrite (StoreExtras.upsert_methods_refuses d _ bad conn1 Hlen Hdup).
  reflexivity.
Qed.

(** The small repository imported into the store of one method: two
    records, one batch, one statement. *)
Lemma small_repository_imported :
  (@run_extraction_pipeline Fixtures.transparent_digest Fixtures.small_repository
     Fixtures.defaults (fun n => 100 + Z.of_nat n) "repo" Fixtures.one_synced).2
  = true
  /\ statements
       (@run_extraction_pipeline Fixtures.transparent_digest Fixtures.small_repository
          Fixtures.defaults (fun n => 100 + Z.of_nat n) "repo" Fixtures.one_synced).1
     = 1%nat.
Proof.
  split; [vm_compute; reflexivity|].
  destruct (@pipeline_reconciles_the_scan Fixtures.transparent_digest
              Fixtures.small_repository Fixtures.defaults
              (fun n => 100 + Z.of_nat n) "repo" Fixtures.one_synced
              (@run_extraction_pipeline Fixtures.transparent_digest
                 Fixtures.small_repository Fixtures.defaults
                 (fun n => 100 + Z.of_nat n) "repo" Fixtures.one_synced).1)
    as (_ & _ & _ & Hsent).
  - apply (bool_decide_unpack _). vm_compute. exact I.
  - apply injective_projections; [reflexivity | vm_compute; reflexivity].
  - rewrite Hsent. vm_compute. reflexivity.
Defined.

(** Three batches, the second of which holds [m3] twice. *)
Lemma second_batch_refused :
  (upsert_batches Fixtures.defaults (fun n => 100 + Z.of_nat n) 0
     ([[Fixtures.scanned "m2" "h2"]]
      ++ [Fixtures.scanned "m3" "h3"; Fixtures.scanned "m3" "h3"]
      :: [[Fixtures.scanned "m4" "h4"]])
     Fixtures.one_synced).2 = false.
Proof.
  destruct (upsert_batches Fixtures.defaults (fun n => 100 + Z.of_nat n) 0
              [[Fixtures.scanned "m2" "h2"]] Fixtures.one_synced)
    as [conn1 ok] eqn:Hbefore.
  assert (Hok : ok = true).
  { apply (f_equal snd) in Hbefore. vm_compute in Hbefore. symmetry. exact Hbefore. }
  subst ok.
  rewrite (pipeline_stops_at_refused_batch _ _ _ _
             [Fixtures.scanned "m3" "h3"; Fixtures.scanned "m3" "h3"]
             [[Fixtures.scanned "m4" "h4"]] _ conn1 Hbefore).
  - reflexivity.
  - simpl. lia.
  - intros Hnd. apply (bool_decide_pack _) in Hnd. vm_compute in Hnd. exact Hnd.
Defined.

End PipelineFacts.
